(** * Secure_Note: the pad and attachment servers, embedded in Rocq

    Two server variants live in the repository and both are embedded here:

    - [Server]    follows [server.js]     (SHA-256 digests, routes
                  [/api/pad/:padId/create], [verify], [get], [save],
                  [/api/upload/:padId], [/files/:padId/:fileId], and the
                  hourly [cleanupExpired]);
    - [ServerOld] follows [server-old.js] (bcrypt digests, routes
                  [/api/create-pad], [/api/login], and the same pad and file
                  routes guarded by [padExists]).

    Modelling conventions.
    - The two directories [pads/] and [uploads/] are finite maps: a pad
      identifier maps to the parsed content of [pads/<id>.json], and to the
      ordered listing of [uploads/<id>/] (file name and bytes).  Pad
      identifiers are opaque file names.
    - Every handler is an [async] function wrapped in [try]/[catch]; it is a
      computation in a state-and-exception monad [M] over the [World].
    - [new Date()] / [Date.now()] read the next value of the world's clock, in
      milliseconds since the epoch; an ISO-8601 string written by
      [toISOString] and read back by [new Date(...)] is kept as that number.
    - [crypto.randomBytes] and the bcrypt salt draw from the world's entropy.
    - A JavaScript string is a Rocq [string]; a request field that may be
      [undefined] is an [option]. *)

From Stdlib Require Import ZArith String Ascii List Bool Lia Strings.Byte.
From stdpp Require Import base gmap strings list.

Local Open Scope string_scope.

(** ** JSON values and HTTP responses *)

#[warnings="-register-all"]
Inductive json : Type :=
| JNull
| JBool (b : bool)
| JNum (n : Z)
| JStr (s : string)
| JDate (ms : Z)                       (* the ISO-8601 string of that instant *)
| JArr (items : list json)
| JObj (fields : list (string * json)).

Inductive Response : Type :=
| Json (status : Z) (body : json)              (* res.status(status).json(body) *)
| Download (padId fileName asName : string)    (* res.download(path, asName) *)
| Unhandled (message : string).                (* next(err) from a middleware *)

Definition errorBody (msg : string) : json := JObj [("error", JStr msg)].

Definition statusOf (r : Response) : option Z :=
  match r with
  | Json s _ => Some s
  | Download _ _ _ => Some 200%Z
  | Unhandled _ => None
  end.

(** ** Exceptions of the runtime *)

Inductive Exn : Type :=
| ENOENT (path : string)        (* fs: no such file or directory *)
| EIO (path : string)           (* fs: any other failure of an unlink *)
| TypeError (what : string).    (* a library call on [undefined] *)

Inductive LogEntry : Type :=
| LogInfo (msg : string)
| LogError (msg : string) (err : Exn)
| LogDeleteError (fileId : string) (err : Exn)   (* `Error deleting file ${id}:` *)
| LogCleaned (count : nat).                      (* `Removed ${cleaned} expired files.` *)

(** ** Library functions the servers call *)

Class Platform : Type := {
  (* crypto.createHash('sha256').update(s).digest('hex') *)
  sha256_hex : string -> string;
  (* path.extname and String.prototype.toLowerCase *)
  extname : string -> string;
  toLowerCase : string -> string;
  (* bcrypt.hash with the salt it drew, and bcrypt.compare, which hashes the
     candidate again under the salt kept inside the digest *)
  bcrypt_hash : string -> string -> string;
  bcrypt_compare : string -> string -> bool;
  bcrypt_compare_hash : forall salt s s',
    bcrypt_compare s (bcrypt_hash salt s') =
    bool_decide (bcrypt_hash salt s = bcrypt_hash salt s')
}.

(** ** Attachments *)

Definition Buffer : Type := list byte.

Record FileInfo : Type := mkFileInfo {
  id : string;
  name : string;
  size : nat;
  uploadedAt : Z;
  expiresAt : Z
}.

Definition fileInfoJson (f : FileInfo) : json :=
  JObj [("id", JStr (id f)); ("name", JStr (name f));
        ("size", JNum (Z.of_nat (size f)));
        ("uploadedAt", JDate (uploadedAt f));
        ("expiresAt", JDate (expiresAt f))].

Definition MAX_FILE_SIZE : Z := (10 * 1024 * 1024)%Z.

(* 24 * 60 * 60 * 1000 *)
Definition LIFETIME_MS : Z := (24 * 60 * 60 * 1000)%Z.

Definition ALLOWED_TYPES : list (string * list string) :=
  [("application/pdf", [".pdf"]);
   ("image/jpeg", [".jpg"; ".jpeg"]);
   ("image/png", [".png"]);
   ("application/vnd.openxmlformats-officedocument.wordprocessingml.document", [".docx"])].

(** ** The world: disk, console, clock and entropy *)

Record World (P : Type) : Type := mkWorld {
  pads : gmap string P;                              (* pads/<id>.json *)
  uploads : gmap string (list (string * Buffer));    (* uploads/<id>/ *)
  console : list LogEntry;                           (* oldest entry first *)
  clock : nat -> Z;                                  (* successive readings *)
  ticks : nat;                                       (* readings taken so far *)
  entropy : nat -> string;                           (* successive random draws *)
  draws : nat;
  unlinkFails : string -> string -> bool             (* unlink(uploads/<id>/<f>) throws *)
}.

Arguments mkWorld {P}.
Arguments pads {P}.
Arguments uploads {P}.
Arguments console {P}.
Arguments clock {P}.
Arguments ticks {P}.
Arguments entropy {P}.
Arguments draws {P}.
Arguments unlinkFails {P}.

Section WorldUpdates.
Context {P : Type}.

Definition with_pads (f : gmap string P -> gmap string P) (w : World P) : World P :=
  mkWorld (f (pads w)) (uploads w) (console w) (clock w) (ticks w)
          (entropy w) (draws w) (unlinkFails w).

Definition with_uploads
    (f : gmap string (list (string * Buffer)) -> gmap string (list (string * Buffer)))
    (w : World P) : World P :=
  mkWorld (pads w) (f (uploads w)) (console w) (clock w) (ticks w)
          (entropy w) (draws w) (unlinkFails w).

Definition with_log (e : LogEntry) (w : World P) : World P :=
  mkWorld (pads w) (uploads w) (console w ++ [e]) (clock w) (ticks w)
          (entropy w) (draws w) (unlinkFails w).

Definition with_tick (w : World P) : World P :=
  mkWorld (pads w) (uploads w) (console w) (clock w) (S (ticks w))
          (entropy w) (draws w) (unlinkFails w).

Definition with_draw (w : World P) : World P :=
  mkWorld (pads w) (uploads w) (console w) (clock w) (ticks w)
          (entropy w) (S (draws w)) (unlinkFails w).
End WorldUpdates.

(** ** The monad of handlers: state plus exceptions *)

Definition M (P A : Type) : Type := World P -> (Exn + A) * World P.

Section Monad.
Context {P : Type}.

Definition ret {A} (a : A) : M P A := fun w => (inr a, w).

Definition throw {A} (e : Exn) : M P A := fun w => (inl e, w).

Definition bind {A B} (m : M P A) (k : A -> M P B) : M P B :=
  fun w =>
    match m w with
    | (inr a, w') => k a w'
    | (inl e, w') => (inl e, w')
    end.

(* try { m } catch (e) { h e } : effects of m before the throw persist *)
Definition try_catch {A} (m : M P A) (h : Exn -> M P A) : M P A :=
  fun w =>
    match m w with
    | (inr a, w') => (inr a, w')
    | (inl e, w') => h e w'
    end.

(* what the handler answered, and the world it left behind *)
Definition answer {A} (m : M P A) (w : World P) : Exn + A := fst (m w).
Definition after {A} (m : M P A) (w : World P) : World P := snd (m w).
End Monad.

Notation "'let!' x ':=' m 'in' k" := (bind m (fun x => k))
  (at level 10, x name, m at level 100, k at level 200, only parsing).
Notation "m '>>' k" := (bind m (fun _ => k))
  (at level 60, right associativity, only parsing).

(* uploads/<id>/<fileName> *)
Definition payloadPath (padId fileName : string) : string :=
  "uploads/" +:+ padId +:+ "/" +:+ fileName.

Section Primitives.
Context {P : Type}.

(* for (const x of xs) { acc = await body(acc, x) } *)
Fixpoint forEach {A B} (body : B -> A -> M P B) (xs : list A) (acc : B) : M P B :=
  match xs with
  | [] => ret acc
  | x :: rest => let! acc' := body acc x in forEach body rest acc'
  end.

(* new Date() / Date.now() *)
Definition now : M P Z := fun w => (inr (clock w (ticks w)), with_tick w).

(* one draw from the random source *)
Definition random : M P string := fun w => (inr (entropy w (draws w)), with_draw w).

Definition console_log (msg : string) : M P unit :=
  fun w => (inr tt, with_log (LogInfo msg) w).

Definition console_error (msg : string) (e : Exn) : M P unit :=
  fun w => (inr tt, with_log (LogError msg e) w).

Definition console_put (entry : LogEntry) : M P unit :=
  fun w => (inr tt, with_log entry w).

(* fs.access(pads/<id>.json) succeeded? *)
Definition padFileExists (padId : string) : M P bool :=
  fun w => (inr (bool_decide (is_Some (pads w !! padId))), w).

(* JSON.parse(await fs.readFile(pads/<id>.json, 'utf-8')) *)
Definition readPad (padId : string) : M P P :=
  fun w =>
    match pads w !! padId with
    | Some d => (inr d, w)
    | None => (inl (ENOENT ("pads/" +:+ padId +:+ ".json")), w)
    end.

(* await fs.writeFile(pads/<id>.json, JSON.stringify(data, null, 2)); the store
   is keyed by the identifier, which is the file pads/<id>.json for an
   identifier that is a plain file name *)
Definition writePad (padId : string) (data : P) : M P unit :=
  fun w => (inr tt, with_pads (insert padId data) w).

(* await fs.readdir(PADS_DIR) *)
Definition readdirPads : M P (list string) :=
  fun w => (inr (map fst (map_to_list (pads w))), w).

(* await fs.mkdir(uploads/<id>, { recursive: true }) *)
Definition mkdirUploads (padId : string) : M P unit :=
  fun w =>
    match uploads w !! padId with
    | Some _ => (inr tt, w)
    | None => (inr tt, with_uploads (insert padId []) w)
    end.

(* a directory entry is replaced in place, or appended *)
Fixpoint putFile (fileName : string) (buf : Buffer) (dir : list (string * Buffer))
  : list (string * Buffer) :=
  match dir with
  | [] => [(fileName, buf)]
  | (n, b) :: rest =>
      if String.eqb n fileName then (fileName, buf) :: rest
      else (n, b) :: putFile fileName buf rest
  end.

(* await fs.writeFile(uploads/<id>/<fileName>, buffer) *)
Definition writeUpload (padId fileName : string) (buf : Buffer) : M P unit :=
  fun w =>
    match uploads w !! padId with
    | Some dir => (inr tt, with_uploads (insert padId (putFile fileName buf dir)) w)
    | None => (inl (ENOENT (payloadPath padId fileName)), w)
    end.

(* await fs.readdir(uploads/<id>) *)
Definition readdirUploads (padId : string) : M P (list string) :=
  fun w =>
    match uploads w !! padId with
    | Some dir => (inr (map fst dir), w)
    | None => (inl (ENOENT ("uploads/" +:+ padId)), w)
    end.

Definition removeFile (fileName : string) (dir : list (string * Buffer))
  : list (string * Buffer) :=
  List.filter (fun e => negb (String.eqb (fst e) fileName)) dir.

(* await fs.unlink(uploads/<id>/<fileName>) *)
Definition unlinkUpload (padId fileName : string) : M P unit :=
  fun w =>
    if unlinkFails w padId fileName
    then (inl (EIO (payloadPath padId fileName)), w)
    else
      match uploads w !! padId with
      | Some dir =>
          if existsb (String.eqb fileName) (map fst dir)
          then (inr tt, with_uploads (insert padId (removeFile fileName dir)) w)
          else (inl (ENOENT (payloadPath padId fileName)), w)
      | None => (inl (ENOENT (payloadPath padId fileName)), w)
      end.
End Primitives.

(** ** Helpers shared by both servers *)

(* crypto.randomBytes(16).toString('hex') *)
Definition generateId {P} : M P string := random.

(* !x for a string that may be undefined: undefined and '' are falsy *)
Definition falsy (x : option string) : bool :=
  match x with
  | None => true
  | Some s => String.eqb s ""
  end.

(* x.length < n, once x is known to be a string *)
Definition shorterThan (n : nat) (x : option string) : bool :=
  match x with
  | None => false
  | Some s => Nat.ltb (String.length s) n
  end.

Definition hexDigit (n : N) : ascii :=
  match n with
  | 0%N => "0" | 1%N => "1" | 2%N => "2" | 3%N => "3"
  | 4%N => "4" | 5%N => "5" | 6%N => "6" | 7%N => "7"
  | 8%N => "8" | 9%N => "9" | 10%N => "a" | 11%N => "b"
  | 12%N => "c" | 13%N => "d" | 14%N => "e" | _ => "f"
  end%char.

(* Buffer.prototype.toString('hex') *)
Fixpoint toHex (buf : Buffer) : string :=
  match buf with
  | [] => ""
  | b :: rest =>
      String (hexDigit (Byte.to_N b / 16)) (String (hexDigit (Byte.to_N b mod 16)) (toHex rest))
  end.

(* header.startsWith(sig) *)
Definition startsWith (s sig : string) : bool := String.prefix sig s.

Section Validation.
Context `{Platform}.

(* validateMime(buffer, filename): identical in both servers *)
Definition validateMime (buffer : Buffer) (filename : string) : bool :=
  let ext := toLowerCase (extname filename) in
  if Nat.ltb (length buffer) 8 then false
  else
    let header := toHex (firstn 8 buffer) in
    if String.eqb ext ".pdf" then startsWith header "25504446"
    else if String.eqb ext ".jpg" || String.eqb ext ".jpeg" then startsWith header "ffd8ff"
    else if String.eqb ext ".png" then startsWith header "89504e47"
    else if String.eqb ext ".docx"
      then startsWith header "504b0304" || startsWith header "504b0506"
    else false.

(* the multipart file part, as multer hands it to fileFilter and the route *)
Record Upload : Type := mkUpload {
  originalname : string;
  buffer : Buffer
}.

(* multer's fileFilter: Object.values(ALLOWED_TYPES).flat().includes(ext) *)
Definition fileFilter (file : Upload) : bool :=
  let ext := toLowerCase (extname (originalname file)) in
  existsb (String.eqb ext) (concat (map snd ALLOWED_TYPES)).

(* upload.single('file'): the filter runs on the name, then the size limit
   on the bytes; either error goes to Express through next(err) *)
Definition multerSingle (part : option Upload) : string + option Upload :=
  match part with
  | None => inr None
  | Some file =>
      if negb (fileFilter file) then inl "Invalid file type"
      else if (MAX_FILE_SIZE <? Z.of_nat (length (buffer file)))%Z
      then inl "File too large"
      else inr (Some file)
  end.

(* the fileInfo literal of the upload route: two readings of the clock *)
Definition makeFileInfo {P} (fileId : string) (file : Upload) : M P FileInfo :=
  let! t_uploaded := now in
  let! t_now := now in
  ret (mkFileInfo fileId (originalname file) (length (buffer file))
                  t_uploaded (t_now + LIFETIME_MS)%Z).
End Validation.

(** ** server.js *)

Module Server.

(* the object written to pads/<id>.json *)
Record PadData : Type := mkPadData {
  content : string;
  files : list FileInfo;
  passwordHash : string;
  createdAt : Z;
  lastModified : Z
}.

Definition set_content (c : string) (t : Z) (d : PadData) : PadData :=
  mkPadData c (files d) (passwordHash d) (createdAt d) t.

Definition set_files (fs : list FileInfo) (d : PadData) : PadData :=
  mkPadData (content d) fs (passwordHash d) (createdAt d) (lastModified d).

Section Routes.
Context `{Platform}.

#[local] Abbreviation Handler := (M PadData Response).

(* function hashPassword(password) *)
Definition hashPassword (password : string) : string := sha256_hex password.

(* hashPassword(req.body.password): update(undefined) throws *)
Definition hashPasswordOf (password : option string) : M PadData string :=
  match password with
  | Some s => ret (hashPassword s)
  | None => throw (TypeError "The data argument must be of type string")
  end.

(* data.passwordHash === hashPassword(password), for a string password *)
Definition hashMatches (digest password : string) : bool :=
  String.eqb digest (hashPassword password).

(* app.get('/api/pad/:padId/exists') *)
Definition exists_ (padId : string) : Handler :=
  let! found := padFileExists padId in
  ret (Json 200 (JObj [("exists", JBool found)])).

(* app.post('/api/pad/:padId/create') *)
Definition create (padId : string) (password : option string) : Handler :=
  try_catch
    (if falsy password || shorterThan 4 password
     then ret (Json 400 (errorBody "Password must be at least 4 characters"))
     else
       let! digest := hashPasswordOf password in
       let! created := now in
       let! modified := now in
       let padData := mkPadData "" [] digest created modified in
       writePad padId padData >>
       ret (Json 200 (JObj [("success", JBool true)])))
    (fun error =>
       console_error "Create error:" error >>
       ret (Json 500 (errorBody "Failed to create pad"))).

(* app.post('/api/pad/:padId/verify') *)
Definition verify (padId : string) (password : option string) : Handler :=
  try_catch
    (let! data := readPad padId in
     let! digest := hashPasswordOf password in
     let isValid := String.eqb (passwordHash data) digest in
     ret (Json 200 (JObj [("success", JBool isValid)])))
    (fun _ =>
       ret (Json 404 (JObj [("success", JBool false); ("error", JStr "Pad not found")]))).

(* app.post('/api/pad/:padId/get') *)
Definition get (padId : string) (password : option string) : Handler :=
  try_catch
    (let! data := readPad padId in
     let! digest := hashPasswordOf password in
     if negb (String.eqb (passwordHash data) digest)
     then ret (Json 401 (errorBody "Incorrect password"))
     else ret (Json 200 (JObj [("content", JStr (content data));
                               ("files", JArr (map fileInfoJson (files data)))])))
    (fun _ => ret (Json 404 (errorBody "Pad not found"))).

(* app.post('/api/pad/:padId/save') *)
Definition save (padId : string) (password : option string) (newContent : string)
  : Handler :=
  try_catch
    (let! data := readPad padId in
     let! digest := hashPasswordOf password in
     if negb (String.eqb (passwordHash data) digest)
     then ret (Json 401 (errorBody "Incorrect password"))
     else
       let! modified := now in
       writePad padId (set_content newContent modified data) >>
       ret (Json 200 (JObj [("success", JBool true)])))
    (fun error =>
       console_error "Save error:" error >>
       ret (Json 500 (errorBody "Failed to save"))).

(* the handler behind upload.single('file') *)
Definition uploadHandler (padId : string) (password : option string)
    (file : option Upload) : Handler :=
  try_catch
    (match file with
     | None => ret (Json 400 (errorBody "No file provided"))
     | Some file =>
         let! padData := readPad padId in
         let! digest := hashPasswordOf password in
         if negb (String.eqb (passwordHash padData) digest)
         then ret (Json 401 (errorBody "Incorrect password"))
         else if negb (validateMime (buffer file) (originalname file))
         then ret (Json 400 (errorBody "Invalid or corrupted file"))
         else
           let! fileId := generateId in
           let ext := extname (originalname file) in
           mkdirUploads padId >>
           writeUpload padId (fileId +:+ ext) (buffer file) >>
           let! fileInfo := makeFileInfo fileId file in
           writePad padId (set_files (files padData ++ [fileInfo]) padData) >>
           ret (Json 200 (JObj [("success", JBool true);
                                ("file", fileInfoJson fileInfo)]))
     end)
    (fun error =>
       console_error "Upload error:" error >>
       ret (Json 500 (errorBody "Upload failed"))).

(* app.post('/api/upload/:padId', upload.single('file'), ...) *)
Definition upload (padId : string) (password : option string)
    (part : option Upload) : Handler :=
  match multerSingle part with
  | inl message => ret (Unhandled message)
  | inr file => uploadHandler padId password file
  end.

(* app.post('/files/:padId/:fileId') *)
Definition download (padId fileId : string) (password : option string) : Handler :=
  try_catch
    (let! padData := readPad padId in
     let! digest := hashPasswordOf password in
     if negb (String.eqb (passwordHash padData) digest)
     then ret (Json 401 (errorBody "Unauthorized"))
     else
       match List.find (fun f => String.eqb (id f) fileId) (files padData) with
       | None => ret (Json 404 (errorBody "File not found"))
       | Some fileInfo =>
           let! today := now in
           if (expiresAt fileInfo <? today)%Z
           then ret (Json 410 (errorBody "File expired"))
           else
             let! names := readdirUploads padId in
             match List.find (fun f => startsWith f fileId) names with
             | None => ret (Json 404 (errorBody "File not found on disk"))
             | Some fileName => ret (Download padId fileName (name fileInfo))
             end
       end)
    (fun error =>
       console_error "Download error:" error >>
       ret (Json 500 (errorBody "Download failed"))).

(* the body of `for (const file of expired)` with its own try/catch *)
Definition deleteExpired (padId : string) (cleaned : nat) (file : FileInfo)
  : M PadData nat :=
  try_catch
    (let! names := readdirUploads padId in
     match List.find (fun f => startsWith f (id file)) names with
     | Some fileName => unlinkUpload padId fileName >> ret (S cleaned)
     | None => ret cleaned
     end)
    (fun err => console_put (LogDeleteError (id file) err) >> ret cleaned).

(* the body of `for (const padFile of padFiles)` *)
Definition cleanupPad (cleaned : nat) (padId : string) : M PadData nat :=
  let! padData := readPad padId in
  let! today := now in
  let expired := List.filter (fun f => (expiresAt f <? today)%Z) (files padData) in
  let! cleaned' := forEach (deleteExpired padId) expired cleaned in
  let live := List.filter (fun f => (expiresAt f >=? today)%Z) (files padData) in
  writePad padId (set_files live padData) >>
  ret cleaned'.

(* async function cleanupExpired() *)
Definition cleanupExpired : M PadData unit :=
  try_catch
    (console_log "Running cleanup..." >>
     let! padFiles := readdirPads in
     let! cleaned := forEach cleanupPad padFiles 0 in
     console_put (LogCleaned cleaned))
    (fun error => console_error "Cleanup error:" error).
End Routes.
End Server.

(** ** server-old.js *)

Module ServerOld.

Definition SALT_ROUNDS : nat := 10.

(* the object written to pads/<urlName>.json *)
Record PadData : Type := mkPadData {
  padId : string;
  content : string;
  files : list FileInfo;
  passwordHash : string;
  createdAt : Z;
  updatedAt : Z
}.

Definition set_content (c : string) (t : Z) (d : PadData) : PadData :=
  mkPadData (padId d) c (files d) (passwordHash d) (createdAt d) t.

Definition set_files (fs : list FileInfo) (t : Z) (d : PadData) : PadData :=
  mkPadData (padId d) (content d) fs (passwordHash d) (createdAt d) t.

(* one character of the class [a-zA-Z0-9_-] *)
Definition isUrlChar (c : ascii) : bool :=
  let n := nat_of_ascii c in
  (Nat.leb 97 n && Nat.leb n 122) || (Nat.leb 65 n && Nat.leb n 90)
  || (Nat.leb 48 n && Nat.leb n 57) || Ascii.eqb c "_" || Ascii.eqb c "-".

(* /^[a-zA-Z0-9_-]{3,50}$/.test(urlName) *)
Definition isValidCustomUrl (urlName : string) : bool :=
  Nat.leb 3 (String.length urlName) && Nat.leb (String.length urlName) 50
  && forallb isUrlChar (list_ascii_of_string urlName).

Section Routes.
Context `{Platform}.

#[local] Abbreviation Handler := (M PadData Response).

(* async function hashPassword(password): bcrypt draws a fresh salt *)
Definition hashPassword (password : string) : M PadData string :=
  let! salt := random in
  ret (bcrypt_hash salt password).

(* async function verifyPassword(password, hash) *)
Definition verifyPassword (password hash : string) : bool :=
  bcrypt_compare password hash.

(* verifyPassword(req.body.password, hash): bcrypt rejects undefined data *)
Definition verifyPasswordOf (password : option string) (hash : string)
  : M PadData bool :=
  match password with
  | Some s => ret (verifyPassword s hash)
  | None => throw (TypeError "data and hash arguments required")
  end.

(* async function padExists(padId) *)
Definition padExists (padId : string) : M PadData bool := padFileExists padId.

(* app.get('/api/check-url/:urlName') *)
Definition checkUrl (urlName : string) : Handler :=
  if negb (isValidCustomUrl urlName)
  then ret (Json 200 (JObj [("available", JBool false);
                            ("error", JStr "Invalid URL name. Use 3-50 characters (letters, numbers, hyphens, underscores only)")]))
  else
    let! found := padExists urlName in
    ret (Json 200 (JObj [("available", JBool (negb found))])).

(* app.post('/api/create-pad') *)
Definition createPad (urlName password : option string) : Handler :=
  try_catch
    (match urlName with
     | None =>
         ret (Json 400 (errorBody "Invalid URL name. Use 3-50 characters (letters, numbers, hyphens, underscores only)"))
     | Some url =>
         if String.eqb url "" || negb (isValidCustomUrl url)
         then ret (Json 400 (errorBody "Invalid URL name. Use 3-50 characters (letters, numbers, hyphens, underscores only)"))
         else
           match password with
           | None => ret (Json 400 (errorBody "Password must be at least 4 characters"))
           | Some pw =>
               if String.eqb pw "" || Nat.ltb (String.length pw) 4
               then ret (Json 400 (errorBody "Password must be at least 4 characters"))
               else
                 let! taken := padExists url in
                 if taken
                 then ret (Json 409 (errorBody "This URL name is already taken."))
                 else
                   let! digest := hashPassword pw in
                   let! created := now in
                   let! updated := now in
                   let padData := mkPadData url "" [] digest created updated in
                   writePad url padData >>
                   ret (Json 200 (JObj [("success", JBool true); ("padId", JStr url)]))
           end
     end)
    (fun error =>
       console_error "Create pad error:" error >>
       ret (Json 500 (errorBody "Failed to create pad"))).

(* app.post('/api/login') *)
Definition login (urlName password : option string) : Handler :=
  try_catch
    (match urlName with
     | None => ret (Json 400 (errorBody "URL name and password are required"))
     | Some url =>
         if String.eqb url "" || falsy password
         then ret (Json 400 (errorBody "URL name and password are required"))
         else
           let! found := padExists url in
           if negb found
           then ret (Json 401 (errorBody "Incorrect URL or password."))
           else
             let! data := readPad url in
             let! isValid := verifyPasswordOf password (passwordHash data) in
             if negb isValid
             then ret (Json 401 (errorBody "Incorrect URL or password."))
             else ret (Json 200 (JObj [("success", JBool true); ("padId", JStr url)]))
     end)
    (fun error =>
       console_error "Login error:" error >>
       ret (Json 401 (errorBody "Incorrect URL or password."))).

(* app.post('/api/pad/:padId/get') *)
Definition get (padId : string) (password : option string) : Handler :=
  try_catch
    (let! found := padExists padId in
     if negb found then ret (Json 404 (errorBody "Pad not found"))
     else
       let! data := readPad padId in
       let! isValid := verifyPasswordOf password (passwordHash data) in
       if negb isValid
       then ret (Json 401 (errorBody "Incorrect password"))
       else ret (Json 200 (JObj [("content", JStr (content data));
                                 ("files", JArr (map fileInfoJson (files data)))])))
    (fun error =>
       console_error "Get pad error:" error >>
       ret (Json 500 (errorBody "Failed to load pad"))).

(* app.post('/api/pad/:padId/save') *)
Definition save (padId : string) (password : option string) (newContent : string)
  : Handler :=
  try_catch
    (let! found := padExists padId in
     if negb found then ret (Json 404 (errorBody "Pad not found"))
     else
       let! data := readPad padId in
       let! isValid := verifyPasswordOf password (passwordHash data) in
       if negb isValid
       then ret (Json 401 (errorBody "Incorrect password"))
       else
         let! updated := now in
         writePad padId (set_content newContent updated data) >>
         ret (Json 200 (JObj [("success", JBool true)])))
    (fun error =>
       console_error "Save error:" error >>
       ret (Json 500 (errorBody "Failed to save"))).

(* the handler behind upload.single('file') *)
Definition uploadHandler (padId : string) (password : option string)
    (file : option Upload) : Handler :=
  try_catch
    (match file with
     | None => ret (Json 400 (errorBody "No file provided"))
     | Some file =>
         let! found := padExists padId in
         if negb found then ret (Json 404 (errorBody "Pad not found"))
         else
           let! padData := readPad padId in
           let! isValid := verifyPasswordOf password (passwordHash padData) in
           if negb isValid
           then ret (Json 401 (errorBody "Incorrect password"))
           else if negb (validateMime (buffer file) (originalname file))
           then ret (Json 400 (errorBody "Invalid or corrupted file"))
           else
             let! fileId := generateId in
             let ext := extname (originalname file) in
             mkdirUploads padId >>
             writeUpload padId (fileId +:+ ext) (buffer file) >>
             let! fileInfo := makeFileInfo fileId file in
             let! updated := now in
             writePad padId (set_files (files padData ++ [fileInfo]) updated padData) >>
             ret (Json 200 (JObj [("success", JBool true);
                                  ("file", fileInfoJson fileInfo)]))
     end)
    (fun error =>
       console_error "Upload error:" error >>
       ret (Json 500 (errorBody "Upload failed"))).

(* app.post('/api/upload/:padId', upload.single('file'), ...) *)
Definition upload (padId : string) (password : option string)
    (part : option Upload) : Handler :=
  match multerSingle part with
  | inl message => ret (Unhandled message)
  | inr file => uploadHandler padId password file
  end.

(* app.post('/files/:padId/:fileId') *)
Definition download (padId fileId : string) (password : option string) : Handler :=
  try_catch
    (let! found := padExists padId in
     if negb found then ret (Json 404 (errorBody "Pad not found"))
     else
       let! padData := readPad padId in
       let! isValid := verifyPasswordOf password (passwordHash padData) in
       if negb isValid
       then ret (Json 401 (errorBody "Unauthorized"))
       else
         match List.find (fun f => String.eqb (id f) fileId) (files padData) with
         | None => ret (Json 404 (errorBody "File not found"))
         | Some fileInfo =>
             let! today := now in
             if (expiresAt fileInfo <? today)%Z
             then ret (Json 410 (errorBody "File expired"))
             else
               let! names := readdirUploads padId in
               match List.find (fun f => startsWith f fileId) names with
               | None => ret (Json 404 (errorBody "File not found on disk"))
               | Some fileName => ret (Download padId fileName (name fileInfo))
               end
         end)
    (fun error =>
       console_error "Download error:" error >>
       ret (Json 500 (errorBody "Download failed"))).

(* the body of `for (const file of expired)` with its own try/catch *)
Definition deleteExpired (padId : string) (cleaned : nat) (file : FileInfo)
  : M PadData nat :=
  try_catch
    (let! names := readdirUploads padId in
     match List.find (fun f => startsWith f (id file)) names with
     | Some fileName => unlinkUpload padId fileName >> ret (S cleaned)
     | None => ret cleaned
     end)
    (fun err => console_put (LogDeleteError (id file) err) >> ret cleaned).

(* the body of `for (const padFile of padFiles)`: the record is written
   back only when something had expired *)
Definition cleanupPad (cleaned : nat) (padId : string) : M PadData nat :=
  let! padData := readPad padId in
  let! today := now in
  let expired := List.filter (fun f => (expiresAt f <? today)%Z) (files padData) in
  let! cleaned' := forEach (deleteExpired padId) expired cleaned in
  if Nat.ltb 0 (length expired)
  then
    let live := List.filter (fun f => (expiresAt f >=? today)%Z) (files padData) in
    let! updated := now in
    writePad padId (set_files live updated padData) >>
    ret cleaned'
  else ret cleaned'.

(* async function cleanupExpired() *)
Definition cleanupExpired : M PadData unit :=
  try_catch
    (console_log "Running cleanup..." >>
     let! padFiles := readdirPads in
     let! cleaned := forEach cleanupPad padFiles 0 in
     console_put (LogCleaned cleaned))
    (fun error => console_error "Cleanup error:" error).
End Routes.
End ServerOld.

(** ** The magic numbers, read off the bytes

    [validateMime] compares hexadecimal text; the signatures it looks for are
    these byte sequences: [%PDF], the JPEG marker, the PNG marker and the two
    ZIP markers a .docx may start with. *)

Definition MAGIC_NUMBERS : list Buffer :=
  [ [x25; x50; x44; x46]; [xff; xd8; xff]; [x89; x50; x4e; x47];
    [x50; x4b; x03; x04]; [x50; x4b; x05; x06] ]%byte.

Fixpoint bytesStartWith (sig buf : Buffer) : bool :=
  match sig, buf with
  | [], _ => true
  | _ :: _, [] => false
  | a :: sig', b :: buf' => Byte.eqb a b && bytesStartWith sig' buf'
  end.

(* the leading bytes of the payload are the signature of an allowed format *)
Definition leadingBytesMatch (buf : Buffer) : bool :=
  existsb (fun sig => bytesStartWith sig buf) MAGIC_NUMBERS.

(** ** A small concrete platform and worlds, to run the handlers

    The digests are stand-ins that keep the shape of the real ones (a function
    of the secret; for bcrypt a function of salt and secret, compared by
    hashing again); every theorem below holds for any [Platform]. *)

Module Demo.

Definition lowerChar (c : ascii) : ascii :=
  let n := nat_of_ascii c in
  if Nat.leb 65 n && Nat.leb n 90 then ascii_of_nat (n + 32) else c.

Fixpoint lower (s : string) : string :=
  match s with
  | EmptyString => EmptyString
  | String c rest => String (lowerChar c) (lower rest)
  end.

(* the suffix that starts at the last dot, if any *)
Fixpoint fromLastDot (s : string) (acc : string) : string :=
  match s with
  | EmptyString => acc
  | String c rest => fromLastDot rest (if Ascii.eqb c "." then s else acc)
  end.

Definition digest (s : string) : string := "sha256:" +:+ s.

Definition saltedDigest (salt s : string) : string := "$2b$10$" +:+ s.

Definition saltedCompare (s hash : string) : bool :=
  bool_decide (saltedDigest "" s = hash).

Definition platform : Platform :=
  {| sha256_hex := digest;
     extname := fun s => fromLastDot s "";
     toLowerCase := lower;
     bcrypt_hash := saltedDigest;
     bcrypt_compare := saltedCompare;
     bcrypt_compare_hash := fun _ _ _ => eq_refl |}.

(* a clock that advances one millisecond per reading *)
Definition millis (start : Z) (n : nat) : Z := (start + Z.of_nat n)%Z.

Definition entropy (n : nat) : string :=
  match n with
  | 0 => "0f1e2d3c4b5a69788796a5b4c3d2e1f0"
  | _ => "00112233445566778899aabbccddeeff"
  end.

Definition noFault (padId fileName : string) : bool := false.

Definition pdfBytes : Buffer := [x25; x50; x44; x46; x2d; x31; x2e; x34; x0a]%byte.

(* the text "hello, world" *)
Definition textBytes : Buffer :=
  [x68; x65; x6c; x6c; x6f; x2c; x20; x77; x6f; x72; x6c; x64]%byte.

Definition report : FileInfo :=
  mkFileInfo "aa01" "report.pdf" 9 1000 (1000 + LIFETIME_MS).

Definition photo : FileInfo :=
  mkFileInfo "bb02" "photo.png" 9 90000000 (90000000 + LIFETIME_MS).

Definition uploadsDir : gmap string (list (string * Buffer)) :=
  {[ "demo" := [("aa01.pdf", pdfBytes); ("bb02.png", pdfBytes)] ]}.

(* server.js: pad "demo" with secret "abcd", two attachments, read at a
   time when the first one has expired *)
Definition pad : Server.PadData :=
  Server.mkPadData "hello world" [report; photo] (digest "abcd") 500 900.

Definition world : World Server.PadData :=
  mkWorld {[ "demo" := pad ]} uploadsDir [] (millis 100000000) 0 entropy 0 noFault.

(* server-old.js: the same pad under bcrypt *)
Definition padOld : ServerOld.PadData :=
  ServerOld.mkPadData "demo" "hello world" [report; photo] (saltedDigest "" "abcd") 500 900.

Definition worldOld : World ServerOld.PadData :=
  mkWorld {[ "demo" := padOld ]} uploadsDir [] (millis 100000000) 0 entropy 0 noFault.

(* server-old.js before any pad is created *)
Definition blankOld : World ServerOld.PadData :=
  mkWorld empty empty [] (millis 100000000) 0 entropy 0 noFault.

(* a world for the sweep: "demo" holds two expired attachments and a live
   one, and the unlink of the first payload fails; "other" holds an expired
   attachment but its upload directory is missing *)
Definition memo : FileInfo :=
  mkFileInfo "cc03" "memo.docx" 9 2000 (2000 + LIFETIME_MS).

Definition padBusy : Server.PadData :=
  Server.mkPadData "hello world" [report; memo; photo] (digest "abcd") 500 900.

Definition padLost : Server.PadData :=
  Server.mkPadData "" [memo] (digest "efgh") 600 600.

Definition firstUnlinkFails (padId fileName : string) : bool :=
  String.eqb fileName "aa01.pdf".

Definition worldFaulty : World Server.PadData :=
  mkWorld {[ "demo" := padBusy; "other" := padLost ]}
          {[ "demo" := [("aa01.pdf", pdfBytes); ("cc03.docx", pdfBytes);
                        ("bb02.png", pdfBytes)] ]}
          [] (millis 100000000) 0 entropy 0 firstUnlinkFails.

End Demo.

(** ** Vocabulary of the properties *)

(* the password is absent or shorter than 4 characters *)
Definition tooShort (password : option string) : Prop :=
  match password with
  | None => True
  | Some s => String.length s < 4
  end.

(* the attachment is still among the metadata of the pad *)
Definition listed (fileId : string) (fs : list FileInfo) : Prop :=
  exists f, List.find (fun f => String.eqb (id f) fileId) fs = Some f.

(* a payload for the attachment is still in the upload directory *)
Definition stored (fileId : string) (dir : option (list (string * Buffer))) : Prop :=
  exists entries fileName,
    dir = Some entries
    /\ List.find (fun f => startsWith f fileId) (map fst entries) = Some fileName.

(* the pad named by the request, if it names one, is missing *)
Definition padMissing {P} (w : World P) (urlName : option string) : Prop :=
  forall url, urlName = Some url -> pads w !! url = None.

(* the pad named by the request exists and the supplied secret does not
   verify against its digest *)
Definition secretWrong `{Platform} (w : World ServerOld.PadData)
    (urlName password : option string) : Prop :=
  forall url, urlName = Some url ->
    exists d, pads w !! url = Some d
      /\ forall s, password = Some s ->
           ServerOld.verifyPassword s (ServerOld.passwordHash d) = false.

(* the answer of an upload that went through, carrying the metadata [f] *)
Definition uploaded (f : FileInfo) : Exn + Response :=
  inr (Json 200 (JObj [("success", JBool true); ("file", fileInfoJson f)])).

(* the value of a hexadecimal digit, to read a byte back from its two digits *)
Definition unhex (c : ascii) : N :=
  (if Ascii.eqb c "0" then 0 else if Ascii.eqb c "1" then 1
   else if Ascii.eqb c "2" then 2 else if Ascii.eqb c "3" then 3
   else if Ascii.eqb c "4" then 4 else if Ascii.eqb c "5" then 5
   else if Ascii.eqb c "6" then 6 else if Ascii.eqb c "7" then 7
   else if Ascii.eqb c "8" then 8 else if Ascii.eqb c "9" then 9
   else if Ascii.eqb c "a" then 10 else if Ascii.eqb c "b" then 11
   else if Ascii.eqb c "c" then 12 else if Ascii.eqb c "d" then 13
   else if Ascii.eqb c "e" then 14 else 15)%N.

(* the directory once every entry named in [gone] has been unlinked *)
Definition keepOut (gone : list string) (dir : list (string * Buffer))
  : list (string * Buffer) :=
  List.filter (fun e => negb (existsb (String.eqb (fst e)) gone)) dir.

(* the parts of the world the deletion loop of one pad leaves alone *)
Definition sameOutside {P} (padId : string) (w w' : World P) : Prop :=
  pads w' = pads w
  /\ clock w' = clock w /\ ticks w' = ticks w
  /\ entropy w' = entropy w /\ draws w' = draws w
  /\ unlinkFails w' = unlinkFails w
  /\ (forall q, q <> padId -> uploads w' !! q = uploads w !! q).

(* the loop invariant: outside the upload directory of the pad nothing has
   changed, and inside it exactly the entries named in [gone] are unlinked,
   none of which was an entry whose unlink fails *)
Definition unlinkedSoFar {P} (w0 : World P) (padId : string) (gone : list string)
    (w : World P) : Prop :=
  sameOutside padId w0 w
  /\ uploads w !! padId = keepOut gone <$> uploads w0 !! padId
  /\ (forall n, In n gone -> unlinkFails w0 padId n = false).

(* what the loop owes to one expired entry: the error is on the console when
   the directory is missing or the unlink failed, the payload is gone
   otherwise *)
Definition attempted {P} (w0 : World P) (padId : string) (gone : list string)
    (log : list LogEntry) (file : FileInfo) : Prop :=
  match uploads w0 !! padId with
  | None => In (LogDeleteError (id file) (ENOENT ("uploads/" +:+ padId))) log
  | Some dir0 =>
      forall n,
        List.find (fun x => startsWith x (id file)) (map fst dir0) = Some n ->
        if unlinkFails w0 padId n
        then In (LogDeleteError (id file) (EIO (payloadPath padId n))) log
        else In n gone
  end.

(* the entries of a pad record that the sweep drops, and those it keeps *)
Definition expiredAt (today : Z) (f : FileInfo) : Prop := (expiresAt f < today)%Z.

Definition liveAt (today : Z) (fs : list FileInfo) : list FileInfo :=
  List.filter (fun f => (expiresAt f >=? today)%Z) fs.

(* what the sweep has done for one pad, between the world [w0] it found and
   the world [w'] it left, with [today] its reading of the clock *)
Definition swept (w0 : World Server.PadData) (padId : string) (today : Z)
    (w' : World Server.PadData) : Prop :=
  exists d gone,
    pads w0 !! padId = Some d
    /\ pads w' !! padId = Some (Server.set_files (liveAt today (Server.files d)) d)
    /\ uploads w' !! padId = keepOut gone <$> uploads w0 !! padId
    /\ (forall n, In n gone ->
          unlinkFails w0 padId n = false
          /\ exists f, In f (Server.files d) /\ expiredAt today f /\ startsWith n (id f) = true)
    /\ (forall f, In f (Server.files d) -> expiredAt today f ->
          attempted w0 padId gone (console w') f).

(** ** Vocabulary of the further properties *)

(* the magic numbers a payload may start with, by lower-cased extension *)
Definition signaturesOf (ext : string) : list Buffer :=
  if String.eqb ext ".pdf" then [ [x25; x50; x44; x46] ]%byte
  else if String.eqb ext ".jpg" || String.eqb ext ".jpeg" then [ [xff; xd8; xff] ]%byte
  else if String.eqb ext ".png" then [ [x89; x50; x4e; x47] ]%byte
  else if String.eqb ext ".docx"
    then [ [x50; x4b; x03; x04]; [x50; x4b; x05; x06] ]%byte
  else [].

(* the routes registered on [app] in server.js, and the hourly timer *)
Inductive Request : Type :=
| GetExists (padId : string)
| PostCreate (padId : string) (password : option string)
| PostVerify (padId : string) (password : option string)
| PostGet (padId : string) (password : option string)
| PostSave (padId : string) (password : option string) (content : string)
| PostUpload (padId : string) (password : option string) (part : option Upload)
| PostDownload (padId fileId : string) (password : option string)
| TimerFires.

(* the world after the server has dealt with one request *)
Definition serve `{Platform} (r : Request) (w : World Server.PadData)
  : World Server.PadData :=
  match r with
  | GetExists padId => after (Server.exists_ padId) w
  | PostCreate padId password => after (Server.create padId password) w
  | PostVerify padId password => after (Server.verify padId password) w
  | PostGet padId password => after (Server.get padId password) w
  | PostSave padId password content => after (Server.save padId password content) w
  | PostUpload padId password part => after (Server.upload padId password part) w
  | PostDownload padId fileId password => after (Server.download padId fileId password) w
  | TimerFires => after Server.cleanupExpired w
  end.

(* and after a sequence of them, one at a time *)
Definition serveAll `{Platform} (rs : list Request) (w : World Server.PadData)
  : World Server.PadData :=
  fold_left (fun w r => serve r w) rs w.

(* the pad a request creates, if it is a create request *)
Definition createdBy (r : Request) : option string :=
  match r with
  | PostCreate padId _ => Some padId
  | _ => None
  end.

(* a pad identifier that is a file name of its own: one to 250 letters,
   digits, hyphens and underscores.  path.join(PADS_DIR, `${padId}.json`) is
   then the file <padId>.json directly under pads/, a different file for a
   different identifier, under a name the file system takes: for these
   identifiers the store keyed by identifier is the directory *)
Definition isPlainName (padId : string) : bool :=
  Nat.leb 1 (String.length padId) && Nat.leb (String.length padId) 250
  && forallb ServerOld.isUrlChar (list_ascii_of_string padId).

(* the pad a request addresses *)
Definition padOf (r : Request) : option string :=
  match r with
  | GetExists padId | PostCreate padId _ | PostVerify padId _ | PostGet padId _
  | PostSave padId _ _ | PostUpload padId _ _ | PostDownload padId _ _ => Some padId
  | TimerFires => None
  end.

Definition isPlainRequest (r : Request) : bool :=
  match padOf r with
  | Some padId => isPlainName padId
  | None => true
  end.

(* an attachment entry built by the upload route from two successive
   readings of the clock *)
Definition builtByUpload {P} (w : World P) (f : FileInfo) : Prop :=
  exists k, uploadedAt f = clock w k /\ expiresAt f = (clock w (S k) + LIFETIME_MS)%Z.

(* a later state of the same pad record: same credential digest and creation
   time, and no attachment entry but those it had and those uploaded since *)
Definition evolved (w : World Server.PadData) (d d' : Server.PadData) : Prop :=
  Server.passwordHash d' = Server.passwordHash d
  /\ Server.createdAt d' = Server.createdAt d
  /\ (forall f, In f (Server.files d') -> In f (Server.files d) \/ builtByUpload w f).

(* how the pad files of [w'] come from those of [w]: none is removed, and
   each is a later state of itself, except the pad [created] (if any), which
   may have been written afresh with no attachment *)
Definition padsEvolve (created : option string) (w w' : World Server.PadData) : Prop :=
  clock w' = clock w
  /\ (forall p d, pads w !! p = Some d ->
        exists d', pads w' !! p = Some d' /\ (created <> Some p -> evolved w d d'))
  /\ (forall p d', pads w' !! p = Some d' ->
        (exists d, pads w !! p = Some d /\ evolved w d d')
        \/ (created = Some p /\ Server.files d' = [])).

(* every attachment entry of every pad expires no earlier than 24 hours
   after its upload timestamp *)
Definition expiryRespected (w : World Server.PadData) : Prop :=
  forall p d f, pads w !! p = Some d -> In f (Server.files d) ->
    (uploadedAt f + LIFETIME_MS <= expiresAt f)%Z.

(* the pad and file routes registered on [app] in server-old.js, and the
   hourly timer (the summarize route, which only reads the pad before it
   calls the external model, is not part of this table) *)
Inductive RequestOld : Type :=
| OldCheckUrl (urlName : string)
| OldCreatePad (urlName password : option string)
| OldLogin (urlName password : option string)
| OldGet (padId : string) (password : option string)
| OldSave (padId : string) (password : option string) (content : string)
| OldUpload (padId : string) (password : option string) (part : option Upload)
| OldDownload (padId fileId : string) (password : option string)
| OldTimerFires.

Definition serveOld `{Platform} (r : RequestOld) (w : World ServerOld.PadData)
  : World ServerOld.PadData :=
  match r with
  | OldCheckUrl urlName => after (ServerOld.checkUrl urlName) w
  | OldCreatePad urlName password => after (ServerOld.createPad urlName password) w
  | OldLogin urlName password => after (ServerOld.login urlName password) w
  | OldGet padId password => after (ServerOld.get padId password) w
  | OldSave padId password content => after (ServerOld.save padId password content) w
  | OldUpload padId password part => after (ServerOld.upload padId password part) w
  | OldDownload padId fileId password => after (ServerOld.download padId fileId password) w
  | OldTimerFires => after ServerOld.cleanupExpired w
  end.

Definition serveAllOld `{Platform} (rs : list RequestOld) (w : World ServerOld.PadData)
  : World ServerOld.PadData :=
  fold_left (fun w r => serveOld r w) rs w.

(* the same pad, later: its name, credential digest and creation time *)
Definition sameIdentity (d d' : ServerOld.PadData) : Prop :=
  ServerOld.padId d' = ServerOld.padId d
  /\ ServerOld.passwordHash d' = ServerOld.passwordHash d
  /\ ServerOld.createdAt d' = ServerOld.createdAt d.

(* every pad file is still there under the same identity, and a pad file
   that has appeared sits under a valid URL name which it records *)
Definition padsGrow (w w' : World ServerOld.PadData) : Prop :=
  (forall p d, pads w !! p = Some d ->
     exists d', pads w' !! p = Some d' /\ sameIdentity d d')
  /\ (forall p d', pads w !! p = None -> pads w' !! p = Some d' ->
        ServerOld.isValidCustomUrl p = true /\ ServerOld.padId d' = p).

(* every pad file sits under a valid URL name, which it records *)
Definition wellNamed (w : World ServerOld.PadData) : Prop :=
  forall p d, pads w !! p = Some d ->
    ServerOld.isValidCustomUrl p = true /\ ServerOld.padId d = p.

(* one character of a URL name that the validator accepts *)
Definition urlSafe (c : ascii) : Prop :=
  let n := nat_of_ascii c in
  (97 <= n <= 122) \/ (65 <= n <= 90) \/ (48 <= n <= 57) \/ c = "_"%char \/ c = "-"%char.

(** ** public/script.js: the client-only note store

    The browser variant keeps a note in [localStorage], under the keys
    note:<id>:passwordHash, note:<id>:content and note:<id>:filesMeta, and the
    attachments in the IndexedDB object store 'files', under <id>_<fileId>.
    An item written with JSON.stringify is kept as the list JSON.parse reads
    back from it; the outcome of JSON.parse on any other text, taken to be a
    list of entries whenever it is one at all, and the text of a stringified
    list are left open ([JsonText]).  Requests to IndexedDB are taken to
    succeed. *)

Module LocalNotes.

Inductive Item : Type :=
| Text (s : string)
| Meta (entries : list FileInfo).     (* JSON.stringify(entries) *)

Class JsonText : Type := {
  parseText : string -> option (list FileInfo);    (* JSON.parse; None: it throws *)
  stringifyMeta : list FileInfo -> string
}.

(* a File of the browser *)
Record File : Type := mkFile {
  fileName : string;
  fileBytes : Buffer
}.

Definition fileSize (file : File) : nat := length (fileBytes file).

(* a record of the object store 'files', keyed by its id *)
Record FileRec : Type := mkFileRec {
  recId : string;
  recNoteId : string;
  recName : string;
  recSize : nat;
  recUploadedAt : Z;
  recExpiresAt : Z;
  blob : File
}.

Record Browser : Type := mkBrowser {
  localStorage : gmap string Item;
  filesStore : gmap string FileRec;
  wallClock : nat -> Z;               (* successive readings of Date *)
  readings : nat;
  randomIds : nat -> string;          (* successive results of generateId *)
  drawn : nat
}.

Inductive Failure : Type :=
| Error (message : string)            (* throw new Error(message) *)
| SyntaxError.                        (* thrown by JSON.parse *)

(* an async function of the script: it resolves or rejects, and leaves a
   browser state behind *)
Definition L (A : Type) : Type := Browser -> (Failure + A) * Browser.

Definition resolve {A} (a : A) : L A := fun b => (inr a, b).

Definition reject {A} (e : Failure) : L A := fun b => (inl e, b).

Definition andThen {A B} (m : L A) (k : A -> L B) : L B :=
  fun b =>
    match m b with
    | (inr a, b') => k a b'
    | (inl e, b') => (inl e, b')
    end.

Notation "'await!' x ':=' m 'in' k" := (andThen m (fun x => k))
  (at level 10, x name, m at level 100, k at level 200, only parsing).
Notation "m '>>>' k" := (andThen m (fun _ => k))
  (at level 60, right associativity, only parsing).

Definition outcome {A} (m : L A) (b : Browser) : Failure + A := fst (m b).

Definition leaves {A} (m : L A) (b : Browser) : Browser := snd (m b).

(* for (const x of xs) { await body(x) } *)
Fixpoint forEach {A} (xs : list A) (body : A -> L unit) : L unit :=
  match xs with
  | [] => resolve tt
  | x :: rest => body x >>> forEach rest body
  end.

Definition getItem (key : string) : L (option Item) :=
  fun b => (inr (localStorage b !! key), b).

Definition setItem (key : string) (value : Item) : L unit :=
  fun b => (inr tt, mkBrowser (<[key := value]> (localStorage b)) (filesStore b)
                      (wallClock b) (readings b) (randomIds b) (drawn b)).

(* the keys localStorage.key(0), localStorage.key(1), ... *)
Definition storageKeys : L (list string) :=
  fun b => (inr (map fst (map_to_list (localStorage b))), b).

Definition idbPut (rec : FileRec) : L unit :=
  fun b => (inr tt, mkBrowser (localStorage b) (<[recId rec := rec]> (filesStore b))
                      (wallClock b) (readings b) (randomIds b) (drawn b)).

Definition idbGet (key : string) : L (option FileRec) :=
  fun b => (inr (filesStore b !! key), b).

Definition idbDelete (key : string) : L unit :=
  fun b => (inr tt, mkBrowser (localStorage b) (delete key (filesStore b))
                      (wallClock b) (readings b) (randomIds b) (drawn b)).

(* new Date() and Date.now() *)
Definition today : L Z :=
  fun b => (inr (wallClock b (readings b)),
            mkBrowser (localStorage b) (filesStore b) (wallClock b) (S (readings b))
              (randomIds b) (drawn b)).

(* function generateId(): twelve random bytes in hexadecimal *)
Definition generateId : L string :=
  fun b => (inr (randomIds b (drawn b)),
            mkBrowser (localStorage b) (filesStore b) (wallClock b) (readings b)
              (randomIds b) (S (drawn b))).

Definition noteContentKey (noteId : string) : string :=
  "note:" +:+ noteId +:+ ":content".

Definition notePasswordKey (noteId : string) : string :=
  "note:" +:+ noteId +:+ ":passwordHash".

Definition noteFilesMetaKey (noteId : string) : string :=
  "note:" +:+ noteId +:+ ":filesMeta".

(* `${id}_${fileId}` *)
Definition blobKey (noteId fileId : string) : string := noteId +:+ "_" +:+ fileId.

(* s.split(sep), with acc the piece being read *)
Fixpoint splitOn (sep : ascii) (s : string) (acc : string) : list string :=
  match s with
  | EmptyString => [acc]
  | String c rest =>
      if Ascii.eqb c sep then acc :: splitOn sep rest ""
      else splitOn sep rest (acc +:+ String c "")
  end.

(* k.endsWith(suffix) *)
Definition endsWith (k suffix : string) : bool :=
  Nat.leb (String.length suffix) (String.length k)
  && String.eqb (substring (String.length k - String.length suffix)
                           (String.length suffix) k) suffix.

(* k.startsWith('note:') && k.endsWith(':filesMeta') *)
Definition isMetaKey (k : string) : bool :=
  startsWith k "note:" && endsWith k ":filesMeta".

Section Store.
Context {P : Platform} {J : JsonText}.

(* the string localStorage hands back for an item *)
Definition textOf (item : Item) : string :=
  match item with
  | Text s => s
  | Meta entries => stringifyMeta entries
  end.

(* JSON.parse(localStorage.getItem(key) || '[]') *)
Definition readMeta (key : string) : L (list FileInfo) :=
  await! item := getItem key in
  match item with
  | None => resolve []
  | Some (Meta entries) => resolve entries
  | Some (Text s) =>
      if String.eqb s "" then resolve []
      else match parseText s with
           | Some entries => resolve entries
           | None => reject SyntaxError
           end
  end.

(* filename.split('.').pop().toLowerCase() *)
Definition extensionOf (filename : string) : string :=
  toLowerCase (List.last (splitOn "." filename "") "").

(* async function sha256Hex(message) *)
Definition sha256Hex (message : string) : L string := resolve (sha256_hex message).

(* async function noteExists(id) *)
Definition noteExists (noteId : string) : L bool :=
  await! saved := getItem (notePasswordKey noteId) in
  resolve (bool_decide (is_Some saved)).

(* async function createNote(id, password) *)
Definition createNote (noteId password : string) : L bool :=
  await! hash := sha256Hex password in
  setItem (notePasswordKey noteId) (Text hash) >>>
  setItem (noteContentKey noteId) (Text "") >>>
  setItem (noteFilesMetaKey noteId) (Meta []) >>>
  resolve true.

(* async function verifyNote(id, password) *)
Definition verifyNote (noteId password : string) : L bool :=
  await! saved := getItem (notePasswordKey noteId) in
  match saved with
  | None => resolve false
  | Some item =>
      if String.eqb (textOf item) "" then resolve false
      else
        await! hash := sha256Hex password in
        resolve (String.eqb (textOf item) hash)
  end.

(* async function saveNoteContent(id, password, content) *)
Definition saveNoteContent (noteId password content : string) : L bool :=
  await! ok := verifyNote noteId password in
  if negb ok then reject (Error "Incorrect password")
  else setItem (noteContentKey noteId) (Text content) >>> resolve true.

(* async function loadNote(id, password) *)
Definition loadNote (noteId password : string) : L (string * list FileInfo) :=
  await! ok := verifyNote noteId password in
  if negb ok then reject (Error "Incorrect password")
  else
    await! item := getItem (noteContentKey noteId) in
    let content := match item with Some it => textOf it | None => "" end in
    await! filesMeta := readMeta (noteFilesMetaKey noteId) in
    resolve (content, filesMeta).

(* async function addFileForNote(id, password, file) *)
Definition addFileForNote (noteId password : string) (file : File) : L FileInfo :=
  await! ok := verifyNote noteId password in
  if negb ok then reject (Error "Incorrect password")
  else if (10 * 1024 * 1024 <? Z.of_nat (fileSize file))%Z
  then reject (Error "File too large")
  else
    let ext := extensionOf (fileName file) in
    if negb (existsb (String.eqb ext) ["pdf"; "jpg"; "jpeg"; "png"; "docx"])
    then reject (Error "Invalid file type")
    else
      await! fileId := generateId in
      await! soon := today in
      let expires := (soon + 24 * 60 * 60 * 1000)%Z in
      await! uploaded := today in
      let rec := mkFileRec (blobKey noteId fileId) noteId (fileName file)
                   (fileSize file) uploaded expires file in
      idbPut rec >>>
      let metaKey := noteFilesMetaKey noteId in
      await! meta := readMeta metaKey in
      let entry := mkFileInfo fileId (fileName file) (fileSize file)
                     uploaded expires in
      setItem metaKey (Meta (meta ++ [entry])) >>>
      resolve entry.

(* async function getFileBlob(id, fileId) *)
Definition getFileBlob (noteId fileId : string) : L File :=
  await! found := idbGet (blobKey noteId fileId) in
  match found with
  | None => reject (Error "File not found")
  | Some rec =>
      await! current := today in
      if (recExpiresAt rec <? current)%Z
      then
        idbDelete (blobKey noteId fileId) >>>
        let metaKey := noteFilesMetaKey noteId in
        await! meta := readMeta metaKey in
        setItem metaKey
          (Meta (List.filter (fun f => negb (String.eqb (id f) fileId)) meta)) >>>
        reject (Error "File expired")
      else resolve (blob rec)
  end.

(* function canPreview(filename) *)
Definition canPreview (filename : string) : bool :=
  existsb (String.eqb (extensionOf filename)) ["pdf"; "jpg"; "jpeg"; "png"].

(* the body of `for (const key of metaFiles)`; key.split(':')[1] is undefined
   when the key has no colon *)
Definition cleanupKey (key : string) : L unit :=
  let noteId := nth 1 (splitOn ":" key "") "undefined" in
  await! meta := readMeta key in
  await! current := today in
  let expired := List.filter (fun f => (expiresAt f <? current)%Z) meta in
  forEach expired (fun f => idbDelete (blobKey noteId (id f))) >>>
  let kept := List.filter (fun f => (expiresAt f >=? current)%Z) meta in
  setItem key (Meta kept).

(* async function cleanupExpiredLocal() *)
Definition cleanupExpiredLocal : L unit :=
  await! keys := storageKeys in
  let metaFiles := List.filter isMetaKey keys in
  forEach metaFiles cleanupKey.

End Store.

End LocalNotes.

(** ** A browser for the client-only store *)

Module DemoLocal.
Import LocalNotes.

Definition jsonText : JsonText :=
  {| parseText := fun s => if String.eqb s "[]" then Some [] else None;
     stringifyMeta := fun l => "[" +:+ String.concat "," (map id l) +:+ "]" |}.

Definition randomIds (n : nat) : string :=
  match n with
  | 0 => "0f1e2d3c4b5a69788796a5b4"
  | _ => "00112233445566778899aabb"
  end.

Definition reportFile : File := mkFile "Report.PDF" Demo.pdfBytes.

Definition notesFile : File := mkFile "notes.txt" Demo.textBytes.

Definition reportRec : FileRec :=
  mkFileRec "diary_aa01" "diary" "report.pdf" 9 1000 (1000 + LIFETIME_MS) reportFile.

Definition photoRec : FileRec :=
  mkFileRec "diary_bb02" "diary" "photo.png" 9 90000000 (90000000 + LIFETIME_MS)
    reportFile.

(* note "diary" with password "abcd", an expired and a live attachment, and
   the theme the page remembers; the clock starts after the first expiry *)
Definition browser : Browser :=
  mkBrowser
    {[ "note:diary:passwordHash" := Text "sha256:abcd";
       "note:diary:content" := Text "dear diary";
       "note:diary:filesMeta" := Meta [Demo.report; Demo.photo];
       "theme" := Text "dark" ]}
    {[ "diary_aa01" := reportRec; "diary_bb02" := photoRec ]}
    (Demo.millis 100000000) 0 randomIds 0.

End DemoLocal.

(** ** Vocabulary of the properties of the client-only store *)

(* the password whose digest the note keeps *)
Definition opens {P : Platform} {J : LocalNotes.JsonText}
    (b : LocalNotes.Browser) (noteId password : string) : Prop :=
  exists item,
    LocalNotes.localStorage b !! LocalNotes.notePasswordKey noteId = Some item /\
    LocalNotes.textOf item = sha256_hex password /\
    sha256_hex password <> "".

(* no digest kept for the note is the digest of the password *)
Definition locked {P : Platform} {J : LocalNotes.JsonText}
    (b : LocalNotes.Browser) (noteId password : string) : Prop :=
  forall item,
    LocalNotes.localStorage b !! LocalNotes.notePasswordKey noteId = Some item ->
    LocalNotes.textOf item <> sha256_hex password.

(* the extensions addFileForNote lets through *)
Definition validExts : list string := ["pdf"; "jpg"; "jpeg"; "png"; "docx"].

(* the attachments JSON.parse reads under a key, or its failure *)
Definition listedUnder {J : LocalNotes.JsonText}
    (b : LocalNotes.Browser) (key : string) : LocalNotes.Failure + list FileInfo :=
  LocalNotes.outcome (LocalNotes.readMeta key) b.

(* a note id without a colon *)
Definition colonFree (noteId : string) : Prop :=
  ~ In ":"%char (list_ascii_of_string noteId).

(* what the page does to the note it shows *)
Inductive NoteAction : Type :=
| Create (password : string)
| Save (password content : string)
| Attach (password : string) (file : LocalNotes.File)
| Fetch (fileId : string).

(* the browser after an action on a note, whether it succeeded or not *)
Definition perform {P : Platform} {J : LocalNotes.JsonText}
    (noteId : string) (a : NoteAction) (b : LocalNotes.Browser) : LocalNotes.Browser :=
  match a with
  | Create password => LocalNotes.leaves (LocalNotes.createNote noteId password) b
  | Save password content =>
      LocalNotes.leaves (LocalNotes.saveNoteContent noteId password content) b
  | Attach password file =>
      LocalNotes.leaves (LocalNotes.addFileForNote noteId password file) b
  | Fetch fileId => LocalNotes.leaves (LocalNotes.getFileBlob noteId fileId) b
  end.

(* the three localStorage keys of a note *)
Definition keysOf (noteId : string) : list string :=
  [LocalNotes.notePasswordKey noteId; LocalNotes.noteContentKey noteId;
   LocalNotes.noteFilesMetaKey noteId].

(** * Properties *)

#[local] Arguments Nat.ltb : simpl never.
#[local] Arguments Nat.leb : simpl never.
#[local] Arguments Z.ltb : simpl never.
#[local] Arguments Z.geb : simpl never.
#[local] Arguments String.eqb : simpl never.
#[local] Arguments String.prefix : simpl never.
#[local] Arguments fileInfoJson : simpl never.

Ltac unfold_monad :=
  unfold answer, after, try_catch, bind, ret, throw, now, random, generateId,
    console_log, console_error, console_put, padFileExists, readPad, writePad,
    readdirPads, mkdirUploads, writeUpload, readdirUploads, unlinkUpload in *.

Ltac run := unfold_monad; cbn.

(* split the conjunctions of the goal, without unfolding definitions *)
Ltac split_ands := repeat match goal with |- _ /\ _ => split end.

(** ** Password length at the create boundary *)

Lemma tooShort_guard password :
  tooShort password -> falsy password || shorterThan 4 password = true.
Proof.
  destruct password as [s|]; [|done].
  intros Hlen. apply orb_true_iff. right. by apply Nat.ltb_lt.
Qed.

(** C10 - a create request whose password is absent or shorter than four
    characters is answered 400 "Password must be at least 4 characters" by
    server.js and leaves the world, hence the pad files, untouched. *)
Theorem create_rejects_short_password `{Platform}
    (w : World Server.PadData) (padId : string) (password : option string) :
  tooShort password ->
  answer (Server.create padId password) w
    = inr (Json 400 (errorBody "Password must be at least 4 characters"))
  /\ after (Server.create padId password) w = w.
Proof.
  intros Hshort. unfold Server.create. run.
  by rewrite (tooShort_guard _ Hshort).
Qed.

Lemma create_rejects_short_password_witness :
  tooShort (Some "abc")
  /\ answer (Server.create (H := Demo.platform) "fresh" (Some "abc")) Demo.world
       = inr (Json 400 (errorBody "Password must be at least 4 characters"))
  /\ after (Server.create (H := Demo.platform) "fresh" (Some "abc")) Demo.world = Demo.world.
Proof.
  assert (Hshort : tooShort (Some "abc")) by (cbn; lia).
  split; [exact Hshort|].
  exact (create_rejects_short_password (H := Demo.platform) Demo.world "fresh" (Some "abc") Hshort).
Defined.

(* server-old.js: the same boundary, behind the check of the URL name *)
Lemma createPad_rejects_short_password `{Platform}
    (w : World ServerOld.PadData) (urlName password : option string) :
  tooShort password ->
  (exists msg, answer (ServerOld.createPad urlName password) w
                 = inr (Json 400 (errorBody msg)))
  /\ after (ServerOld.createPad urlName password) w = w
  /\ (forall url, urlName = Some url -> ServerOld.isValidCustomUrl url = true ->
      answer (ServerOld.createPad urlName password) w
        = inr (Json 400 (errorBody "Password must be at least 4 characters"))).
Proof.
  intros Hshort. unfold ServerOld.createPad. run.
  destruct urlName as [url|]; cbn; [|split; [by eauto|]; split; [done|]; intros ? [=]].
  destruct (String.eqb url "" || negb (ServerOld.isValidCustomUrl url)) eqn:Hurl; cbn.
  - split; [eauto|]. split; [done|]. intros ? [= <-] Hv. rewrite Hv in Hurl.
    rewrite orb_false_r in Hurl. apply String.eqb_eq in Hurl. subst. discriminate.
  - destruct password as [pw|]; cbn; [|by eauto].
    apply Nat.ltb_lt in Hshort. rewrite Hshort, orb_true_r. by eauto.
Qed.

(** ** Creating a pad under an identifier already in use *)

(* server.js never looks at the pad file before writing it *)
Lemma create_writes_fresh_record `{Platform}
    (w : World Server.PadData) (padId s : string) :
  4 <= String.length s ->
  answer (Server.create padId (Some s)) w = inr (Json 200 (JObj [("success", JBool true)]))
  /\ pads (after (Server.create padId (Some s)) w) !! padId
     = Some (Server.mkPadData "" [] (Server.hashPassword s)
               (clock w (ticks w)) (clock w (S (ticks w)))).
Proof.
  intros Hlen. unfold Server.create.
  assert (Hguard : falsy (Some s) || shorterThan 4 (Some s) = false).
  { apply orb_false_iff. split.
    - unfold falsy. apply String.eqb_neq. intros ->. cbn in Hlen. lia.
    - unfold shorterThan. apply Nat.ltb_ge. lia. }
  rewrite Hguard. run. split; [done|]. apply lookup_insert_eq.
Qed.

(** C1 - server.js, on a create request for the identifier of an existing
    pad: the request succeeds with 200 and the stored record is replaced, its
    content emptied and its credential digest set from the new secret. *)
Theorem create_existing_pad_is_overwritten :
  pads Demo.world !! "demo" = Some Demo.pad
  /\ answer (Server.create (H := Demo.platform) "demo" (Some "zzzz")) Demo.world
     = inr (Json 200 (JObj [("success", JBool true)]))
  /\ pads (after (Server.create (H := Demo.platform) "demo" (Some "zzzz")) Demo.world) !! "demo"
     = Some (Server.mkPadData "" [] (Demo.digest "zzzz") 100000000 100000001)
  /\ Server.content Demo.pad = "hello world"
  /\ Server.passwordHash Demo.pad = Demo.digest "abcd".
Proof. repeat split; vm_compute; reflexivity. Qed.

(* server-old.js does what the claim says: 409 and nothing written *)
Lemma createPad_existing_conflict `{Platform}
    (w : World ServerOld.PadData) (url pw : string) (d : ServerOld.PadData) :
  pads w !! url = Some d ->
  ServerOld.isValidCustomUrl url = true ->
  4 <= String.length pw ->
  answer (ServerOld.createPad (Some url) (Some pw)) w
    = inr (Json 409 (errorBody "This URL name is already taken."))
  /\ after (ServerOld.createPad (Some url) (Some pw)) w = w.
Proof.
  intros Hpad Hvalid Hlen. unfold ServerOld.createPad, ServerOld.padExists. run.
  assert (Hurl : String.eqb url "" = false).
  { apply String.eqb_neq. intros ->. discriminate Hvalid. }
  rewrite Hurl, Hvalid. cbn.
  assert (Hpw : String.eqb pw "" || Nat.ltb (String.length pw) 4 = false).
  { apply orb_false_iff. split.
    - apply String.eqb_neq. intros ->. cbn in Hlen. lia.
    - apply Nat.ltb_ge. lia. }
  rewrite Hpw, Hpad. done.
Qed.

(** ** Saving with a secret that does not verify *)

(** C5 - server.js, save: when the pad exists and the digest of the supplied
    secret differs from the stored one, the answer is 401 "Incorrect
    password" and the world is left exactly as it was, so the pad record
    (content and last-modified timestamp included) is unchanged. *)
Theorem save_wrong_secret_unchanged `{Platform}
    (w : World Server.PadData) (padId s newContent : string) (d : Server.PadData) :
  pads w !! padId = Some d ->
  Server.hashMatches (Server.passwordHash d) s = false ->
  answer (Server.save padId (Some s) newContent) w
    = inr (Json 401 (errorBody "Incorrect password"))
  /\ after (Server.save padId (Some s) newContent) w = w
  /\ pads (after (Server.save padId (Some s) newContent) w) !! padId = Some d.
Proof.
  intros Hpad Hdiff. unfold Server.hashMatches in Hdiff.
  unfold Server.save. run. rewrite Hpad. cbn. rewrite Hdiff. cbn.
  by rewrite Hpad.
Qed.

Lemma save_wrong_secret_unchanged_witness :
  answer (Server.save (H := Demo.platform) "demo" (Some "wrong") "defaced") Demo.world
    = inr (Json 401 (errorBody "Incorrect password"))
  /\ after (Server.save (H := Demo.platform) "demo" (Some "wrong") "defaced") Demo.world
     = Demo.world
  /\ pads (after (Server.save (H := Demo.platform) "demo" (Some "wrong") "defaced") Demo.world)
       !! "demo" = Some Demo.pad.
Proof.
  apply (save_wrong_secret_unchanged (H := Demo.platform) Demo.world "demo" "wrong"
           "defaced" Demo.pad); vm_compute; reflexivity.
Defined.

(* server-old.js: the same, with bcrypt.compare deciding *)
Lemma saveOld_wrong_secret_unchanged `{Platform}
    (w : World ServerOld.PadData) (padId s newContent : string) (d : ServerOld.PadData) :
  pads w !! padId = Some d ->
  ServerOld.verifyPassword s (ServerOld.passwordHash d) = false ->
  answer (ServerOld.save padId (Some s) newContent) w
    = inr (Json 401 (errorBody "Incorrect password"))
  /\ after (ServerOld.save padId (Some s) newContent) w = w.
Proof.
  intros Hpad Hdiff.
  unfold ServerOld.save, ServerOld.padExists, ServerOld.verifyPasswordOf.
  run. rewrite Hpad. cbn. rewrite Hpad. by rewrite Hdiff.
Qed.

(* a save request without a password never reaches the comparison: hashing
   undefined throws and the catch block answers 500 *)
Lemma save_without_password `{Platform}
    (w : World Server.PadData) (padId newContent : string) (d : Server.PadData) :
  pads w !! padId = Some d ->
  answer (Server.save padId None newContent) w = inr (Json 500 (errorBody "Failed to save"))
  /\ pads (after (Server.save padId None newContent) w) = pads w.
Proof.
  intros Hpad. unfold Server.save, Server.hashPasswordOf. run. by rewrite Hpad.
Qed.

(* no save that is refused, for whatever reason, writes a pad file *)
Lemma save_refused_writes_nothing `{Platform}
    (w : World Server.PadData) (padId newContent : string) (password : option string) :
  answer (Server.save padId password newContent) w
    <> inr (Json 200 (JObj [("success", JBool true)])) ->
  pads (after (Server.save padId password newContent) w) = pads w.
Proof.
  unfold Server.save, Server.hashPasswordOf. run.
  destruct (pads w !! padId) as [d|]; cbn; [|done].
  destruct password as [s|]; cbn; [|done].
  destruct (String.eqb (Server.passwordHash d) (Server.hashPassword s)); cbn; [|done].
  intros Hne. by destruct Hne.
Qed.

(** ** Downloading an attachment that has expired *)

(** C2 - server.js, a download with the right secret of an expired
    attachment: the pad "demo" holds the attachment "aa01", expired at the
    time of the request; the download is answered 410 "File expired", and
    the failed read purges nothing: afterwards the metadata entry is still
    listed by the get route and the payload is still on disk. *)
Lemma download_expired_purges_nothing :
  let request := Server.download (H := Demo.platform) "demo" "aa01" (Some "abcd") in
  (expiresAt Demo.report < clock Demo.world (ticks Demo.world))%Z
  /\ answer request Demo.world = inr (Json 410 (errorBody "File expired"))
  /\ ~ (forall d, pads (after request Demo.world) !! "demo" = Some d ->
        ~ listed "aa01" (Server.files d))
  /\ stored "aa01" (uploads (after request Demo.world) !! "demo")
  /\ answer (Server.get (H := Demo.platform) "demo" (Some "abcd")) (after request Demo.world)
     = inr (Json 200 (JObj [("content", JStr "hello world");
                            ("files", JArr [fileInfoJson Demo.report;
                                            fileInfoJson Demo.photo])])).
Proof.
  cbv zeta. split; [vm_compute; reflexivity|].
  split; [vm_compute; reflexivity|].
  split.
  { intros Hgone. apply (Hgone Demo.pad); [vm_compute; reflexivity|].
    exists Demo.report. vm_compute. reflexivity. }
  split.
  { exists [("aa01.pdf", Demo.pdfBytes); ("bb02.png", Demo.pdfBytes)], "aa01.pdf".
    split; vm_compute; reflexivity. }
  vm_compute. reflexivity.
Qed.

(* so it is for every pad of server.js: the download with the right secret
   of a listed attachment whose expiry timestamp is before the clock reading
   of the request is answered 410 "File expired" (not the 404 of an unknown
   attachment) and removes nothing: pad files and upload directories are as
   before and the entry is still listed *)
Theorem download_expired_answers_410 `{Platform}
    (w : World Server.PadData) (padId fileId s : string)
    (d : Server.PadData) (f : FileInfo) :
  pads w !! padId = Some d ->
  Server.hashMatches (Server.passwordHash d) s = true ->
  List.find (fun f => String.eqb (id f) fileId) (Server.files d) = Some f ->
  (expiresAt f < clock w (ticks w))%Z ->
  answer (Server.download padId fileId (Some s)) w = inr (Json 410 (errorBody "File expired"))
  /\ pads (after (Server.download padId fileId (Some s)) w) = pads w
  /\ uploads (after (Server.download padId fileId (Some s)) w) = uploads w
  /\ (forall d', pads (after (Server.download padId fileId (Some s)) w) !! padId = Some d' ->
      listed fileId (Server.files d')).
Proof.
  intros Hpad Hsecret Hfind Hexpired. unfold Server.hashMatches in Hsecret.
  unfold Server.download. run. rewrite Hpad. cbn. rewrite Hsecret. cbn.
  rewrite Hfind. cbn. apply Z.ltb_lt in Hexpired. rewrite Hexpired. cbn.
  repeat split; try done.
  intros d' Hd'. rewrite Hpad in Hd'. injection Hd' as <-. by exists f.
Qed.

Lemma download_expired_answers_410_witness :
  answer (Server.download (H := Demo.platform) "demo" "aa01" (Some "abcd")) Demo.world
    = inr (Json 410 (errorBody "File expired"))
  /\ pads (after (Server.download (H := Demo.platform) "demo" "aa01" (Some "abcd")) Demo.world)
     = pads Demo.world.
Proof.
  destruct (download_expired_answers_410 (H := Demo.platform) Demo.world "demo" "aa01" "abcd"
              Demo.pad Demo.report) as (Hanswer & Hpads & _);
    [vm_compute; reflexivity .. | ].
  split; [exact Hanswer | exact Hpads].
Defined.

(* an identifier the pad does not list is answered 404, a different answer *)
Lemma download_unknown_answers_404 `{Platform}
    (w : World Server.PadData) (padId fileId s : string) (d : Server.PadData) :
  pads w !! padId = Some d ->
  Server.hashMatches (Server.passwordHash d) s = true ->
  List.find (fun f => String.eqb (id f) fileId) (Server.files d) = None ->
  answer (Server.download padId fileId (Some s)) w = inr (Json 404 (errorBody "File not found")).
Proof.
  intros Hpad Hsecret Hfind. unfold Server.hashMatches in Hsecret.
  unfold Server.download. run. rewrite Hpad. cbn. rewrite Hsecret. cbn.
  by rewrite Hfind.
Qed.

(* server-old.js answers the expired download the same way *)
Lemma downloadOld_expired_answers_410 `{Platform}
    (w : World ServerOld.PadData) (padId fileId s : string)
    (d : ServerOld.PadData) (f : FileInfo) :
  pads w !! padId = Some d ->
  ServerOld.verifyPassword s (ServerOld.passwordHash d) = true ->
  List.find (fun f => String.eqb (id f) fileId) (ServerOld.files d) = Some f ->
  (expiresAt f < clock w (ticks w))%Z ->
  answer (ServerOld.download padId fileId (Some s)) w
    = inr (Json 410 (errorBody "File expired"))
  /\ pads (after (ServerOld.download padId fileId (Some s)) w) = pads w
  /\ uploads (after (ServerOld.download padId fileId (Some s)) w) = uploads w.
Proof.
  intros Hpad Hsecret Hfind Hexpired.
  unfold ServerOld.download, ServerOld.padExists, ServerOld.verifyPasswordOf.
  run. rewrite Hpad. cbn. rewrite Hpad. rewrite Hsecret. cbn.
  rewrite Hfind. cbn. apply Z.ltb_lt in Hexpired. by rewrite Hexpired.
Qed.

(** ** What a failed login reveals *)

(** C4, as stated, fails on the verify route of server.js: with the same
    wrong secret, the unknown identifier "ghost" is answered 404 "Pad not
    found" and the existing pad "demo" is answered 200 with success false. *)
Lemma verify_reveals_missing_pad :
  pads Demo.world !! "ghost" = None
  /\ pads Demo.world !! "demo" = Some Demo.pad
  /\ Server.hashMatches (H := Demo.platform) (Server.passwordHash Demo.pad) "wrong" = false
  /\ answer (Server.verify (H := Demo.platform) "ghost" (Some "wrong")) Demo.world
     = inr (Json 404 (JObj [("success", JBool false); ("error", JStr "Pad not found")]))
  /\ answer (Server.verify (H := Demo.platform) "demo" (Some "wrong")) Demo.world
     = inr (Json 200 (JObj [("success", JBool false)]))
  /\ answer (Server.verify (H := Demo.platform) "ghost" (Some "wrong")) Demo.world
     <> answer (Server.verify (H := Demo.platform) "demo" (Some "wrong")) Demo.world.
Proof. repeat split; try (vm_compute; reflexivity). vm_compute. discriminate. Qed.

(** C4, amended - the login route of server-old.js: the same request gets the
    same answer from a world where the pad is missing and from a world where
    the pad exists and the secret is wrong; when URL name and password are
    both present and non-empty that answer is 401 "Incorrect URL or
    password." *)
Theorem login_hides_missing_pad `{Platform}
    (w1 w2 : World ServerOld.PadData) (urlName password : option string) :
  padMissing w1 urlName ->
  secretWrong w2 urlName password ->
  answer (ServerOld.login urlName password) w1 = answer (ServerOld.login urlName password) w2
  /\ (falsy urlName = false -> falsy password = false ->
      answer (ServerOld.login urlName password) w1
        = inr (Json 401 (errorBody "Incorrect URL or password."))).
Proof.
  intros Hmissing Hwrong.
  unfold ServerOld.login, ServerOld.padExists, ServerOld.verifyPasswordOf. run.
  destruct urlName as [url|]; cbn; [|split; [done|discriminate]].
  destruct (String.eqb url "") eqn:Hurl; cbn; [split; [done|discriminate]|].
  destruct password as [pw|]; cbn; [|split; [done|discriminate]].
  destruct (String.eqb pw "") eqn:Hpw; cbn; [split; [done|discriminate]|].
  rewrite (Hmissing url eq_refl). cbn.
  destruct (Hwrong url eq_refl) as (d & Hpad & Hverify).
  rewrite Hpad. cbn. rewrite Hpad. rewrite (Hverify pw eq_refl). done.
Qed.

Lemma login_hides_missing_pad_witness :
  answer (ServerOld.login (H := Demo.platform) (Some "demo") (Some "wrong")) Demo.blankOld
  = answer (ServerOld.login (H := Demo.platform) (Some "demo") (Some "wrong")) Demo.worldOld.
Proof.
  refine (proj1 (login_hides_missing_pad (H := Demo.platform) Demo.blankOld
                   Demo.worldOld (Some "demo") (Some "wrong") _ _)).
  - intros url [= <-]. vm_compute. reflexivity.
  - intros url [= <-]. exists Demo.padOld. split; [vm_compute; reflexivity|].
    intros s [= <-]. vm_compute. reflexivity.
Defined.

(** ** The expiry timestamp of an upload *)

Lemma fileInfoJson_inj (f g : FileInfo) : fileInfoJson f = fileInfoJson g -> f = g.
Proof.
  destruct f, g. unfold fileInfoJson. cbn. intros Heq.
  injection Heq as -> -> Hsize -> ->. apply Nat2Z.inj in Hsize. by subst.
Qed.

Lemma uploaded_file_inj (f g : FileInfo) : uploaded f = uploaded g -> f = g.
Proof.
  unfold uploaded. intros Heq. apply fileInfoJson_inj. congruence.
Qed.

(* what a successful upload to server.js has done *)
Lemma upload_success_inv `{Platform}
    (w : World Server.PadData) (padId : string) (password : option string)
    (part : option Upload) (f : FileInfo) :
  answer (Server.upload padId password part) w = uploaded f ->
  exists file d,
    part = Some file
    /\ pads w !! padId = Some d
    /\ validateMime (buffer file) (originalname file) = true
    /\ f = mkFileInfo (entropy w (draws w)) (originalname file) (length (buffer file))
             (clock w (ticks w)) (clock w (S (ticks w)) + LIFETIME_MS)%Z
    /\ pads (after (Server.upload padId password part) w) !! padId
       = Some (Server.set_files (Server.files d ++ [f]) d).
Proof.
  unfold Server.upload, multerSingle.
  destruct part as [file|]; [|unfold Server.uploadHandler; run; discriminate].
  destruct (negb (fileFilter file)); [run; discriminate|].
  destruct (MAX_FILE_SIZE <? Z.of_nat (length (buffer file)))%Z; [run; discriminate|].
  unfold Server.uploadHandler, Server.hashPasswordOf, makeFileInfo. run.
  destruct (pads w !! padId) as [d|] eqn:Hpad; cbn; [|discriminate].
  destruct password as [s|]; cbn; [|discriminate].
  destruct (String.eqb (Server.passwordHash d) (Server.hashPassword s)); cbn; [|discriminate].
  destruct (validateMime (buffer file) (originalname file)) eqn:Hmime; cbn; [|discriminate].
  destruct (uploads w !! padId) as [dir|] eqn:Hdir; cbn.
  - rewrite Hdir. cbn. intros Heq. apply uploaded_file_inj in Heq. subst f.
    exists file, d. repeat split; try done. apply lookup_insert_eq.
  - rewrite lookup_insert_eq. cbn. intros Heq. apply uploaded_file_inj in Heq. subst f.
    exists file, d. repeat split; try done. apply lookup_insert_eq.
Qed.

(** C3, as stated, fails on server.js: the upload route reads the clock once
    for uploadedAt and once more for expiresAt; when a millisecond passes in
    between, a successful upload returns and stores metadata whose expiry is
    not the upload timestamp plus 24 hours. *)
Lemma upload_expiry_not_exact :
  let request := Server.upload (H := Demo.platform) "demo" (Some "abcd")
                   (Some (mkUpload "report.pdf" Demo.pdfBytes)) in
  let f := mkFileInfo "0f1e2d3c4b5a69788796a5b4c3d2e1f0" "report.pdf" 9
             100000000 (100000001 + LIFETIME_MS) in
  answer request Demo.world = uploaded f
  /\ pads (after request Demo.world) !! "demo"
     = Some (Server.set_files [Demo.report; Demo.photo; f] Demo.pad)
  /\ expiresAt f <> (uploadedAt f + LIFETIME_MS)%Z.
Proof.
  cbv zeta. split; [vm_compute; reflexivity|].
  split; [vm_compute; reflexivity|]. vm_compute. discriminate.
Qed.

(** C3, amended - server.js, for every successful upload: the metadata
    returned is the metadata stored; its uploadedAt is the clock reading taken
    when the metadata is built and its expiresAt is the next clock reading
    plus 24 hours.  Hence expiresAt = uploadedAt + 24h exactly whenever the
    two readings coincide, and expiresAt >= uploadedAt + 24h whenever the
    clock does not run backwards between them. *)
Theorem upload_expiry_is_next_reading_plus_lifetime `{Platform}
    (w : World Server.PadData) (padId : string) (password : option string)
    (part : option Upload) (f : FileInfo) :
  answer (Server.upload padId password part) w = uploaded f ->
  uploadedAt f = clock w (ticks w)
  /\ expiresAt f = (clock w (S (ticks w)) + LIFETIME_MS)%Z
  /\ LIFETIME_MS = 86400000%Z
  /\ (exists d, pads (after (Server.upload padId password part) w) !! padId = Some d
                /\ List.last (Server.files d) f = f
                /\ In f (Server.files d))
  /\ (clock w (S (ticks w)) = clock w (ticks w) ->
      expiresAt f = (uploadedAt f + LIFETIME_MS)%Z)
  /\ ((clock w (ticks w) <= clock w (S (ticks w)))%Z ->
      (uploadedAt f + LIFETIME_MS <= expiresAt f)%Z).
Proof.
  intros Hok.
  destruct (upload_success_inv w padId password part f Hok)
    as (file & d & _ & _ & _ & Hf & Hstored).
  assert (Hup : uploadedAt f = clock w (ticks w)) by (by subst f).
  assert (Hexp : expiresAt f = (clock w (S (ticks w)) + LIFETIME_MS)%Z) by (by subst f).
  split; [exact Hup|]. split; [exact Hexp|]. split; [reflexivity|].
  split.
  { eexists. split; [exact Hstored|]. cbn. split.
    - apply last_last.
    - apply in_or_app. right. by left. }
  split; intros Hclock; rewrite Hup, Hexp; [by rewrite Hclock | lia].
Qed.

Lemma upload_expiry_is_next_reading_plus_lifetime_witness :
  let f := mkFileInfo "0f1e2d3c4b5a69788796a5b4c3d2e1f0" "report.pdf" 9
             100000000 (100000001 + LIFETIME_MS) in
  uploadedAt f = 100000000%Z /\ expiresAt f = (100000001 + LIFETIME_MS)%Z.
Proof.
  cbv zeta.
  destruct (upload_expiry_is_next_reading_plus_lifetime (H := Demo.platform) Demo.world
              "demo" (Some "abcd") (Some (mkUpload "report.pdf" Demo.pdfBytes))
              (mkFileInfo "0f1e2d3c4b5a69788796a5b4c3d2e1f0" "report.pdf" 9
                 100000000 (100000001 + LIFETIME_MS)))
    as (Hup & Hexp & _); [vm_compute; reflexivity|].
  split; [exact Hup | exact Hexp].
Defined.

(* server-old.js builds the metadata with the same two readings *)
Lemma uploadOld_expiry_two_readings `{Platform}
    (w : World ServerOld.PadData) (padId s : string) (file : Upload)
    (d : ServerOld.PadData) :
  pads w !! padId = Some d ->
  ServerOld.verifyPassword s (ServerOld.passwordHash d) = true ->
  validateMime (buffer file) (originalname file) = true ->
  answer (ServerOld.uploadHandler padId (Some s) (Some file)) w
  = uploaded (mkFileInfo (entropy w (draws w)) (originalname file) (length (buffer file))
                (clock w (ticks w)) (clock w (S (ticks w)) + LIFETIME_MS)%Z).
Proof.
  intros Hpad Hsecret Hmime.
  unfold ServerOld.uploadHandler, ServerOld.padExists, ServerOld.verifyPasswordOf,
    makeFileInfo, uploaded.
  run. rewrite Hpad. cbn. rewrite Hpad, Hsecret, Hmime. cbn.
  destruct (uploads w !! padId) as [dir|] eqn:Hdir; cbn.
  - by rewrite Hdir.
  - by rewrite lookup_insert_eq.
Qed.

(** ** Magic-number validation of uploads *)

Lemma unhex_hexDigits (b : byte) :
  Byte.of_N (16 * unhex (hexDigit (Byte.to_N b / 16))
             + unhex (hexDigit (Byte.to_N b mod 16))) = Some b.
Proof. destruct b; vm_compute; reflexivity. Qed.

Lemma hexDigits_inj (a b : byte) :
  hexDigit (Byte.to_N a / 16) = hexDigit (Byte.to_N b / 16) ->
  hexDigit (Byte.to_N a mod 16) = hexDigit (Byte.to_N b mod 16) ->
  a = b.
Proof.
  intros Hhi Hlo. pose proof (unhex_hexDigits a) as Ha.
  rewrite Hhi, Hlo, unhex_hexDigits in Ha. congruence.
Qed.

Lemma prefix_String (a b : ascii) (s t : string) :
  String.prefix (String a s) (String b t) = Ascii.eqb a b && String.prefix s t.
Proof.
  change (String.prefix (String a s) (String b t))
    with (if ascii_dec a b then String.prefix s t else false).
  destruct (ascii_dec a b) as [->|Hne].
  - by rewrite Ascii.eqb_refl.
  - apply Ascii.eqb_neq in Hne. by rewrite Hne.
Qed.

Lemma prefix_empty (t : string) : String.prefix "" t = true.
Proof. by destruct t. Qed.

(* comparing the hexadecimal text is comparing the bytes *)
Lemma toHex_prefix (sig buf : Buffer) :
  startsWith (toHex buf) (toHex sig) = bytesStartWith sig buf.
Proof.
  unfold startsWith. revert buf.
  induction sig as [|a sig IH]; intros buf; cbn [toHex bytesStartWith].
  - apply prefix_empty.
  - destruct buf as [|b buf]; cbn [toHex]; [done|].
    rewrite !prefix_String, IH.
    destruct (Byte.eqb a b) eqn:Hab.
    + apply byte_dec_bl in Hab. subst b. by rewrite !Ascii.eqb_refl.
    + apply eqb_false in Hab.
      destruct (Ascii.eqb (hexDigit (Byte.to_N a / 16)) (hexDigit (Byte.to_N b / 16)))
        eqn:Hhi; [|done].
      destruct (Ascii.eqb (hexDigit (Byte.to_N a mod 16)) (hexDigit (Byte.to_N b mod 16)))
        eqn:Hlo; [|done].
      apply Ascii.eqb_eq in Hhi, Hlo. destruct Hab. by apply hexDigits_inj.
Qed.

Lemma bytesStartWith_firstn (n : nat) (sig buf : Buffer) :
  length sig <= n -> bytesStartWith sig (firstn n buf) = bytesStartWith sig buf.
Proof.
  revert n buf. induction sig as [|a sig IH]; intros n buf Hlen; [done|].
  destruct n as [|n]; [cbn in Hlen; lia|].
  destruct buf as [|b buf]; [done|].
  cbn [firstn bytesStartWith]. rewrite IH; [done | cbn in Hlen; lia].
Qed.

Lemma header_startsWith (sig buf : Buffer) :
  length sig <= 8 ->
  startsWith (toHex (firstn 8 buf)) (toHex sig) = bytesStartWith sig buf.
Proof. intros Hlen. by rewrite toHex_prefix, bytesStartWith_firstn. Qed.

(* a payload with none of the magic numbers fails validateMime under every
   file name *)
Lemma validateMime_needs_magic `{Platform} (buf : Buffer) (filename : string) :
  leadingBytesMatch buf = false -> validateMime buf filename = false.
Proof.
  unfold leadingBytesMatch, MAGIC_NUMBERS. cbn [existsb].
  rewrite !orb_false_iff. intros (Hpdf & Hjpg & Hpng & Hzip & Hzip' & _).
  unfold validateMime.
  destruct (Nat.ltb (length buf) 8); [done|].
  change "25504446" with (toHex [x25; x50; x44; x46]%byte).
  change "ffd8ff" with (toHex [xff; xd8; xff]%byte).
  change "89504e47" with (toHex [x89; x50; x4e; x47]%byte).
  change "504b0304" with (toHex [x50; x4b; x03; x04]%byte).
  change "504b0506" with (toHex [x50; x4b; x05; x06]%byte).
  rewrite !header_startsWith by (cbn; lia).
  rewrite Hpdf, Hjpg, Hpng, Hzip, Hzip'.
  by repeat match goal with |- context [if ?c then _ else _] => destruct c end.
Qed.

(* conversely a payload that passes carries one of the magic numbers *)
Lemma validateMime_has_magic `{Platform} (buf : Buffer) (filename : string) :
  validateMime buf filename = true -> leadingBytesMatch buf = true.
Proof.
  intros Hok. destruct (leadingBytesMatch buf) eqn:Hmagic; [done|].
  by rewrite (validateMime_needs_magic buf filename Hmagic) in Hok.
Qed.

(** C6 - server.js, upload of a payload whose leading bytes are none of the
    magic numbers, under any file name, pad and secret: the request is never
    answered as a success and writes nothing, neither pad file nor payload;
    when it reaches the handler with the right secret (extension on the
    allow-list, size within the limit) the answer is 400 "Invalid or corrupted
    file"; an extension off the allow-list is refused by the multer filter
    with "Invalid file type". *)
Theorem upload_rejects_unrecognised_bytes `{Platform}
    (w : World Server.PadData) (padId : string) (password : option string) (file : Upload) :
  leadingBytesMatch (buffer file) = false ->
  (forall f, answer (Server.upload padId password (Some file)) w <> uploaded f)
  /\ (exists r, answer (Server.upload padId password (Some file)) w = inr r
                /\ statusOf r <> Some 200%Z)
  /\ pads (after (Server.upload padId password (Some file)) w) = pads w
  /\ uploads (after (Server.upload padId password (Some file)) w) = uploads w
  /\ (forall d s,
        pads w !! padId = Some d -> password = Some s ->
        Server.hashMatches (Server.passwordHash d) s = true ->
        fileFilter file = true ->
        (Z.of_nat (length (buffer file)) <= MAX_FILE_SIZE)%Z ->
        answer (Server.upload padId password (Some file)) w
          = inr (Json 400 (errorBody "Invalid or corrupted file")))
  /\ (fileFilter file = false ->
      answer (Server.upload padId password (Some file)) w = inr (Unhandled "Invalid file type")).
Proof.
  intros Hmagic.
  pose proof (validateMime_needs_magic (buffer file) (originalname file) Hmagic) as Hmime.
  split.
  { intros f Hok. destruct (upload_success_inv w padId password (Some file) f Hok)
      as (file' & d & [= <-] & _ & Hvalid & _). congruence. }
  unfold Server.upload, multerSingle.
  destruct (fileFilter file) eqn:Hfilter; cbn [negb].
  2:{ run. repeat split; try done. eexists; split; [done|].  discriminate. }
  destruct (MAX_FILE_SIZE <? Z.of_nat (length (buffer file)))%Z eqn:Hsize.
  { run. repeat split; try done.
    - eexists; split; [done|]. discriminate.
    - intros d s _ _ _ _ Hle. apply Z.ltb_lt in Hsize. lia. }
  unfold Server.uploadHandler, Server.hashPasswordOf, Server.hashMatches. run.
  destruct (pads w !! padId) as [d|] eqn:Hpad; cbn.
  2:{ repeat split; try done. eexists; split; [done|]. discriminate. }
  destruct password as [s|]; cbn.
  2:{ repeat split; try done. eexists; split; [done|]. discriminate. }
  destruct (String.eqb (Server.passwordHash d) (Server.hashPassword s)) eqn:Hsecret; cbn.
  2:{ repeat split; try done.
      - eexists; split; [done|]. discriminate.
      - intros d' s' [= <-] [= <-]. congruence. }
  rewrite Hmime. cbn. repeat split; try done.
  eexists; split; [done|]. discriminate.
Qed.

Lemma upload_rejects_unrecognised_bytes_witness :
  answer (Server.upload (H := Demo.platform) "demo" (Some "abcd")
            (Some (mkUpload "notes.pdf" Demo.textBytes))) Demo.world
    = inr (Json 400 (errorBody "Invalid or corrupted file"))
  /\ uploads (after (Server.upload (H := Demo.platform) "demo" (Some "abcd")
                       (Some (mkUpload "notes.pdf" Demo.textBytes))) Demo.world)
     = uploads Demo.world.
Proof.
  destruct (upload_rejects_unrecognised_bytes (H := Demo.platform) Demo.world "demo"
              (Some "abcd") (mkUpload "notes.pdf" Demo.textBytes))
    as (_ & _ & _ & Huploads & Hanswer & _); [vm_compute; reflexivity|].
  split; [|exact Huploads].
  apply (Hanswer Demo.pad "abcd"); try (vm_compute; reflexivity).
  vm_compute. discriminate.
Defined.

(** ** Digest and verification *)

(** C9 - the digest of a secret verifies that secret, and no secret with
    another digest.  server.js: against a pad that stores hashPassword(s2),
    the comparison of the verify route answers success for s2, and no
    success for a different secret s1 unless the two digests collide.
    server-old.js: whatever salt hashPassword draws for s2, verifyPassword
    accepts s2 against the digest and refuses a different secret s1 unless
    s1 hashes to the same digest under that salt; the get route, which calls
    verifyPassword on the stored digest, opens the pad for s2 and answers 401
    for such an s1. *)
Theorem digest_verifies_own_secret_only `{Platform} (s1 s2 : string) :
  (forall (w : World Server.PadData) (padId : string) (d : Server.PadData),
     pads w !! padId = Some d ->
     Server.passwordHash d = Server.hashPassword s2 ->
     answer (Server.verify padId (Some s2)) w
       = inr (Json 200 (JObj [("success", JBool true)]))
     /\ (s1 <> s2 ->
         Server.hashPassword s1 <> Server.hashPassword s2 ->
         answer (Server.verify padId (Some s1)) w
           = inr (Json 200 (JObj [("success", JBool false)]))))
  /\ (forall (w0 : World ServerOld.PadData),
        exists digest,
          answer (ServerOld.hashPassword s2) w0 = inr digest
          /\ ServerOld.verifyPassword s2 digest = true
          /\ (s1 <> s2 ->
              bcrypt_hash (entropy w0 (draws w0)) s1 <> digest ->
              ServerOld.verifyPassword s1 digest = false)
          /\ (forall (w : World ServerOld.PadData) (padId : string)
                     (d : ServerOld.PadData),
                pads w !! padId = Some d ->
                ServerOld.passwordHash d = digest ->
                answer (ServerOld.get padId (Some s2)) w
                  = inr (Json 200 (JObj [("content", JStr (ServerOld.content d));
                                         ("files",
                                          JArr (map fileInfoJson (ServerOld.files d)))]))
                /\ (s1 <> s2 ->
                    bcrypt_hash (entropy w0 (draws w0)) s1 <> digest ->
                    answer (ServerOld.get padId (Some s1)) w
                      = inr (Json 401 (errorBody "Incorrect password"))))).
Proof.
  split.
  - intros w padId d Hpad Hdigest. unfold Server.verify, Server.hashPasswordOf. run.
    rewrite Hpad. cbn. rewrite Hdigest. split.
    + by rewrite String.eqb_refl.
    + intros _ Hdistinct.
      assert (Hne : String.eqb (Server.hashPassword s2) (Server.hashPassword s1) = false)
        by (apply String.eqb_neq; congruence).
      by rewrite Hne.
  - intros w0. exists (bcrypt_hash (entropy w0 (draws w0)) s2).
    assert (Hown : ServerOld.verifyPassword s2 (bcrypt_hash (entropy w0 (draws w0)) s2)
                   = true).
    { unfold ServerOld.verifyPassword. rewrite bcrypt_compare_hash.
      by apply bool_decide_eq_true_2. }
    assert (Hother : bcrypt_hash (entropy w0 (draws w0)) s1
                     <> bcrypt_hash (entropy w0 (draws w0)) s2 ->
                     ServerOld.verifyPassword s1 (bcrypt_hash (entropy w0 (draws w0)) s2)
                     = false).
    { intros Hne. unfold ServerOld.verifyPassword. rewrite bcrypt_compare_hash.
      by apply bool_decide_eq_false_2. }
    split_ands.
    + unfold ServerOld.hashPassword. by run.
    + exact Hown.
    + intros _. exact Hother.
    + intros w padId d Hpad Hdigest.
      unfold ServerOld.get, ServerOld.padExists, ServerOld.verifyPasswordOf. run.
      rewrite Hpad. cbn. rewrite Hpad, Hdigest. split.
      * by rewrite Hown.
      * intros _ Hne. by rewrite (Hother Hne).
Qed.

Lemma digest_verifies_own_secret_only_witness :
  answer (Server.verify (H := Demo.platform) "demo" (Some "abcd")) Demo.world
    = inr (Json 200 (JObj [("success", JBool true)]))
  /\ answer (Server.verify (H := Demo.platform) "demo" (Some "abce")) Demo.world
    = inr (Json 200 (JObj [("success", JBool false)])).
Proof.
  destruct (digest_verifies_own_secret_only (H := Demo.platform) "abce" "abcd")
    as [Hverify _].
  destruct (Hverify Demo.world "demo" Demo.pad) as [Hsame Hother];
    [vm_compute; reflexivity ..|].
  split; [exact Hsame|].
  apply Hother; vm_compute; discriminate.
Defined.

(* the verify route of server.js answers with that comparison *)
Lemma verify_answers_comparison `{Platform}
    (w : World Server.PadData) (padId s : string) (d : Server.PadData) :
  pads w !! padId = Some d ->
  answer (Server.verify padId (Some s)) w
    = inr (Json 200 (JObj [("success", JBool (Server.hashMatches (Server.passwordHash d) s))])).
Proof.
  intros Hpad. unfold Server.verify, Server.hashMatches. run. by rewrite Hpad.
Qed.

(* a pad created under a secret is opened by that secret *)
Lemma create_then_verify `{Platform}
    (w : World Server.PadData) (padId s : string) :
  4 <= String.length s ->
  answer (Server.verify padId (Some s)) (after (Server.create padId (Some s)) w)
    = inr (Json 200 (JObj [("success", JBool true)])).
Proof.
  intros Hlen. destruct (create_writes_fresh_record w padId s Hlen) as [_ Hpad].
  rewrite (verify_answers_comparison _ _ _ _ Hpad). cbn [Server.passwordHash].
  unfold Server.hashMatches. by rewrite String.eqb_refl.
Qed.

(* server-old.js: whatever salt bcrypt drew, the digest verifies its secret,
   and another secret only if it hashes to the same digest under that salt *)
Lemma bcrypt_digest_verifies_own_secret_only `{Platform}
    (w : World ServerOld.PadData) (s1 s2 : string) :
  exists digest,
    answer (ServerOld.hashPassword s2) w = inr digest
    /\ digest = bcrypt_hash (entropy w (draws w)) s2
    /\ (s1 = s2 -> ServerOld.verifyPassword s1 digest = true)
    /\ (bcrypt_hash (entropy w (draws w)) s1 <> digest ->
        ServerOld.verifyPassword s1 digest = false).
Proof.
  unfold ServerOld.hashPassword, ServerOld.verifyPassword. run.
  eexists. split; [reflexivity|]. split; [reflexivity|].
  rewrite bcrypt_compare_hash. split.
  - intros ->. by apply bool_decide_eq_true_2.
  - intros Hne. by apply bool_decide_eq_false_2.
Qed.

(** ** The expiration sweep of server.js *)

Lemma keepOut_nil dir : keepOut [] dir = dir.
Proof.
  unfold keepOut. induction dir as [|e dir IH]; [done|].
  cbn. f_equal. exact IH.
Qed.

Lemma removeFile_keepOut n gone dir :
  removeFile n (keepOut gone dir) = keepOut (n :: gone) dir.
Proof.
  unfold removeFile, keepOut. induction dir as [|e dir IH]; [done|].
  cbn [List.filter existsb].
  destruct (String.eqb (fst e) n) eqn:Hn; cbn [negb orb].
  - destruct (negb (existsb (String.eqb (fst e)) gone)); cbn [List.filter]; [|done].
    by rewrite Hn.
  - destruct (negb (existsb (String.eqb (fst e)) gone)); cbn [List.filter]; [|done].
    rewrite Hn. cbn. by rewrite IH.
Qed.

Lemma in_keepOut e gone dir :
  In e (keepOut gone dir) <-> In e dir /\ ~ In (fst e) gone.
Proof.
  unfold keepOut. rewrite filter_In, negb_true_iff. split; intros [Hin Hout]; split; try done.
  - intros Hgone. assert (existsb (String.eqb (fst e)) gone = true) as Hex; [|congruence].
    apply existsb_exists. exists (fst e). split; [done|]. apply String.eqb_refl.
  - destruct (existsb (String.eqb (fst e)) gone) eqn:Hex; [|done].
    apply existsb_exists in Hex as (n & Hn & Heq). apply String.eqb_eq in Heq. by subst.
Qed.

Lemma in_names_keepOut n gone dir :
  In n (map fst (keepOut gone dir)) <-> In n (map fst dir) /\ ~ In n gone.
Proof.
  rewrite !in_map_iff. split.
  - intros (e & <- & He). apply in_keepOut in He as [? ?]. eauto.
  - intros [(e & <- & He) Hout]. exists e. split; [done|]. by apply in_keepOut.
Qed.

(* the payload [find] selects is the same as long as it has not been unlinked *)
Lemma find_keepOut (p : string -> bool) n gone dir :
  List.find p (map fst dir) = Some n ->
  ~ In n gone ->
  List.find p (map fst (keepOut gone dir)) = Some n.
Proof.
  unfold keepOut. induction dir as [|e dir IH]; [done|].
  cbn [map List.find List.filter]. intros Hfind Hout.
  destruct (p (fst e)) eqn:Hp.
  - injection Hfind as <-.
    destruct (existsb (String.eqb (fst e)) gone) eqn:Hex.
    + apply existsb_exists in Hex as (m & Hm & Heq). apply String.eqb_eq in Heq. by subst.
    + cbn. by rewrite Hp.
  - destruct (negb (existsb (String.eqb (fst e)) gone)); cbn [map List.find]; [rewrite Hp|];
      by apply IH.
Qed.

Lemma find_names_in (p : string -> bool) n (names : list string) :
  List.find p names = Some n -> In n names /\ p n = true.
Proof. apply find_some. Qed.

Lemma existsb_eqb_in n (names : list string) :
  In n names -> existsb (String.eqb n) names = true.
Proof.
  intros Hin. apply existsb_exists. exists n. split; [done|]. apply String.eqb_refl.
Qed.

Lemma sameOutside_refl {P} padId (w : World P) : sameOutside padId w w.
Proof. by repeat split. Qed.

Lemma sameOutside_trans {P} padId (w1 w2 w3 : World P) :
  sameOutside padId w1 w2 -> sameOutside padId w2 w3 -> sameOutside padId w1 w3.
Proof.
  intros (? & ? & ? & ? & ? & ? & Hq) (? & ? & ? & ? & ? & ? & Hq').
  repeat split; try congruence. intros q Hne. rewrite Hq', Hq; done.
Qed.

(* one turn of `for (const file of expired)`: it never throws *)
Lemma deleteExpired_step
    (w : World Server.PadData) (padId : string) (cleaned : nat) (file : FileInfo) :
  exists cleaned' w',
    Server.deleteExpired padId cleaned file w = (inr cleaned', w')
    /\ sameOutside padId w w'
    /\ match uploads w !! padId with
       | None =>
           uploads w' !! padId = None
           /\ console w' =
              (console w ++ [LogDeleteError (id file) (ENOENT ("uploads/" +:+ padId))])%list
       | Some dir =>
           match List.find (fun f => startsWith f (id file)) (map fst dir) with
           | None => uploads w' !! padId = Some dir /\ console w' = console w
           | Some n =>
               if unlinkFails w padId n
               then uploads w' !! padId = Some dir
                    /\ console w' =
                       (console w ++
                          [LogDeleteError (id file) (EIO (payloadPath padId n))])%list
               else uploads w' !! padId = Some (removeFile n dir)
                    /\ console w' = console w
           end
       end.
Proof.
  unfold Server.deleteExpired. run.
  destruct (uploads w !! padId) as [dir|] eqn:Hdir; cbn.
  2:{ do 2 eexists. split; [reflexivity|]. cbn. rewrite Hdir. by repeat split. }
  destruct (List.find _ (map fst dir)) as [n|] eqn:Hfind; cbn.
  2:{ do 2 eexists. split; [reflexivity|]. rewrite Hdir. by repeat split. }
  destruct (unlinkFails w padId n) eqn:Hfail; cbn.
  { do 2 eexists. split; [reflexivity|]. cbn. rewrite Hdir. by repeat split. }
  rewrite Hdir. apply find_names_in in Hfind as [Hin _].
  rewrite (existsb_eqb_in _ _ Hin). cbn.
  do 2 eexists. split; [reflexivity|]. cbn. rewrite lookup_insert_eq.
  repeat split; try done. intros q Hne. cbn. by rewrite lookup_insert_ne.
Qed.

Lemma forEach_cons {P A B} (body : B -> A -> M P B) x rest acc acc' (w w' : World P) :
  body acc x w = (inr acc', w') ->
  forEach body (x :: rest) acc w = forEach body rest acc' w'.
Proof. intros Hstep. cbn [forEach]. unfold bind. by rewrite Hstep. Qed.

Lemma attempted_mono {P} (w0 : World P) padId gone gone' log extra file :
  (forall n, In n gone -> In n gone') ->
  attempted w0 padId gone log file ->
  attempted w0 padId gone' (log ++ extra) file.
Proof.
  unfold attempted. intros Hgrow Hdone.
  destruct (uploads w0 !! padId) as [dir0|].
  - intros n Hn. specialize (Hdone n Hn).
    destruct (unlinkFails w0 padId n); [apply in_or_app|]; auto.
  - apply in_or_app. auto.
Qed.

(* one turn of the loop keeps the invariant and settles its entry *)
Lemma deleteExpired_turn
    (w0 w : World Server.PadData) (padId : string) (cleaned : nat)
    (gone : list string) (file : FileInfo) :
  unlinkedSoFar w0 padId gone w ->
  exists cleaned' w' gone',
    Server.deleteExpired padId cleaned file w = (inr cleaned', w')
    /\ unlinkedSoFar w0 padId gone' w'
    /\ (forall n, In n gone -> In n gone')
    /\ (forall n, In n gone' -> In n gone \/ startsWith n (id file) = true)
    /\ (exists extra, console w' = (console w ++ extra)%list)
    /\ attempted w0 padId gone' (console w') file.
Proof.
  intros (Hsame & Hdir & Hgone).
  destruct (deleteExpired_step w padId cleaned file) as (c1 & w1 & Hstep & Hsame1 & Heffect).
  assert (Hfails : unlinkFails w = unlinkFails w0) by apply Hsame.
  pose proof (sameOutside_trans _ _ _ _ Hsame Hsame1) as Hsame01.
  rewrite Hfails, Hdir in Heffect. unfold unlinkedSoFar, attempted.
  destruct (uploads w0 !! padId) as [dir0|] eqn:Hdir0; cbn [fmap option_fmap option_map] in *.
  2:{ destruct Heffect as [Hnone Hconsole]. exists c1, w1, gone.
      split_ands; try done; [by left | by eauto |].
      rewrite Hconsole. apply in_or_app. right. by left. }
  (* the payload selected in the original listing is the one selected now,
     unless it is already unlinked *)
  assert (Hselect : forall n,
             List.find (fun x => startsWith x (id file)) (map fst dir0) = Some n ->
             In n gone
             \/ List.find (fun x => startsWith x (id file)) (map fst (keepOut gone dir0))
                = Some n).
  { intros n Hn. destruct (in_dec string_dec n gone) as [Hin|Hout]; [by left|right].
    by apply find_keepOut. }
  destruct (List.find (fun f => startsWith f (id file)) (map fst (keepOut gone dir0)))
    as [m|] eqn:Hfind.
  - destruct (unlinkFails w0 padId m) eqn:Hfail; destruct Heffect as [Hdir1 Hconsole].
    + exists c1, w1, gone. split_ands; try done; [by left | by eauto |].
      intros n Hn. destruct (Hselect n Hn) as [Hin|[= <-]].
      * by rewrite (Hgone n Hin).
      * rewrite Hfail, Hconsole. apply in_or_app. right. by left.
    + exists c1, w1, (m :: gone). rewrite removeFile_keepOut in Hdir1.
      apply find_names_in in Hfind as [_ Hprefix].
      split_ands; try done.
      * intros n [<-|Hin]; auto.
      * intros n Hin. by right.
      * intros n [<-|Hin]; auto.
      * exists []. by rewrite app_nil_r.
      * intros n Hn. destruct (Hselect n Hn) as [Hin|[= <-]].
        -- rewrite (Hgone n Hin). by right.
        -- rewrite Hfail. by left.
  - destruct Heffect as [Hdir1 Hconsole]. exists c1, w1, gone.
    split_ands; try done; [by left | exists []; by rewrite app_nil_r |].
    intros n Hn. destruct (Hselect n Hn) as [Hin|?]; [|done].
    by rewrite (Hgone n Hin).
Qed.

(* the whole deletion loop of one pad: it never throws, it unlinks only
   payloads that an expired entry selects, and each entry is settled whatever
   happened to the others *)
Lemma deleteExpired_loop
    (w0 : World Server.PadData) (padId : string) (expired : list FileInfo) :
  forall (w : World Server.PadData) (cleaned : nat) (gone : list string),
    unlinkedSoFar w0 padId gone w ->
    exists cleaned' w' gone',
      forEach (Server.deleteExpired padId) expired cleaned w = (inr cleaned', w')
      /\ unlinkedSoFar w0 padId gone' w'
      /\ (forall n, In n gone -> In n gone')
      /\ (forall n, In n gone' ->
            In n gone \/ exists f, In f expired /\ startsWith n (id f) = true)
      /\ (exists extra, console w' = (console w ++ extra)%list)
      /\ (forall f, In f expired -> attempted w0 padId gone' (console w') f).
Proof.
  induction expired as [|file rest IH]; intros w cleaned gone Hinv.
  { exists cleaned, w, gone. split_ands; try apply Hinv; try done.
    - by left.
    - exists []. by rewrite app_nil_r. }
  destruct (deleteExpired_turn w0 w padId cleaned gone file Hinv)
    as (c1 & w1 & gone1 & Hstep & Hinv1 & Hgrow1 & Honly1 & [extra1 Hlog1] & Hdone1).
  destruct (IH w1 c1 gone1 Hinv1)
    as (c2 & w2 & gone2 & Hloop & Hinv2 & Hgrow2 & Honly2 & [extra2 Hlog2] & Hdone2).
  exists c2, w2, gone2. rewrite (forEach_cons _ _ _ _ _ _ _ Hstep).
  split_ands; try apply Hinv2; try done.
  - auto.
  - intros n Hn. destruct (Honly2 n Hn) as [Hin1|(f & Hf & Hprefix)].
    + destruct (Honly1 n Hin1) as [Hin|Hprefix]; [by left|].
      right. exists file. split; [by left|done].
    + right. exists f. split; [by right|done].
  - exists (extra1 ++ extra2)%list. by rewrite Hlog2, Hlog1, app_assoc.
  - intros f [<-|Hf]; [|by apply Hdone2].
    rewrite Hlog2. exact (attempted_mono _ _ _ _ _ _ _ Hgrow2 Hdone1).
Qed.

Lemma attempted_ext {P} (w0 w1 : World P) padId gone log file :
  uploads w1 !! padId = uploads w0 !! padId ->
  unlinkFails w1 = unlinkFails w0 ->
  attempted w0 padId gone log file -> attempted w1 padId gone log file.
Proof. unfold attempted. by intros -> ->. Qed.

(* later turns of the outer loop, on other pads, do not disturb it *)
Lemma swept_later (w0 w1 w2 : World Server.PadData) padId today extra :
  pads w2 !! padId = pads w1 !! padId ->
  uploads w2 !! padId = uploads w1 !! padId ->
  console w2 = (console w1 ++ extra)%list ->
  swept w0 padId today w1 -> swept w0 padId today w2.
Proof.
  intros Hpads Huploads Hconsole (d & gone & Hd & Hd' & Hdir & Hgone & Hdone).
  exists d, gone. rewrite Hpads, Huploads, Hconsole. split_ands; try done.
  intros f Hf Hexp. apply (attempted_mono _ _ gone); auto.
Qed.

(* nor does it matter what earlier turns did to other pads *)
Lemma swept_earlier (w0 w1 w2 : World Server.PadData) padId today :
  pads w1 !! padId = pads w0 !! padId ->
  uploads w1 !! padId = uploads w0 !! padId ->
  unlinkFails w1 = unlinkFails w0 ->
  swept w1 padId today w2 -> swept w0 padId today w2.
Proof.
  intros Hpads Huploads Hfails (d & gone & Hd & Hd' & Hdir & Hgone & Hdone).
  exists d, gone. rewrite <- Hpads, <- Huploads, <- Hfails. split_ands; try done.
  intros f Hf Hexp. symmetry in Huploads, Hfails.
  apply (attempted_ext w1); auto.
Qed.

Lemma filter_expired_in today (fs : list FileInfo) f :
  In f (List.filter (fun f => (expiresAt f <? today)%Z) fs) <-> In f fs /\ expiredAt today f.
Proof. unfold expiredAt. by rewrite filter_In, Z.ltb_lt. Qed.

(* one turn of `for (const padFile of padFiles)` *)
Lemma cleanupPad_sweeps
    (w : World Server.PadData) (cleaned : nat) (padId : string) :
  is_Some (pads w !! padId) ->
  exists cleaned' w',
    Server.cleanupPad cleaned padId w = (inr cleaned', w')
    /\ swept w padId (clock w (ticks w)) w'
    /\ clock w' = clock w /\ ticks w' = S (ticks w)
    /\ unlinkFails w' = unlinkFails w
    /\ (forall q, q <> padId ->
          pads w' !! q = pads w !! q /\ uploads w' !! q = uploads w !! q)
    /\ (exists extra, console w' = (console w ++ extra)%list).
Proof.
  intros [d Hd]. unfold Server.cleanupPad.
  set (today := clock w (ticks w)).
  set (expired := List.filter (fun f => (expiresAt f <? today)%Z) (Server.files d)).
  assert (Hstart : unlinkedSoFar (with_tick w) padId [] (with_tick w)).
  { split; [apply sameOutside_refl|]. split; [|done]. cbn.
    destruct (uploads w !! padId); cbn; [by rewrite keepOut_nil|done]. }
  destruct (deleteExpired_loop (with_tick w) padId expired (with_tick w) cleaned [] Hstart)
    as (c1 & w1 & gone & Hloop & (Hsame & Hdir & Hgone) & _ & Honly & [extra Hlog] & Hdone).
  destruct Hsame as (Hpads1 & Hclock1 & Hticks1 & _ & _ & Hfails1 & Hothers1).
  exists c1, (with_pads (insert padId (Server.set_files (liveAt today (Server.files d)) d)) w1).
  split.
  { unfold bind at 1. unfold readPad. rewrite Hd.
    unfold bind at 1. unfold now. fold today. cbv zeta. fold expired.
    unfold bind at 1. rewrite Hloop. unfold bind, writePad, ret. reflexivity. }
  split.
  { exists d, gone. cbn. split_ands; try done.
    - apply lookup_insert_eq.
    - intros n Hn. split; [by apply Hgone|].
      destruct (Honly n Hn) as [[]|(f & Hf & Hprefix)].
      apply filter_expired_in in Hf as [Hf Hexp]. eauto.
    - intros f Hf Hexp. apply (Hdone f). by apply filter_expired_in. }
  cbn. split_ands; try done.
  - intros q Hne. split.
    + rewrite lookup_insert_ne by done. by rewrite Hpads1.
    + by apply Hothers1.
  - by exists extra.
Qed.

(* the outer loop over the pad files: every pad of the list is swept, each at
   its own reading of the clock, and no turn throws *)
Lemma cleanupPads_sweep (padIds : list string) :
  forall (w : World Server.PadData) (cleaned : nat),
    NoDup padIds ->
    (forall p, In p padIds -> is_Some (pads w !! p)) ->
    exists cleaned' w',
      forEach Server.cleanupPad padIds cleaned w = (inr cleaned', w')
      /\ clock w' = clock w /\ ticks w' = ticks w + length padIds
      /\ unlinkFails w' = unlinkFails w
      /\ (forall q, ~ In q padIds ->
            pads w' !! q = pads w !! q /\ uploads w' !! q = uploads w !! q)
      /\ (exists extra, console w' = (console w ++ extra)%list)
      /\ (forall p, In p padIds ->
            exists k, ticks w <= k < ticks w + length padIds
                      /\ swept w p (clock w k) w').
Proof.
  induction padIds as [|p rest IH]; intros w cleaned Hnodup Hpads.
  { exists cleaned, w. cbn. split_ands; try done; try lia.
    exists []. by rewrite app_nil_r. }
  apply NoDup_cons in Hnodup as [Hfresh Hnodup]. rewrite list_elem_of_In in Hfresh.
  destruct (cleanupPad_sweeps w cleaned p (Hpads p (or_introl eq_refl)))
    as (c1 & w1 & Hturn & Hswept & Hclock1 & Hticks1 & Hfails1 & Hothers1 & [extra1 Hlog1]).
  assert (Hpads1 : forall q, In q rest -> is_Some (pads w1 !! q)).
  { intros q Hq. destruct (Hothers1 q) as [-> _]; [by intros ->|]. apply Hpads. by right. }
  destruct (IH w1 c1 Hnodup Hpads1)
    as (c2 & w2 & Hloop & Hclock2 & Hticks2 & Hfails2 & Hothers2 & [extra2 Hlog2] & Hswept2).
  exists c2, w2. rewrite (forEach_cons _ _ _ _ _ _ _ Hturn).
  split_ands; try done; try congruence.
  - rewrite Hticks2, Hticks1. cbn. lia.
  - intros q Hq. destruct (Hothers2 q) as [-> ->]; [intros Hin; apply Hq; by right|].
    apply Hothers1. intros ->. apply Hq. by left.
  - exists (extra1 ++ extra2)%list. by rewrite Hlog2, Hlog1, app_assoc.
  - intros q [<-|Hq].
    + exists (ticks w). split; [cbn; lia|].
      destruct (Hothers2 p Hfresh) as [Hp Hu].
      exact (swept_later _ _ _ _ _ _ Hp Hu Hlog2 Hswept).
    + destruct (Hswept2 q Hq) as (k & Hk & Hq2).
      exists k. split; [cbn; lia|]. rewrite Hclock1 in Hq2.
      assert (Hne : q <> p) by (by intros ->).
      destruct (Hothers1 q Hne) as [Hp Hu].
      exact (swept_earlier _ _ _ _ _ Hp Hu Hfails1 Hq2).
Qed.


Lemma readdirPads_lists_pads {P} (m : gmap string P) (p : string) :
  In p (map fst (map_to_list m)) <-> is_Some (m !! p).
Proof.
  rewrite in_map_iff. split.
  - intros ([q d] & <- & Hin). apply list_elem_of_In, elem_of_map_to_list in Hin. by exists d.
  - intros [d Hd]. exists (p, d). split; [done|].
    by apply list_elem_of_In, elem_of_map_to_list.
Qed.

(* cleanupExpired as a whole: it returns normally, having swept every pad *)
Lemma cleanupExpired_sweeps (w : World Server.PadData) :
  exists cleaned extra,
    answer Server.cleanupExpired w = inr tt
    /\ console (after Server.cleanupExpired w)
       = (console w ++ LogInfo "Running cleanup..." :: extra ++ [LogCleaned cleaned])%list
    /\ clock (after Server.cleanupExpired w) = clock w
    /\ unlinkFails (after Server.cleanupExpired w) = unlinkFails w
    /\ (forall p, pads w !! p = None -> pads (after Server.cleanupExpired w) !! p = None)
    /\ (forall p, is_Some (pads w !! p) ->
          exists k, ticks w <= k < ticks (after Server.cleanupExpired w)
                    /\ swept w p (clock w k) (after Server.cleanupExpired w)).
Proof.
  set (w0 := with_log (LogInfo "Running cleanup...") w).
  set (padIds := map fst (map_to_list (pads w0))).
  assert (Hnodup : NoDup padIds) by apply (NoDup_fst_map_to_list (pads w0)).
  assert (Hall : forall p, In p padIds -> is_Some (pads w0 !! p)).
  { intros p Hp. by apply readdirPads_lists_pads. }
  destruct (cleanupPads_sweep padIds w0 0 Hnodup Hall)
    as (c & w2 & Hloop & Hclock & Hticks & Hfails & Hothers & [extra Hlog] & Hswept).
  assert (Hrun : Server.cleanupExpired w = (inr tt, with_log (LogCleaned c) w2)).
  { unfold Server.cleanupExpired, try_catch.
    unfold bind at 1. unfold console_log. fold w0.
    unfold bind at 1. unfold readdirPads. fold padIds.
    unfold bind at 1. rewrite Hloop. reflexivity. }
  exists c, extra. unfold answer, after. rewrite Hrun. cbn [fst snd].
  split_ands; try done.
  - cbn. rewrite Hlog. cbn. by rewrite <- !app_assoc.
  - intros p Hnone. cbn. destruct (Hothers p) as [-> _]; [|done].
    intros Hin. apply Hall in Hin. cbn in Hin. rewrite Hnone in Hin. by destruct Hin.
  - intros p Hsome.
    destruct (Hswept p) as (k & Hk & Hp); [by apply readdirPads_lists_pads|].
    exists k. cbn in *. split; [lia|].
    by apply (swept_later w w2 _ p _ [LogCleaned c]).
Qed.

Lemma liveAt_in today (fs : list FileInfo) f :
  In f (liveAt today fs) <-> In f fs /\ (today <= expiresAt f)%Z.
Proof. unfold liveAt. rewrite filter_In, Z.geb_le. tauto. Qed.

(* [swept], spelled out for the upload directory of the pad *)
Lemma swept_payloads (w w' : World Server.PadData) padId today :
  swept w padId today w' ->
  exists d,
    pads w !! padId = Some d
    /\ pads w' !! padId = Some (Server.set_files (liveAt today (Server.files d)) d)
    /\ (uploads w !! padId = None ->
        uploads w' !! padId = None
        /\ forall f, In f (Server.files d) -> expiredAt today f ->
             In (LogDeleteError (id f) (ENOENT ("uploads/" +:+ padId))) (console w'))
    /\ (forall dir0, uploads w !! padId = Some dir0 ->
        exists dir',
          uploads w' !! padId = Some dir'
          /\ (forall e, In e dir' -> In e dir0)
          /\ (forall e, In e dir0 ->
                (forall f, In f (Server.files d) -> expiredAt today f ->
                           startsWith (fst e) (id f) = false) ->
                In e dir')
          /\ (forall f n, In f (Server.files d) -> expiredAt today f ->
                List.find (fun x => startsWith x (id f)) (map fst dir0) = Some n ->
                if unlinkFails w padId n
                then In (LogDeleteError (id f) (EIO (payloadPath padId n))) (console w')
                     /\ In n (map fst dir')
                else ~ In n (map fst dir'))).
Proof.
  intros (d & gone & Hd & Hd' & Hdir & Hgone & Hdone).
  exists d. split; [done|]. split; [done|]. split.
  - intros Hnone. rewrite Hnone in Hdir. split; [done|].
    intros f Hf Hexp. specialize (Hdone f Hf Hexp). unfold attempted in Hdone.
    by rewrite Hnone in Hdone.
  - intros dir0 Hdir0. rewrite Hdir0 in Hdir. exists (keepOut gone dir0).
    split; [done|]. split; [|split].
    + intros e He. by apply in_keepOut in He as [? _].
    + intros e He Hfree. apply in_keepOut. split; [done|]. intros Hin.
      destruct (Hgone _ Hin) as (_ & f & Hf & Hexp & Hprefix).
      by rewrite (Hfree f Hf Hexp) in Hprefix.
    + intros f n Hf Hexp Hfind. specialize (Hdone f Hf Hexp). unfold attempted in Hdone.
      rewrite Hdir0 in Hdone. specialize (Hdone n Hfind).
      destruct (unlinkFails w padId n) eqn:Hfail.
      * split; [done|]. apply in_names_keepOut. split.
        -- by apply find_names_in in Hfind as [? _].
        -- intros Hin. destruct (Hgone _ Hin) as [Hok _]. congruence.
      * intros Hin. apply in_names_keepOut in Hin as [_ Hout]. by apply Hout.
Qed.

(** C7 - server.js, cleanupExpired: for every pad file the sweep finds, the
    record it writes back is the record it read with the attachment list
    filtered to the live entries, at the reading [today] the sweep took of the
    clock for that pad: every entry with expiresAt < today is dropped, every
    entry with expiresAt >= today is kept, in order and unchanged, and the
    other fields are untouched.  The payload selected for an expired entry is
    unlinked (when the unlink does not fail), payloads no expired entry
    selects stay, and the get route afterwards lists exactly the live
    entries. *)
Theorem sweep_persists_live_subset `{Platform}
    (w : World Server.PadData) (padId : string) (d : Server.PadData) :
  pads w !! padId = Some d ->
  exists k,
    ticks w <= k < ticks (after Server.cleanupExpired w)
    /\ let today := clock w k in
       let w' := after Server.cleanupExpired w in
       pads w' !! padId
       = Some (Server.mkPadData (Server.content d)
                 (List.filter (fun f => (expiresAt f >=? today)%Z) (Server.files d))
                 (Server.passwordHash d) (Server.createdAt d) (Server.lastModified d))
       /\ (forall f, In f (Server.files d) -> (expiresAt f < today)%Z ->
             forall d', pads w' !! padId = Some d' -> ~ In f (Server.files d'))
       /\ (forall f, In f (Server.files d) -> (today <= expiresAt f)%Z ->
             forall d', pads w' !! padId = Some d' -> In f (Server.files d'))
       /\ (forall f n dir0, In f (Server.files d) -> (expiresAt f < today)%Z ->
             uploads w !! padId = Some dir0 ->
             List.find (fun x => startsWith x (id f)) (map fst dir0) = Some n ->
             unlinkFails w padId n = false ->
             exists dir', uploads w' !! padId = Some dir' /\ ~ In n (map fst dir'))
       /\ (forall e dir0, uploads w !! padId = Some dir0 -> In e dir0 ->
             (forall f, In f (Server.files d) -> (expiresAt f < today)%Z ->
                        startsWith (fst e) (id f) = false) ->
             exists dir', uploads w' !! padId = Some dir' /\ In e dir')
       /\ (forall s, Server.hashMatches (Server.passwordHash d) s = true ->
             answer (Server.get padId (Some s)) w'
             = inr (Json 200
                      (JObj [("content", JStr (Server.content d));
                             ("files",
                              JArr (map fileInfoJson
                                      (List.filter (fun f => (expiresAt f >=? today)%Z)
                                                   (Server.files d))))]))).
Proof.
  intros Hd.
  destruct (cleanupExpired_sweeps w) as (c & extra & _ & _ & _ & _ & _ & Hall).
  destruct (Hall padId) as (k & Hk & Hswept); [by eexists|].
  exists k. split; [done|]. cbv zeta.
  destruct (swept_payloads _ _ _ _ Hswept) as (d0 & Hd0 & Hd' & _ & Hdir).
  rewrite Hd in Hd0. injection Hd0 as <-.
  split; [exact Hd'|]. split_ands.
  - intros f Hf Hexp d' Heq. rewrite Hd' in Heq. injection Heq as <-. cbn.
    intros Hin. apply liveAt_in in Hin as [_ Hlive]. lia.
  - intros f Hf Hlive d' Heq. rewrite Hd' in Heq. injection Heq as <-. cbn.
    by apply liveAt_in.
  - intros f n dir0 Hf Hexp Hdir0 Hfind Hok.
    destruct (Hdir dir0 Hdir0) as (dir' & Hdir' & _ & _ & Hsel).
    specialize (Hsel f n Hf Hexp Hfind). rewrite Hok in Hsel. eauto.
  - intros e dir0 Hdir0 He Hfree.
    destruct (Hdir dir0 Hdir0) as (dir' & Hdir' & _ & Hkeep & _). eauto.
  - intros s Hs. unfold Server.hashMatches in Hs.
    unfold Server.get. run. rewrite Hd'. cbn. by rewrite Hs.
Qed.

Lemma sweep_persists_live_subset_witness :
  exists k,
    pads (after Server.cleanupExpired Demo.world) !! "demo"
    = Some (Server.mkPadData "hello world"
              (List.filter (fun f => (expiresAt f >=? clock Demo.world k)%Z)
                           [Demo.report; Demo.photo])
              (Demo.digest "abcd") 500 900).
Proof.
  destruct (sweep_persists_live_subset (H := Demo.platform) Demo.world "demo" Demo.pad)
    as (k & _ & Hpad & _); [vm_compute; reflexivity|].
  exists k. exact Hpad.
Defined.

(** C8 - server.js, cleanupExpired, whatever deletions fail (a missing upload
    directory, an unlink that throws): the sweep returns normally and reaches
    its closing log line; every pad is still written back with its live
    entries only; and every expired entry of every pad is still dealt with:
    its failure is on the console (and, for a failed unlink, the payload is
    left in place), or the payload it selects is gone. *)
Theorem sweep_survives_failed_deletions `{Platform}
    (w : World Server.PadData) (padId : string) (d : Server.PadData) :
  pads w !! padId = Some d ->
  let w' := after Server.cleanupExpired w in
  answer Server.cleanupExpired w = inr tt
  /\ (exists cleaned, List.last (console w') (LogInfo "") = LogCleaned cleaned)
  /\ exists k,
       ticks w <= k < ticks w'
       /\ let today := clock w k in
          pads w' !! padId
          = Some (Server.set_files
                    (List.filter (fun f => (expiresAt f >=? today)%Z) (Server.files d)) d)
          /\ forall f, In f (Server.files d) -> (expiresAt f < today)%Z ->
               (uploads w !! padId = None ->
                In (LogDeleteError (id f) (ENOENT ("uploads/" +:+ padId))) (console w'))
               /\ (forall dir0 n,
                     uploads w !! padId = Some dir0 ->
                     List.find (fun x => startsWith x (id f)) (map fst dir0) = Some n ->
                     exists dir',
                       uploads w' !! padId = Some dir'
                       /\ if unlinkFails w padId n
                          then In (LogDeleteError (id f) (EIO (payloadPath padId n)))
                                  (console w')
                               /\ In n (map fst dir')
                          else ~ In n (map fst dir')).
Proof.
  intros Hd. cbv zeta.
  destruct (cleanupExpired_sweeps w) as (c & extra & Hanswer & Hlog & _ & _ & _ & Hall).
  split; [exact Hanswer|]. split.
  { exists c. rewrite Hlog.
    change (LogInfo "Running cleanup..." :: extra ++ [LogCleaned c])%list
      with ((LogInfo "Running cleanup..." :: extra) ++ [LogCleaned c])%list.
    rewrite app_assoc. apply last_last. }
  destruct (Hall padId) as (k & Hk & Hswept); [by eexists|].
  exists k. split; [done|].
  destruct (swept_payloads _ _ _ _ Hswept) as (d0 & Hd0 & Hd' & Hnone & Hdir).
  rewrite Hd in Hd0. injection Hd0 as <-.
  split; [exact Hd'|]. intros f Hf Hexp. split.
  - intros Hmissing. by apply (Hnone Hmissing).
  - intros dir0 n Hdir0 Hfind.
    destruct (Hdir dir0 Hdir0) as (dir' & Hdir' & _ & _ & Hsel).
    exists dir'. split; [done|]. by apply Hsel.
Qed.

Lemma sweep_survives_failed_deletions_witness :
  answer Server.cleanupExpired Demo.worldFaulty = inr tt
  /\ exists cleaned,
       List.last (console (after Server.cleanupExpired Demo.worldFaulty)) (LogInfo "")
       = LogCleaned cleaned.
Proof.
  destruct (sweep_survives_failed_deletions (H := Demo.platform) Demo.worldFaulty "demo"
              Demo.padBusy) as (Hanswer & Hclosing & _); [vm_compute; reflexivity|].
  split; [exact Hanswer | exact Hclosing].
Defined.

(* the sweep of the faulty world, run: "other" has no upload directory and
   the unlink of aa01.pdf throws; both failures are logged, the payload of
   the next expired entry is still unlinked, and both pads are written back
   with their live entries *)
Example sweep_of_faulty_world :
  let w' := after Server.cleanupExpired Demo.worldFaulty in
  answer Server.cleanupExpired Demo.worldFaulty = inr tt
  /\ console w'
     = [LogInfo "Running cleanup...";
        LogDeleteError "cc03" (ENOENT "uploads/other");
        LogDeleteError "aa01" (EIO "uploads/demo/aa01.pdf");
        LogCleaned 1]
  /\ uploads w' !! "demo"
     = Some [("aa01.pdf", Demo.pdfBytes); ("bb02.png", Demo.pdfBytes)]
  /\ pads w' !! "demo" = Some (Server.set_files [Demo.photo] Demo.padBusy)
  /\ pads w' !! "other" = Some (Server.set_files [] Demo.padLost).
Proof. cbv zeta. repeat split; vm_compute; reflexivity. Qed.

(** * Further properties of the routes *)

(** ** server.js: reading a pad *)

(** X1 - server.js, get: whatever the request, the route leaves the world as
    it was and answers with a response; it answers 200 only for an existing
    pad and a secret whose digest is the stored one, and the body is then the
    stored content and attachment list. *)
Theorem get_discloses_only_with_secret `{Platform}
    (w : World Server.PadData) (padId : string) (password : option string) :
  after (Server.get padId password) w = w
  /\ (exists r, answer (Server.get padId password) w = inr r)
  /\ (forall r,
        answer (Server.get padId password) w = inr r ->
        statusOf r = Some 200%Z ->
        exists d s,
          pads w !! padId = Some d
          /\ password = Some s
          /\ Server.hashMatches (Server.passwordHash d) s = true
          /\ r = Json 200 (JObj [("content", JStr (Server.content d));
                                 ("files", JArr (map fileInfoJson (Server.files d)))])).
Proof.
  unfold Server.get, Server.hashPasswordOf, Server.hashMatches. run.
  destruct (pads w !! padId) as [d|] eqn:Hpad; cbn;
    [|split_ands; [done|by eexists|by intros r [= <-]]].
  destruct password as [s|]; cbn;
    [|split_ands; [done|by eexists|by intros r [= <-]]].
  destruct (String.eqb (Server.passwordHash d) (Server.hashPassword s)) eqn:Hsecret; cbn;
    [|split_ands; [done|by eexists|by intros r [= <-]]].
  split_ands; [done|by eexists|].
  intros r [= <-] _. by exists d, s.
Qed.

Lemma get_discloses_only_with_secret_witness :
  after (Server.get (H := Demo.platform) "demo" (Some "guess")) Demo.world = Demo.world
  /\ exists d s,
       pads Demo.world !! "demo" = Some d
       /\ Some "abcd" = Some s
       /\ Server.hashMatches (H := Demo.platform) (Server.passwordHash d) s = true.
Proof.
  split.
  - apply (get_discloses_only_with_secret (H := Demo.platform) Demo.world "demo"
             (Some "guess")).
  - destruct (get_discloses_only_with_secret (H := Demo.platform) Demo.world "demo"
                (Some "abcd")) as (_ & _ & Honly).
    destruct (Honly (Json 200 (JObj [("content", JStr "hello world");
                                     ("files", JArr [fileInfoJson Demo.report;
                                                     fileInfoJson Demo.photo])])))
      as (d & s & Hpad & Hpw & Hsecret & _); [vm_compute; reflexivity ..|].
    by exists d, s.
Defined.

(* the other answers of get: 401 for a wrong secret, 404 for a missing pad
   and for a request without a password *)
Lemma get_refusals `{Platform}
    (w : World Server.PadData) (padId : string) :
  (forall d s, pads w !! padId = Some d ->
     Server.hashMatches (Server.passwordHash d) s = false ->
     answer (Server.get padId (Some s)) w = inr (Json 401 (errorBody "Incorrect password")))
  /\ (forall password, pads w !! padId = None ->
        answer (Server.get padId password) w = inr (Json 404 (errorBody "Pad not found")))
  /\ answer (Server.get padId None) w = inr (Json 404 (errorBody "Pad not found")).
Proof.
  unfold Server.get, Server.hashPasswordOf, Server.hashMatches. run. split_ands.
  - intros d s -> Hsecret. cbn. by rewrite Hsecret.
  - by intros password ->.
  - by destruct (pads w !! padId).
Qed.

(** ** server.js: a wrong secret on the file routes *)

(** X2 - server.js, upload and download with a secret whose digest differs
    from the stored one: both answer 401 before looking at the file, and
    neither pad files nor upload directories change, whatever the payload. *)
Theorem file_routes_refuse_wrong_secret `{Platform}
    (w : World Server.PadData) (padId fileId s : string) (d : Server.PadData)
    (file : Upload) :
  pads w !! padId = Some d ->
  Server.hashMatches (Server.passwordHash d) s = false ->
  answer (Server.uploadHandler padId (Some s) (Some file)) w
    = inr (Json 401 (errorBody "Incorrect password"))
  /\ after (Server.uploadHandler padId (Some s) (Some file)) w = w
  /\ answer (Server.download padId fileId (Some s)) w = inr (Json 401 (errorBody "Unauthorized"))
  /\ after (Server.download padId fileId (Some s)) w = w
  /\ (forall r, answer (Server.upload padId (Some s) (Some file)) w = inr r ->
        statusOf r <> Some 200%Z)
  /\ pads (after (Server.upload padId (Some s) (Some file)) w) = pads w
  /\ uploads (after (Server.upload padId (Some s) (Some file)) w) = uploads w.
Proof.
  intros Hpad Hsecret. unfold Server.hashMatches in Hsecret.
  assert (Hhandler :
    Server.uploadHandler padId (Some s) (Some file) w
    = (inr (Json 401 (errorBody "Incorrect password")), w)).
  { unfold Server.uploadHandler. run. rewrite Hpad. cbn. by rewrite Hsecret. }
  assert (Hdownload :
    Server.download padId fileId (Some s) w = (inr (Json 401 (errorBody "Unauthorized")), w)).
  { unfold Server.download. run. rewrite Hpad. cbn. by rewrite Hsecret. }
  unfold answer, after. rewrite Hhandler, Hdownload. cbn [fst snd].
  split_ands; try done; unfold Server.upload;
    destruct (multerSingle (Some file)) as [msg|[file'|]] eqn:Hmulter;
    try (unfold multerSingle in Hmulter;
         destruct (negb (fileFilter file)); [discriminate|];
         destruct (MAX_FILE_SIZE <? Z.of_nat (length (buffer file)))%Z; discriminate).
  - cbn. by intros r [= <-].
  - unfold multerSingle in Hmulter.
    destruct (negb (fileFilter file)); [discriminate|].
    destruct (MAX_FILE_SIZE <? Z.of_nat (length (buffer file)))%Z; [discriminate|].
    injection Hmulter as <-. rewrite Hhandler. cbn. by intros r [= <-].
  - done.
  - unfold multerSingle in Hmulter.
    destruct (negb (fileFilter file)); [discriminate|].
    destruct (MAX_FILE_SIZE <? Z.of_nat (length (buffer file)))%Z; [discriminate|].
    injection Hmulter as <-. by rewrite Hhandler.
  - done.
  - unfold multerSingle in Hmulter.
    destruct (negb (fileFilter file)); [discriminate|].
    destruct (MAX_FILE_SIZE <? Z.of_nat (length (buffer file)))%Z; [discriminate|].
    injection Hmulter as <-. by rewrite Hhandler.
Qed.

Lemma file_routes_refuse_wrong_secret_witness :
  answer (Server.download (H := Demo.platform) "demo" "bb02" (Some "guess")) Demo.world
    = inr (Json 401 (errorBody "Unauthorized"))
  /\ uploads (after (Server.upload (H := Demo.platform) "demo" (Some "guess")
                       (Some (mkUpload "report.pdf" Demo.pdfBytes))) Demo.world)
     = uploads Demo.world.
Proof.
  destruct (file_routes_refuse_wrong_secret (H := Demo.platform) Demo.world "demo" "bb02"
              "guess" Demo.pad (mkUpload "report.pdf" Demo.pdfBytes))
    as (_ & _ & Hdownload & _ & _ & _ & Huploads); [vm_compute; reflexivity ..|].
  split; [exact Hdownload | exact Huploads].
Defined.

(** ** server.js: saving *)

(** X3 - server.js, save with the right secret: the answer is 200, the pad
    record gets the new content and the clock reading as lastModified, its
    attachment list, credential digest and creation time stay, every other
    pad file and every upload directory is untouched. *)
Theorem save_updates_content_only `{Platform}
    (w : World Server.PadData) (padId s newContent : string) (d : Server.PadData) :
  pads w !! padId = Some d ->
  Server.hashMatches (Server.passwordHash d) s = true ->
  let w' := after (Server.save padId (Some s) newContent) w in
  answer (Server.save padId (Some s) newContent) w
    = inr (Json 200 (JObj [("success", JBool true)]))
  /\ pads w' !! padId
     = Some (Server.mkPadData newContent (Server.files d) (Server.passwordHash d)
               (Server.createdAt d) (clock w (ticks w)))
  /\ (forall q, q <> padId -> pads w' !! q = pads w !! q)
  /\ uploads w' = uploads w.
Proof.
  intros Hpad Hsecret. unfold Server.hashMatches in Hsecret. cbv zeta.
  unfold Server.save. run. rewrite Hpad. cbn. rewrite Hsecret. cbn.
  split_ands; try done.
  - apply lookup_insert_eq.
  - intros q Hne. by rewrite lookup_insert_ne.
Qed.

Lemma save_updates_content_only_witness :
  pads (after (Server.save (H := Demo.platform) "demo" (Some "abcd") "new text") Demo.world)
    !! "demo"
  = Some (Server.mkPadData "new text" [Demo.report; Demo.photo] (Demo.digest "abcd")
            500 100000000).
Proof.
  destruct (save_updates_content_only (H := Demo.platform) Demo.world "demo" "abcd" "new text"
              Demo.pad) as (_ & Hpad & _); [vm_compute; reflexivity ..|].
  exact Hpad.
Defined.

(** X4 - server.js, the create / save / get scenario: on any world and for a
    pad identifier that is a plain file name, creating a pad under a secret
    of at least four characters, saving a text with that secret and reading
    the pad back with it returns that text and an empty attachment list;
    reading it back with a secret of another digest is answered 401. *)
Theorem create_save_get_roundtrip `{Platform}
    (w : World Server.PadData) (padId s text : string) :
  isPlainName padId = true ->
  4 <= String.length s ->
  let w1 := after (Server.create padId (Some s)) w in
  let w2 := after (Server.save padId (Some s) text) w1 in
  answer (Server.save padId (Some s) text) w1 = inr (Json 200 (JObj [("success", JBool true)]))
  /\ answer (Server.get padId (Some s)) w2
     = inr (Json 200 (JObj [("content", JStr text); ("files", JArr [])]))
  /\ (forall s', Server.hashPassword s' <> Server.hashPassword s ->
        answer (Server.get padId (Some s')) w2
        = inr (Json 401 (errorBody "Incorrect password"))).
Proof.
  intros _ Hlen. cbv zeta.
  destruct (create_writes_fresh_record w padId s Hlen) as [_ Hcreated].
  assert (Hown : Server.hashMatches (Server.hashPassword s) s = true)
    by apply String.eqb_refl.
  destruct (save_updates_content_only _ padId s text _ Hcreated Hown)
    as (Hsaved & Hpad & _).
  cbn [Server.files Server.passwordHash Server.createdAt] in Hpad.
  split; [exact Hsaved|]. split.
  - unfold Server.get. run. rewrite Hpad. cbn.
    unfold Server.hashMatches in Hown. by rewrite Hown.
  - intros s' Hdistinct. destruct (get_refusals
      (after (Server.save padId (Some s) text) (after (Server.create padId (Some s)) w)) padId)
      as (Hwrong & _).
    apply (Hwrong _ s' Hpad). cbn. unfold Server.hashMatches.
    apply String.eqb_neq. congruence.
Qed.

Lemma create_save_get_roundtrip_witness :
  answer (Server.get (H := Demo.platform) "notes" (Some "abcd"))
         (after (Server.save (H := Demo.platform) "notes" (Some "abcd") "hello world")
                (after (Server.create (H := Demo.platform) "notes" (Some "abcd")) Demo.world))
  = inr (Json 200 (JObj [("content", JStr "hello world"); ("files", JArr [])])).
Proof.
  destruct (create_save_get_roundtrip (H := Demo.platform) Demo.world "notes" "abcd"
              "hello world") as (_ & Hget & _);
    [vm_compute; reflexivity|vm_compute; lia|].
  exact Hget.
Defined.

(** ** server.js: uploading and downloading *)

Lemma startsWith_append (s ext : string) : startsWith (s +:+ ext) s = true.
Proof.
  unfold startsWith. induction s as [|c s IH]; [apply prefix_empty|].
  change (String c s +:+ ext) with (String c (s +:+ ext)).
  by rewrite prefix_String, Ascii.eqb_refl, IH.
Qed.

Lemma find_last_fresh {A} (p : A -> bool) (l : list A) (x : A) :
  (forall y, In y l -> p y = false) -> p x = true ->
  List.find p (l ++ [x]) = Some x.
Proof.
  intros Hfresh Hx. induction l as [|y l IH]; cbn.
  - by rewrite Hx.
  - rewrite (Hfresh y) by (by left). apply IH. intros z Hz. apply Hfresh. by right.
Qed.

Lemma find_putFile_fresh (p : string -> bool) n buf (dir : list (string * Buffer)) :
  (forall m, In m (map fst dir) -> p m = false) -> p n = true ->
  List.find p (map fst (putFile n buf dir)) = Some n.
Proof.
  intros Hfresh Hn. induction dir as [|[m b] dir IH]; cbn [putFile map fst List.find].
  - by rewrite Hn.
  - destruct (String.eqb m n) eqn:Hmn; cbn [map fst List.find].
    + by rewrite Hn.
    + rewrite (Hfresh m) by (by left). apply IH. intros z Hz. apply Hfresh. by right.
Qed.

(* whatever validateMime accepts has an extension of the allow-list, so the
   multer filter had let it through *)
Lemma validateMime_passes_filter `{Platform} (file : Upload) :
  validateMime (buffer file) (originalname file) = true -> fileFilter file = true.
Proof.
  unfold validateMime, fileFilter. cbn [ALLOWED_TYPES map snd concat app existsb].
  destruct (Nat.ltb (length (buffer file)) 8); [discriminate|].
  destruct (String.eqb (toLowerCase (extname (originalname file))) ".pdf"); [done|].
  destruct (String.eqb (toLowerCase (extname (originalname file))) ".jpg"); [done|].
  destruct (String.eqb (toLowerCase (extname (originalname file))) ".jpeg"); [done|].
  destruct (String.eqb (toLowerCase (extname (originalname file))) ".png"); [done|].
  destruct (String.eqb (toLowerCase (extname (originalname file))) ".docx"); [done|].
  discriminate.
Qed.

(** X5 - server.js, upload with the right secret of a payload validateMime
    accepts, within the size limit: the answer carries the new metadata, whose
    id is the random draw; the pad record gets that entry appended to its
    attachment list and is otherwise unchanged; the payload is written under
    <id><extension> in the upload directory of the pad, created if missing;
    no other pad file or directory changes. *)
Theorem upload_stores_payload_and_metadata `{Platform}
    (w : World Server.PadData) (padId s : string) (d : Server.PadData) (file : Upload) :
  pads w !! padId = Some d ->
  Server.hashMatches (Server.passwordHash d) s = true ->
  validateMime (buffer file) (originalname file) = true ->
  (Z.of_nat (length (buffer file)) <= MAX_FILE_SIZE)%Z ->
  let w' := after (Server.upload padId (Some s) (Some file)) w in
  let f := mkFileInfo (entropy w (draws w)) (originalname file) (length (buffer file))
             (clock w (ticks w)) (clock w (S (ticks w)) + LIFETIME_MS)%Z in
  answer (Server.upload padId (Some s) (Some file)) w = uploaded f
  /\ pads w' !! padId
     = Some (Server.mkPadData (Server.content d) (Server.files d ++ [f])
               (Server.passwordHash d) (Server.createdAt d) (Server.lastModified d))
  /\ uploads w' !! padId
     = Some (putFile (id f +:+ extname (originalname file)) (buffer file)
               (default [] (uploads w !! padId)))
  /\ (forall q, q <> padId ->
        pads w' !! q = pads w !! q /\ uploads w' !! q = uploads w !! q)
  /\ ticks w' = ticks w + 2 /\ draws w' = S (draws w).
Proof.
  intros Hpad Hsecret Hmime Hsize. unfold Server.hashMatches in Hsecret. cbv zeta.
  unfold Server.upload, multerSingle.
  rewrite (validateMime_passes_filter file Hmime). cbn [negb].
  apply Z.ltb_ge in Hsize. rewrite Hsize.
  unfold Server.uploadHandler, makeFileInfo, uploaded. run.
  rewrite Hpad. cbn. rewrite Hsecret, Hmime. cbn.
  destruct (uploads w !! padId) as [dir|] eqn:Hdir; cbn.
  - rewrite Hdir. cbn. split_ands; try done; try lia.
    + apply lookup_insert_eq.
    + apply lookup_insert_eq.
    + intros q Hne. by rewrite !lookup_insert_ne.
  - rewrite lookup_insert_eq. cbn. split_ands; try done; try lia.
    + apply lookup_insert_eq.
    + apply lookup_insert_eq.
    + intros q Hne. by rewrite !lookup_insert_ne.
Qed.

Lemma upload_stores_payload_and_metadata_witness :
  uploads (after (Server.upload (H := Demo.platform) "demo" (Some "abcd")
                    (Some (mkUpload "scan.PDF" Demo.pdfBytes))) Demo.world) !! "demo"
  = Some [("aa01.pdf", Demo.pdfBytes); ("bb02.png", Demo.pdfBytes);
          ("0f1e2d3c4b5a69788796a5b4c3d2e1f0.PDF", Demo.pdfBytes)].
Proof.
  destruct (upload_stores_payload_and_metadata (H := Demo.platform) Demo.world "demo" "abcd"
              Demo.pad (mkUpload "scan.PDF" Demo.pdfBytes))
    as (_ & _ & Hdir & _); [vm_compute; reflexivity .. | vm_compute; discriminate |].
  exact Hdir.
Defined.

(* the download route on a listed attachment that has not expired *)
Lemma download_live `{Platform}
    (w : World Server.PadData) (padId fileId s : string) (d : Server.PadData) (f : FileInfo) :
  pads w !! padId = Some d ->
  Server.hashMatches (Server.passwordHash d) s = true ->
  List.find (fun f => String.eqb (id f) fileId) (Server.files d) = Some f ->
  (clock w (ticks w) <= expiresAt f)%Z ->
  answer (Server.download padId fileId (Some s)) w
  = match uploads w !! padId with
    | None => inr (Json 500 (errorBody "Download failed"))
    | Some dir =>
        match List.find (fun n => startsWith n fileId) (map fst dir) with
        | None => inr (Json 404 (errorBody "File not found on disk"))
        | Some fileName => inr (Download padId fileName (name f))
        end
    end.
Proof.
  intros Hpad Hsecret Hfind Hlive. unfold Server.hashMatches in Hsecret.
  unfold Server.download. run. rewrite Hpad. cbn. rewrite Hsecret. cbn.
  rewrite Hfind. cbn. apply Z.ltb_ge in Hlive. rewrite Hlive. cbn.
  destruct (uploads w !! padId) as [dir|]; cbn; [|done].
  by destruct (List.find _ (map fst dir)).
Qed.

(** X6 - server.js, upload then download: after a successful upload whose
    random id is new to the pad (no listed attachment has it, no file of the
    upload directory starts with it), a download of that id with the same
    secret, at a clock reading not past the expiry, serves the file just
    written, <id><extension>, under the original file name. *)
Theorem upload_then_download `{Platform}
    (w : World Server.PadData) (padId s : string) (d : Server.PadData) (file : Upload) :
  pads w !! padId = Some d ->
  Server.hashMatches (Server.passwordHash d) s = true ->
  validateMime (buffer file) (originalname file) = true ->
  (Z.of_nat (length (buffer file)) <= MAX_FILE_SIZE)%Z ->
  let fileId := entropy w (draws w) in
  (forall g, In g (Server.files d) -> id g <> fileId) ->
  (forall dir n, uploads w !! padId = Some dir -> In n (map fst dir) ->
                 startsWith n fileId = false) ->
  (clock w (ticks w + 2) <= clock w (S (ticks w)) + LIFETIME_MS)%Z ->
  answer (Server.download padId fileId (Some s))
         (after (Server.upload padId (Some s) (Some file)) w)
  = inr (Download padId (fileId +:+ extname (originalname file)) (originalname file)).
Proof.
  intros Hpad Hsecret Hmime Hsize fileId Hnew Hfree Hlive.
  destruct (upload_stores_payload_and_metadata w padId s d file Hpad Hsecret Hmime Hsize)
    as (_ & Hpad' & Hdir' & _ & Hticks & _).
  set (w' := after (Server.upload padId (Some s) (Some file)) w) in *.
  assert (Hclock : clock w' = clock w).
  { subst w'. unfold Server.upload.
    destruct (multerSingle (Some file)) as [msg|part]; [done|].
    unfold Server.uploadHandler, Server.hashPasswordOf, makeFileInfo. run.
    destruct part as [file'|]; cbn; [|done].
    destruct (pads w !! padId); cbn; [|done].
    destruct (negb _); cbn; [done|]. destruct (negb _); cbn; [done|].
    destruct (uploads w !! padId) as [dir|] eqn:Hd; cbn.
    - by rewrite Hd.
    - by rewrite lookup_insert_eq. }
  pose (f := mkFileInfo fileId (originalname file) (length (buffer file))
               (clock w (ticks w)) (clock w (S (ticks w)) + LIFETIME_MS)%Z).
  assert (Hfind : List.find (fun g => String.eqb (id g) fileId) (Server.files d ++ [f])
                  = Some f).
  { apply find_last_fresh.
    - intros g Hg. apply String.eqb_neq. by apply Hnew.
    - apply String.eqb_refl. }
  assert (Hnow : (clock w' (ticks w') <= expiresAt f)%Z).
  { rewrite Hclock, Hticks. exact Hlive. }
  rewrite (download_live w' padId fileId s _ f Hpad' Hsecret Hfind Hnow).
  rewrite Hdir'. cbn [id name].
  rewrite (find_putFile_fresh (fun n => startsWith n fileId)); [done| |].
  - intros m Hm. destruct (uploads w !! padId) as [dir|] eqn:Hdir; [|by destruct Hm].
    by apply (Hfree dir).
  - apply startsWith_append.
Qed.

Lemma upload_then_download_witness :
  answer (Server.download (H := Demo.platform) "demo" "0f1e2d3c4b5a69788796a5b4c3d2e1f0"
            (Some "abcd"))
         (after (Server.upload (H := Demo.platform) "demo" (Some "abcd")
                   (Some (mkUpload "scan.PDF" Demo.pdfBytes))) Demo.world)
  = inr (Download "demo" "0f1e2d3c4b5a69788796a5b4c3d2e1f0.PDF" "scan.PDF").
Proof.
  apply (upload_then_download (H := Demo.platform) Demo.world "demo" "abcd" Demo.pad
           (mkUpload "scan.PDF" Demo.pdfBytes)).
  - vm_compute; reflexivity.
  - vm_compute; reflexivity.
  - vm_compute; reflexivity.
  - vm_compute; discriminate.
  - intros g [<-|[<-|[]]]; vm_compute; discriminate.
  - intros dir n Hdir. vm_compute in Hdir. injection Hdir as <-.
    intros [<-|[<-|[]]]; vm_compute; reflexivity.
  - vm_compute; discriminate.
Defined.

(** ** validateMime, read on the bytes *)

(* the comparison of hexadecimal text in validateMime, on the bytes *)
Lemma validateMime_on_bytes `{Platform} (buf : Buffer) (filename : string) :
  validateMime buf filename
  = Nat.leb 8 (length buf)
    && existsb (fun sig => bytesStartWith sig buf)
               (signaturesOf (toLowerCase (extname filename))).
Proof.
  unfold validateMime, signaturesOf.
  destruct (Nat.ltb (length buf) 8) eqn:Hshort.
  { apply Nat.ltb_lt in Hshort. symmetry. apply andb_false_iff. left.
    apply Nat.leb_gt. lia. }
  apply Nat.ltb_ge in Hshort. apply Nat.leb_le in Hshort. rewrite Hshort. cbn [andb].
  change "25504446" with (toHex [x25; x50; x44; x46]%byte).
  change "ffd8ff" with (toHex [xff; xd8; xff]%byte).
  change "89504e47" with (toHex [x89; x50; x4e; x47]%byte).
  change "504b0304" with (toHex [x50; x4b; x03; x04]%byte).
  change "504b0506" with (toHex [x50; x4b; x05; x06]%byte).
  rewrite !header_startsWith by (cbn; lia).
  repeat match goal with
         | |- context [if ?c then _ else _] => destruct c
         end; cbn [existsb]; by rewrite ?orb_false_r.
Qed.

(** X7 - validateMime (both servers): a file is accepted exactly when it has
    at least 8 bytes and its bytes begin with a magic number of the format
    that its lower-cased extension names: %PDF for .pdf, FF D8 FF for .jpg
    and .jpeg, 89 PNG for .png, PK 03 04 or PK 05 06 for .docx.  So a payload
    shorter than 8 bytes is refused even when it starts with its magic
    number, and the bytes of one format under the extension of another are
    refused (PNG bytes named .pdf). *)
Theorem validateMime_checks_signature_of_extension `{Platform}
    (buf : Buffer) (filename : string) :
  validateMime buf filename
  = Nat.leb 8 (length buf)
    && existsb (fun sig => bytesStartWith sig buf)
               (signaturesOf (toLowerCase (extname filename)))
  /\ (length buf < 8 -> validateMime buf filename = false)
  /\ (toLowerCase (extname filename) = ".pdf" ->
      bytesStartWith [x89; x50; x4e; x47]%byte buf = true ->
      validateMime buf filename = false).
Proof.
  split; [apply validateMime_on_bytes|]. split.
  - intros Hshort. rewrite validateMime_on_bytes. apply andb_false_iff. left.
    apply Nat.leb_gt. lia.
  - intros Hext Hpng. rewrite validateMime_on_bytes, Hext.
    apply andb_false_iff. right.
    destruct buf as [|b0 rest]; [discriminate|].
    cbn [bytesStartWith] in Hpng. apply andb_true_iff in Hpng as [Hb0 _].
    apply byte_dec_bl in Hb0. subst b0. reflexivity.
Qed.

Lemma validateMime_checks_signature_of_extension_witness :
  validateMime (H := Demo.platform)
    [x89; x50; x4e; x47; x0d; x0a; x1a; x0a; x00]%byte "photo.PDF" = false
  /\ validateMime (H := Demo.platform) [x25; x50; x44; x46]%byte "tiny.pdf" = false.
Proof.
  destruct (validateMime_checks_signature_of_extension (H := Demo.platform)
              [x89; x50; x4e; x47; x0d; x0a; x1a; x0a; x00]%byte "photo.PDF")
    as (_ & _ & Hmismatch).
  destruct (validateMime_checks_signature_of_extension (H := Demo.platform)
              [x25; x50; x44; x46]%byte "tiny.pdf") as (_ & Hshort & _).
  split; [apply Hmismatch; vm_compute; reflexivity | apply Hshort; vm_compute; lia].
Defined.

(** ** Two sweeps in a row *)

Lemma liveAt_liveAt (t1 t2 : Z) (fs : list FileInfo) :
  (t1 <= t2)%Z -> liveAt t2 (liveAt t1 fs) = liveAt t2 fs.
Proof.
  intros Hle. unfold liveAt. induction fs as [|f fs IH]; [done|].
  cbn [List.filter].
  destruct (expiresAt f >=? t1)%Z eqn:H1; cbn [List.filter].
  - destruct (expiresAt f >=? t2)%Z; by rewrite IH.
  - rewrite IH. destruct (expiresAt f >=? t2)%Z eqn:H2; [|done].
    apply Z.geb_le in H2. rewrite Z.geb_leb in H1. apply Z.leb_gt in H1. lia.
Qed.

Lemma clock_monotone {P} (w : World P) (i j : nat) :
  (forall n, (clock w n <= clock w (S n))%Z) -> i <= j -> (clock w i <= clock w j)%Z.
Proof.
  intros Hmono Hij. induction Hij as [|j Hij IH]; [lia|].
  specialize (Hmono j). lia.
Qed.

(** X8 - server.js, cleanupExpired run twice on a clock that does not run
    backwards: each pad ends with the attachment list one sweep would have
    left at the reading the second sweep took for it; nothing a later sweep
    would keep is lost to the earlier one. *)
Theorem sweep_twice_is_later_sweep
    (w : World Server.PadData) (padId : string) (d : Server.PadData) :
  pads w !! padId = Some d ->
  (forall n, (clock w n <= clock w (S n))%Z) ->
  let w1 := after Server.cleanupExpired w in
  let w2 := after Server.cleanupExpired w1 in
  exists k,
    ticks w1 <= k < ticks w2
    /\ pads w2 !! padId
       = Some (Server.mkPadData (Server.content d)
                 (List.filter (fun f => (expiresAt f >=? clock w k)%Z) (Server.files d))
                 (Server.passwordHash d) (Server.createdAt d) (Server.lastModified d)).
Proof.
  intros Hd Hmono. cbv zeta.
  destruct (cleanupExpired_sweeps w) as (c1 & e1 & _ & _ & Hclock1 & _ & _ & Hall1).
  destruct (Hall1 padId) as (k1 & Hk1 & Hswept1); [by eexists|].
  destruct (swept_payloads _ _ _ _ Hswept1) as (d0 & Hd0 & Hd1 & _).
  rewrite Hd in Hd0. injection Hd0 as <-.
  destruct (cleanupExpired_sweeps (after Server.cleanupExpired w))
    as (c2 & e2 & _ & _ & _ & _ & _ & Hall2).
  destruct (Hall2 padId) as (k2 & Hk2 & Hswept2); [by eexists|].
  destruct (swept_payloads _ _ _ _ Hswept2) as (d1 & Hd1' & Hd2 & _).
  rewrite Hd1 in Hd1'. injection Hd1' as <-.
  exists k2. split; [done|]. rewrite Hd2, Hclock1. cbn [Server.files Server.set_files].
  rewrite liveAt_liveAt; [done|]. apply clock_monotone; [done|lia].
Qed.

Lemma sweep_twice_is_later_sweep_witness :
  exists k,
    pads (after Server.cleanupExpired (after Server.cleanupExpired Demo.world)) !! "demo"
    = Some (Server.mkPadData "hello world"
              (List.filter (fun f => (expiresAt f >=? clock Demo.world k)%Z)
                           [Demo.report; Demo.photo])
              (Demo.digest "abcd") 500 900).
Proof.
  destruct (sweep_twice_is_later_sweep Demo.world "demo" Demo.pad) as (k & _ & Hpad).
  - vm_compute; reflexivity.
  - intros n. unfold Demo.world, Demo.millis. cbn [clock]. lia.
  - exists k. exact Hpad.
Defined.

(** ** server.js: what no sequence of requests does *)

Lemma evolved_refl (w : World Server.PadData) d : evolved w d d.
Proof. repeat split. by left. Qed.

Lemma evolved_trans (w : World Server.PadData) d1 d2 d3 :
  evolved w d1 d2 -> evolved w d2 d3 -> evolved w d1 d3.
Proof.
  intros (Hh & Hc & Hf) (Hh' & Hc' & Hf'). repeat split; try congruence.
  intros f Hin. destruct (Hf' f Hin) as [Hin2|Hnew]; [by apply Hf | by right].
Qed.

Lemma evolved_clock (w w' : World Server.PadData) d d' :
  clock w' = clock w -> evolved w' d d' -> evolved w d d'.
Proof.
  intros Hclock (Hh & Hc & Hf). repeat split; try done.
  intros f Hin. destruct (Hf f Hin) as [?|(k & Hup & Hexp)]; [by left|right].
  exists k. by rewrite <- Hclock.
Qed.

Lemma padsEvolve_same created (w w' : World Server.PadData) :
  pads w' = pads w -> clock w' = clock w -> padsEvolve created w w'.
Proof.
  intros Hpads Hclock. split; [done|]. rewrite Hpads. split.
  - intros p d Hd. exists d. split; [done|]. intros _. apply evolved_refl.
  - intros p d' Hd'. left. exists d'. split; [done|]. apply evolved_refl.
Qed.

Lemma padsEvolve_insert created (w w' : World Server.PadData) q d d' :
  pads w !! q = Some d ->
  pads w' = <[q := d']> (pads w) ->
  clock w' = clock w ->
  evolved w d d' ->
  padsEvolve created w w'.
Proof.
  intros Hq Hpads Hclock Hev. split; [done|]. rewrite Hpads. split.
  - intros p e He. destruct (decide (q = p)) as [->|Hne].
    + rewrite lookup_insert_eq. exists d'. split; [done|]. intros _. congruence.
    + rewrite lookup_insert_ne by done. exists e. split; [done|]. intros _.
      apply evolved_refl.
  - intros p e' He'. left. destruct (decide (q = p)) as [->|Hne].
    + rewrite lookup_insert_eq in He'. injection He' as <-. by exists d.
    + rewrite lookup_insert_ne in He' by done. exists e'. split; [done|].
      apply evolved_refl.
Qed.

(* exists, verify and get only read *)
Lemma read_routes_change_nothing `{Platform}
    (w : World Server.PadData) (padId : string) (password : option string) :
  after (Server.exists_ padId) w = w
  /\ after (Server.verify padId password) w = w
  /\ after (Server.get padId password) w = w.
Proof.
  unfold Server.exists_, Server.verify, Server.get, Server.hashPasswordOf. run.
  split; [done|].
  destruct (pads w !! padId) as [d|]; cbn; [|done].
  destruct password as [s|]; cbn; [|done].
  by destruct (negb _).
Qed.

Lemma create_evolves `{Platform} (w : World Server.PadData) padId password :
  padsEvolve (Some padId) w (after (Server.create padId password) w).
Proof.
  unfold Server.create, Server.hashPasswordOf. run.
  destruct (falsy password || shorterThan 4 password); cbn;
    [by apply padsEvolve_same|].
  destruct password as [s|]; cbn; [|by apply padsEvolve_same].
  split; [done|]. cbn. split.
  - intros p d Hd. destruct (decide (padId = p)) as [->|Hne].
    + rewrite lookup_insert_eq. eexists. split; [done|]. by intros [].
    + rewrite lookup_insert_ne by done. exists d. split; [done|]. intros _.
      apply evolved_refl.
  - intros p d' Hd'. destruct (decide (padId = p)) as [->|Hne].
    + rewrite lookup_insert_eq in Hd'. injection Hd' as <-. by right.
    + rewrite lookup_insert_ne in Hd' by done. left. exists d'. split; [done|].
      apply evolved_refl.
Qed.

Lemma save_evolves `{Platform} (w : World Server.PadData) padId password content :
  padsEvolve None w (after (Server.save padId password content) w).
Proof.
  unfold Server.save, Server.hashPasswordOf. run.
  destruct (pads w !! padId) as [d|] eqn:Hd; cbn; [|by apply padsEvolve_same].
  destruct password as [s|]; cbn; [|by apply padsEvolve_same].
  destruct (negb _); cbn; [by apply padsEvolve_same|].
  apply (padsEvolve_insert _ _ _ padId d (Server.set_content content (clock w (ticks w)) d));
    try done.
  repeat split. by left.
Qed.

Lemma upload_evolves `{Platform} (w : World Server.PadData) padId password part :
  padsEvolve None w (after (Server.upload padId password part) w).
Proof.
  unfold Server.upload.
  destruct (multerSingle part) as [msg|file]; [by apply padsEvolve_same|].
  unfold Server.uploadHandler, Server.hashPasswordOf, makeFileInfo. run.
  destruct file as [file|]; cbn; [|by apply padsEvolve_same].
  destruct (pads w !! padId) as [d|] eqn:Hd; cbn; [|by apply padsEvolve_same].
  destruct password as [s|]; cbn; [|by apply padsEvolve_same].
  destruct (negb _); cbn; [by apply padsEvolve_same|].
  destruct (negb _); cbn; [by apply padsEvolve_same|].
  assert (Hev : evolved w d
            (Server.set_files
               (Server.files d ++
                [mkFileInfo (entropy w (draws w)) (originalname file) (length (buffer file))
                   (clock w (ticks w)) (clock w (S (ticks w)) + LIFETIME_MS)%Z]) d)).
  { repeat split. cbn. intros f Hin. apply in_app_or in Hin as [?|[<-|[]]]; [by left|right].
    by exists (ticks w). }
  destruct (uploads w !! padId) as [dir|] eqn:Hdir; cbn.
  - rewrite Hdir. cbn. by eapply padsEvolve_insert.
  - rewrite lookup_insert_eq. cbn. by eapply padsEvolve_insert.
Qed.

Lemma download_evolves `{Platform} (w : World Server.PadData) padId fileId password :
  padsEvolve None w (after (Server.download padId fileId password) w).
Proof.
  unfold Server.download, Server.hashPasswordOf. run.
  destruct (pads w !! padId) as [d|]; cbn; [|by apply padsEvolve_same].
  destruct password as [s|]; cbn; [|by apply padsEvolve_same].
  destruct (negb _); cbn; [by apply padsEvolve_same|].
  destruct (List.find _ (Server.files d)); cbn; [|by apply padsEvolve_same].
  destruct (_ <? _)%Z; cbn; [by apply padsEvolve_same|].
  destruct (uploads w !! padId) as [dir|]; cbn; [|by apply padsEvolve_same].
  destruct (List.find _ (map fst dir)); by apply padsEvolve_same.
Qed.

Lemma cleanupExpired_evolves (w : World Server.PadData) :
  padsEvolve None w (after Server.cleanupExpired w).
Proof.
  destruct (cleanupExpired_sweeps w) as (c & extra & _ & _ & Hclock & _ & Hnone & Hall).
  assert (Hswept : forall p d, pads w !! p = Some d ->
            exists d', pads (after Server.cleanupExpired w) !! p = Some d' /\ evolved w d d').
  { intros p d Hd. destruct (Hall p) as (k & _ & Hp); [by eexists|].
    destruct (swept_payloads _ _ _ _ Hp) as (d0 & Hd0 & Hd' & _).
    rewrite Hd in Hd0. injection Hd0 as <-. eexists. split; [exact Hd'|].
    repeat split. cbn. intros f Hin. left. by apply liveAt_in in Hin as [? _]. }
  split; [done|]. split.
  - intros p d Hd. destruct (Hswept p d Hd) as (d' & ? & ?). eauto.
  - intros p d' Hd'. left. destruct (pads w !! p) as [d|] eqn:Hd.
    + destruct (Hswept p d Hd) as (d'' & Heq & Hev). exists d. split; [done|]. congruence.
    + rewrite (Hnone p Hd) in Hd'. discriminate.
Qed.

(* one request, whichever it is *)
Lemma serve_evolves `{Platform} (r : Request) (w : World Server.PadData) :
  padsEvolve (createdBy r) w (serve r w).
Proof.
  destruct r; cbn [serve createdBy].
  - by apply padsEvolve_same.
  - apply create_evolves.
  - destruct (read_routes_change_nothing w padId password) as (_ & -> & _).
    by apply padsEvolve_same.
  - destruct (read_routes_change_nothing w padId password) as (_ & _ & ->).
    by apply padsEvolve_same.
  - apply save_evolves.
  - apply upload_evolves.
  - apply download_evolves.
  - apply cleanupExpired_evolves.
Qed.

Lemma serveAll_evolves `{Platform} (rs : list Request) :
  forall (w : World Server.PadData) p d,
    pads w !! p = Some d ->
    clock (serveAll rs w) = clock w
    /\ exists d', pads (serveAll rs w) !! p = Some d'
                  /\ ((forall r, In r rs -> createdBy r <> Some p) -> evolved w d d').
Proof.
  induction rs as [|r rs IH]; intros w p d Hd; cbn [serveAll fold_left].
  { split; [done|]. exists d. split; [done|]. intros _. apply evolved_refl. }
  destruct (serve_evolves r w) as (Hclock & Hkeep & _).
  destruct (Hkeep p d Hd) as (d1 & Hd1 & Hev1).
  destruct (IH (serve r w) p d1 Hd1) as (Hclock' & d' & Hd' & Hev').
  split; [unfold serveAll in Hclock'; congruence|].
  exists d'. split; [exact Hd'|]. intros Hnone.
  apply (evolved_trans _ _ d1).
  - apply Hev1, Hnone. by left.
  - apply (evolved_clock w (serve r w)); [done|]. apply Hev'.
    intros r' Hr'. apply Hnone. by right.
Qed.

(** X9 - server.js, over any sequence of timer firings and of requests that
    address pads by plain file names: no pad file is ever removed, and
    unless the sequence holds a create request for that very pad its
    credential digest and creation time are the ones it started with. *)
Theorem pads_survive_and_keep_digest `{Platform}
    (rs : list Request) (w : World Server.PadData) (padId : string) (d : Server.PadData) :
  pads w !! padId = Some d ->
  Forall (fun r => isPlainRequest r = true) rs ->
  exists d',
    pads (serveAll rs w) !! padId = Some d'
    /\ ((forall r, In r rs -> createdBy r <> Some padId) ->
        Server.passwordHash d' = Server.passwordHash d
        /\ Server.createdAt d' = Server.createdAt d).
Proof.
  intros Hd _. destruct (serveAll_evolves rs w padId d Hd) as (_ & d' & Hd' & Hev).
  exists d'. split; [exact Hd'|]. intros Hnone.
  destruct (Hev Hnone) as (Hhash & Hcreated & _). by split.
Qed.

Lemma pads_survive_and_keep_digest_witness :
  exists d',
    pads (serveAll (H := Demo.platform)
            [PostSave "demo" (Some "abcd") "edited";
             PostUpload "demo" (Some "abcd") (Some (mkUpload "scan.pdf" Demo.pdfBytes));
             PostCreate "other" (Some "efgh");
             TimerFires;
             PostSave "demo" (Some "guess") "defaced"]
            Demo.world) !! "demo" = Some d'
    /\ Server.passwordHash d' = Demo.digest "abcd".
Proof.
  destruct (pads_survive_and_keep_digest (H := Demo.platform)
              [PostSave "demo" (Some "abcd") "edited";
               PostUpload "demo" (Some "abcd") (Some (mkUpload "scan.pdf" Demo.pdfBytes));
               PostCreate "other" (Some "efgh");
               TimerFires;
               PostSave "demo" (Some "guess") "defaced"]
              Demo.world "demo" Demo.pad) as (d' & Hd' & Hkept);
    [vm_compute; reflexivity|repeat constructor|].
  exists d'. split; [exact Hd'|].
  apply Hkept. intros r Hr. cbn in Hr.
  destruct Hr as [<-|[<-|[<-|[<-|[<-|[]]]]]]; cbn; discriminate.
Defined.

Lemma padsEvolve_expiry created (w w' : World Server.PadData) :
  (forall n, (clock w n <= clock w (S n))%Z) ->
  padsEvolve created w w' -> expiryRespected w -> expiryRespected w'.
Proof.
  intros Hmono (_ & _ & Hfrom) Hinv p d' f Hd' Hf.
  destruct (Hfrom p d' Hd') as [(d & Hd & _ & _ & Hfiles)|[_ Hempty]].
  - destruct (Hfiles f Hf) as [Hold|(k & Hup & Hexp)].
    + by apply (Hinv p d).
    + rewrite Hup, Hexp. specialize (Hmono k). lia.
  - rewrite Hempty in Hf. by destruct Hf.
Qed.

(** X10 - server.js, on a clock that does not run backwards: if every
    attachment entry of every pad expires no earlier than 24 hours after its
    upload timestamp, this is still so after any sequence of requests and
    timer firings. *)
Theorem expiry_respected_forever `{Platform}
    (rs : list Request) (w : World Server.PadData) :
  (forall n, (clock w n <= clock w (S n))%Z) ->
  expiryRespected w ->
  expiryRespected (serveAll rs w).
Proof.
  revert w. induction rs as [|r rs IH]; intros w Hmono Hinv; [done|].
  cbn [serveAll fold_left]. pose proof (serve_evolves r w) as Hstep.
  apply IH.
  - destruct Hstep as (-> & _). exact Hmono.
  - by apply (padsEvolve_expiry (createdBy r) w).
Qed.

Lemma expiry_respected_forever_witness :
  exists d,
    pads (serveAll (H := Demo.platform)
            [PostUpload "demo" (Some "abcd") (Some (mkUpload "scan.pdf" Demo.pdfBytes));
             TimerFires]
            Demo.world) !! "demo" = Some d
    /\ Forall (fun f => (uploadedAt f + LIFETIME_MS <= expiresAt f)%Z) (Server.files d).
Proof.
  eexists. split; [vm_compute; reflexivity|].
  apply List.Forall_forall. intros f Hf.
  refine (expiry_respected_forever (H := Demo.platform)
            [PostUpload "demo" (Some "abcd") (Some (mkUpload "scan.pdf" Demo.pdfBytes));
             TimerFires]
            Demo.world _ _ "demo" _ f _ Hf).
  - intros n. unfold Demo.world, Demo.millis. cbn [clock]. lia.
  - intros p d g Hd Hg. unfold Demo.world in Hd. cbn [pads] in Hd.
    destruct (decide (p = "demo")) as [->|Hne].
    + rewrite lookup_singleton_eq in Hd. injection Hd as <-.
      cbn in Hg. destruct Hg as [<-|[<-|[]]]; cbn; lia.
    + rewrite lookup_singleton_ne in Hd by done. discriminate.
  - vm_compute. reflexivity.
Defined.

(** ** server-old.js: URL names *)

Lemma isUrlChar_safe (c : ascii) : ServerOld.isUrlChar c = true <-> urlSafe c.
Proof.
  unfold ServerOld.isUrlChar, urlSafe. cbv zeta.
  rewrite !orb_true_iff, !andb_true_iff, !Nat.leb_le, !Ascii.eqb_eq. tauto.
Qed.

(** X11 - isValidCustomUrl (server-old.js): a name is accepted exactly when
    it has 3 to 50 characters, each a letter, a digit, an underscore or a
    hyphen; so an accepted name holds no slash, backslash or dot, and the
    path pads/<name>.json built from it stays in the pad directory. *)
Theorem valid_url_names (urlName : string) :
  (ServerOld.isValidCustomUrl urlName = true
   <-> 3 <= String.length urlName <= 50
       /\ Forall urlSafe (list_ascii_of_string urlName))
  /\ (ServerOld.isValidCustomUrl urlName = true ->
      forall c, In c (list_ascii_of_string urlName) ->
        c <> "/"%char /\ c <> "\"%char /\ c <> "."%char).
Proof.
  assert (Hiff : ServerOld.isValidCustomUrl urlName = true
                 <-> 3 <= String.length urlName <= 50
                     /\ Forall urlSafe (list_ascii_of_string urlName)).
  { unfold ServerOld.isValidCustomUrl.
    rewrite !andb_true_iff, !Nat.leb_le, forallb_forall, List.Forall_forall.
    split.
    - intros [[? ?] Hall]. split; [lia|]. intros c Hc. by apply isUrlChar_safe, Hall.
    - intros [[? ?] Hall]. split; [lia|]. intros c Hc. by apply isUrlChar_safe, Hall. }
  split; [exact Hiff|].
  intros Hvalid c Hc. apply Hiff in Hvalid as [_ Hall].
  rewrite List.Forall_forall in Hall. specialize (Hall c Hc).
  unfold urlSafe in Hall. cbv zeta in Hall.
  repeat split; intros ->; vm_compute in Hall;
    destruct Hall as [?|[?|[?|[?|?]]]]; try lia; discriminate.
Qed.

Lemma valid_url_names_witness :
  3 <= String.length "my-notes_2024" <= 50
  /\ Forall urlSafe (list_ascii_of_string "my-notes_2024").
Proof.
  apply (proj1 (proj1 (valid_url_names "my-notes_2024"))). vm_compute. reflexivity.
Defined.

(** ** server-old.js: creating a pad and logging in *)

(* the create-pad route on a free, valid URL name with an acceptable password *)
Lemma createPad_creates `{Platform}
    (w : World ServerOld.PadData) (url pw : string) :
  ServerOld.isValidCustomUrl url = true ->
  4 <= String.length pw ->
  pads w !! url = None ->
  let w' := after (ServerOld.createPad (Some url) (Some pw)) w in
  answer (ServerOld.createPad (Some url) (Some pw)) w
    = inr (Json 200 (JObj [("success", JBool true); ("padId", JStr url)]))
  /\ pads w' = <[url := ServerOld.mkPadData url "" []
                          (bcrypt_hash (entropy w (draws w)) pw)
                          (clock w (ticks w)) (clock w (S (ticks w)))]> (pads w)
  /\ uploads w' = uploads w.
Proof.
  intros Hvalid Hlen Hfree. cbv zeta.
  unfold ServerOld.createPad, ServerOld.padExists, ServerOld.hashPassword.
  assert (Hurl : String.eqb url "" = false).
  { apply String.eqb_neq. intros ->. discriminate Hvalid. }
  assert (Hpw : String.eqb pw "" || Nat.ltb (String.length pw) 4 = false).
  { apply orb_false_iff. split.
    - apply String.eqb_neq. intros ->. cbn in Hlen. lia.
    - apply Nat.ltb_ge. lia. }
  rewrite Hurl, Hvalid. cbn [negb orb]. rewrite Hpw. run. by rewrite Hfree.
Qed.

(** X12 - server-old.js, create-pad then login: once a pad is created under a
    free valid URL name and a password of at least four characters, the pad
    is stored empty under that name, a login with the same name and password
    succeeds, and a login with a password whose bcrypt digest under the
    stored salt differs is answered 401 "Incorrect URL or password." *)
Theorem createPad_then_login `{Platform}
    (w : World ServerOld.PadData) (url pw : string) :
  ServerOld.isValidCustomUrl url = true ->
  4 <= String.length pw ->
  pads w !! url = None ->
  let w' := after (ServerOld.createPad (Some url) (Some pw)) w in
  let salt := entropy w (draws w) in
  pads w' !! url
    = Some (ServerOld.mkPadData url "" [] (bcrypt_hash salt pw)
              (clock w (ticks w)) (clock w (S (ticks w))))
  /\ answer (ServerOld.login (Some url) (Some pw)) w'
     = inr (Json 200 (JObj [("success", JBool true); ("padId", JStr url)]))
  /\ (forall pw', pw' <> "" -> bcrypt_hash salt pw' <> bcrypt_hash salt pw ->
        answer (ServerOld.login (Some url) (Some pw')) w'
        = inr (Json 401 (errorBody "Incorrect URL or password."))).
Proof.
  intros Hvalid Hlen Hfree. cbv zeta.
  destruct (createPad_creates w url pw Hvalid Hlen Hfree) as (_ & Hpads & _).
  assert (Hpad : pads (after (ServerOld.createPad (Some url) (Some pw)) w) !! url
                 = Some (ServerOld.mkPadData url "" [] (bcrypt_hash (entropy w (draws w)) pw)
                           (clock w (ticks w)) (clock w (S (ticks w))))).
  { rewrite Hpads. apply lookup_insert_eq. }
  assert (Hurl : String.eqb url "" = false).
  { apply String.eqb_neq. intros ->. discriminate Hvalid. }
  split; [exact Hpad|]. split.
  - unfold ServerOld.login, ServerOld.padExists, ServerOld.verifyPasswordOf,
      ServerOld.verifyPassword.
    assert (Hpw : falsy (Some pw) = false).
    { unfold falsy. apply String.eqb_neq. intros ->. cbn in Hlen. lia. }
    rewrite Hurl, Hpw. run. rewrite Hpad. cbn. rewrite Hpad. cbn.
    rewrite bcrypt_compare_hash. by rewrite bool_decide_eq_true_2.
  - intros pw' Hne Hdistinct.
    unfold ServerOld.login, ServerOld.padExists, ServerOld.verifyPasswordOf,
      ServerOld.verifyPassword.
    assert (Hpw : falsy (Some pw') = false) by (by apply String.eqb_neq).
    rewrite Hurl, Hpw. run. rewrite Hpad. cbn. rewrite Hpad. cbn.
    rewrite bcrypt_compare_hash. by rewrite bool_decide_eq_false_2.
Qed.

Lemma createPad_then_login_witness :
  answer (ServerOld.login (H := Demo.platform) (Some "my-notes") (Some "s3cret"))
         (after (ServerOld.createPad (H := Demo.platform) (Some "my-notes") (Some "s3cret"))
                Demo.worldOld)
  = inr (Json 200 (JObj [("success", JBool true); ("padId", JStr "my-notes")])).
Proof.
  destruct (createPad_then_login (H := Demo.platform) Demo.worldOld "my-notes" "s3cret")
    as (_ & Hlogin & _); [vm_compute; reflexivity | vm_compute; lia | vm_compute; reflexivity |].
  exact Hlogin.
Defined.

(** X13 - server-old.js, check-url against create-pad: in the same world and
    for a password of at least four characters, check-url answers
    available: true for exactly the URL names under which create-pad
    succeeds; for a name already taken create-pad answers 409 and for an
    invalid name 400. *)
Theorem checkUrl_agrees_with_createPad `{Platform}
    (w : World ServerOld.PadData) (url pw : string) :
  4 <= String.length pw ->
  (answer (ServerOld.checkUrl url) w = inr (Json 200 (JObj [("available", JBool true)]))
   <-> answer (ServerOld.createPad (Some url) (Some pw)) w
       = inr (Json 200 (JObj [("success", JBool true); ("padId", JStr url)])))
  /\ (answer (ServerOld.checkUrl url) w <> inr (Json 200 (JObj [("available", JBool true)])) ->
      answer (ServerOld.createPad (Some url) (Some pw)) w
        = inr (Json 409 (errorBody "This URL name is already taken."))
      \/ answer (ServerOld.createPad (Some url) (Some pw)) w
         = inr (Json 400 (errorBody "Invalid URL name. Use 3-50 characters (letters, numbers, hyphens, underscores only)"))).
Proof.
  intros Hlen.
  destruct (ServerOld.isValidCustomUrl url) eqn:Hvalid.
  - destruct (pads w !! url) as [d|] eqn:Hpad.
    + destruct (createPad_existing_conflict w url pw d Hpad Hvalid Hlen) as [Htaken _].
      rewrite Htaken. unfold ServerOld.checkUrl, ServerOld.padExists. rewrite Hvalid.
      run. rewrite Hpad. cbn. split; [split; discriminate|]. by left.
    + destruct (createPad_creates w url pw Hvalid Hlen Hpad) as [Hcreated _].
      rewrite Hcreated. unfold ServerOld.checkUrl, ServerOld.padExists. rewrite Hvalid.
      run. rewrite Hpad. cbn. split; [done|]. intros Hne. by destruct Hne.
  - unfold ServerOld.checkUrl, ServerOld.createPad. rewrite Hvalid. cbn [negb].
    rewrite orb_true_r. run. split; [split; discriminate|]. by right.
Qed.

Lemma checkUrl_agrees_with_createPad_witness :
  answer (ServerOld.checkUrl "demo") Demo.worldOld
    <> inr (Json 200 (JObj [("available", JBool true)]))
  /\ answer (ServerOld.createPad (H := Demo.platform) (Some "my-notes") (Some "s3cret"))
            Demo.worldOld
     = inr (Json 200 (JObj [("success", JBool true); ("padId", JStr "my-notes")])).
Proof.
  split; [vm_compute; discriminate|].
  apply (proj1 (checkUrl_agrees_with_createPad (H := Demo.platform) Demo.worldOld
                  "my-notes" "s3cret" ltac:(vm_compute; lia))).
  vm_compute. reflexivity.
Defined.

(** ** server-old.js: what no sequence of requests does *)

(* a loop keeps whatever reflexive and transitive relation each turn keeps,
   whether it runs to the end or stops at a throw *)
Lemma forEach_keeps {P A B} (R : World P -> World P -> Prop) (body : B -> A -> M P B) :
  (forall w, R w w) ->
  (forall w1 w2 w3, R w1 w2 -> R w2 w3 -> R w1 w3) ->
  (forall acc x w, R w (snd (body acc x w))) ->
  forall xs acc w, R w (snd (forEach body xs acc w)).
Proof.
  intros Hrefl Htrans Hbody. induction xs as [|x xs IH]; intros acc w; [apply Hrefl|].
  cbn [forEach]. unfold bind. pose proof (Hbody acc x w) as Hstep.
  destruct (body acc x w) as [[e|acc'] w1]; cbn [snd] in *; [done|].
  by apply (Htrans _ w1).
Qed.

Lemma sameIdentity_refl d : sameIdentity d d.
Proof. by repeat split. Qed.

Lemma padsGrow_same (w w' : World ServerOld.PadData) :
  pads w' = pads w -> padsGrow w w'.
Proof.
  intros Hpads. split; rewrite Hpads.
  - intros p d Hd. exists d. split; [done|]. apply sameIdentity_refl.
  - intros p d' Hnone Hsome. congruence.
Qed.

Lemma padsGrow_refl (w : World ServerOld.PadData) : padsGrow w w.
Proof. by apply padsGrow_same. Qed.

Lemma padsGrow_trans (w1 w2 w3 : World ServerOld.PadData) :
  padsGrow w1 w2 -> padsGrow w2 w3 -> padsGrow w1 w3.
Proof.
  intros [Hkeep Hnew] [Hkeep' Hnew']. split.
  - intros p d Hd. destruct (Hkeep p d Hd) as (d2 & Hd2 & Hh & Hc & Hi).
    destruct (Hkeep' p d2 Hd2) as (d3 & Hd3 & Hh' & Hc' & Hi').
    exists d3. split; [done|]. repeat split; congruence.
  - intros p d3 Hnone Hd3. destruct (pads w2 !! p) as [d2|] eqn:Hd2.
    + destruct (Hnew p d2 Hnone Hd2) as [Hvalid Hname].
      destruct (Hkeep' p d2 Hd2) as (d3' & Hd3' & Hid & _).
      split; [done|]. congruence.
    + by apply Hnew'.
Qed.

Lemma padsGrow_update (w w' : World ServerOld.PadData) q d d' :
  pads w !! q = Some d ->
  pads w' = <[q := d']> (pads w) ->
  sameIdentity d d' ->
  padsGrow w w'.
Proof.
  intros Hq Hpads Hid. split; rewrite Hpads.
  - intros p e He. destruct (decide (q = p)) as [->|Hne].
    + rewrite lookup_insert_eq. exists d'. split; [done|]. congruence.
    + rewrite lookup_insert_ne by done. exists e. split; [done|]. apply sameIdentity_refl.
  - intros p e' Hnone He'. destruct (decide (q = p)) as [->|Hne]; [congruence|].
    rewrite lookup_insert_ne in He' by done. congruence.
Qed.

Lemma createPad_grows `{Platform} (w : World ServerOld.PadData) urlName password :
  padsGrow w (after (ServerOld.createPad urlName password) w).
Proof.
  unfold ServerOld.createPad, ServerOld.padExists, ServerOld.hashPassword. run.
  destruct urlName as [url|]; cbn; [|apply padsGrow_refl].
  destruct (String.eqb url "" || negb (ServerOld.isValidCustomUrl url)) eqn:Hurl; cbn;
    [apply padsGrow_refl|].
  destruct password as [pw|]; cbn; [|apply padsGrow_refl].
  destruct (String.eqb pw "" || Nat.ltb (String.length pw) 4); cbn; [apply padsGrow_refl|].
  destruct (pads w !! url) as [d|] eqn:Hpad; cbn; [apply padsGrow_refl|].
  apply orb_false_iff in Hurl as [_ Hvalid]. apply negb_false_iff in Hvalid.
  split; cbn.
  - intros p d Hd. assert (url <> p) by congruence.
    rewrite lookup_insert_ne by done. exists d. split; [done|]. apply sameIdentity_refl.
  - intros p d' Hnone Hd'. destruct (decide (url = p)) as [<-|Hne].
    + rewrite lookup_insert_eq in Hd'. injection Hd' as <-. by split.
    + rewrite lookup_insert_ne in Hd' by done. congruence.
Qed.

Lemma login_grows `{Platform} (w : World ServerOld.PadData) urlName password :
  padsGrow w (after (ServerOld.login urlName password) w).
Proof.
  apply padsGrow_same.
  unfold ServerOld.login, ServerOld.padExists, ServerOld.verifyPasswordOf. run.
  destruct urlName as [url|]; cbn; [|done].
  destruct (String.eqb url "" || falsy password); cbn; [done|].
  destruct (pads w !! url) as [d|] eqn:Hpad; cbn; [|done]. rewrite Hpad.
  destruct password as [pw|]; cbn; [|done]. by destruct (negb _).
Qed.

Lemma getOld_grows `{Platform} (w : World ServerOld.PadData) padId password :
  padsGrow w (after (ServerOld.get padId password) w).
Proof.
  apply padsGrow_same.
  unfold ServerOld.get, ServerOld.padExists, ServerOld.verifyPasswordOf. run.
  destruct (pads w !! padId) as [d|] eqn:Hpad; cbn; [|done]. rewrite Hpad.
  destruct password as [pw|]; cbn; [|done]. by destruct (negb _).
Qed.

Lemma saveOld_grows `{Platform} (w : World ServerOld.PadData) padId password content :
  padsGrow w (after (ServerOld.save padId password content) w).
Proof.
  unfold ServerOld.save, ServerOld.padExists, ServerOld.verifyPasswordOf. run.
  destruct (pads w !! padId) as [d|] eqn:Hpad; cbn; [|apply padsGrow_refl]. rewrite Hpad.
  destruct password as [pw|]; cbn; [|by apply padsGrow_same].
  destruct (negb _); cbn; [apply padsGrow_refl|].
  by apply (padsGrow_update _ _ padId d
              (ServerOld.set_content content (clock w (ticks w)) d)).
Qed.

Lemma uploadOld_grows `{Platform} (w : World ServerOld.PadData) padId password part :
  padsGrow w (after (ServerOld.upload padId password part) w).
Proof.
  unfold ServerOld.upload.
  destruct (multerSingle part) as [msg|file]; [apply padsGrow_refl|].
  unfold ServerOld.uploadHandler, ServerOld.padExists, ServerOld.verifyPasswordOf,
    makeFileInfo. run.
  destruct file as [file|]; cbn; [|apply padsGrow_refl].
  destruct (pads w !! padId) as [d|] eqn:Hpad; cbn; [|apply padsGrow_refl]. rewrite Hpad.
  destruct password as [pw|]; cbn; [|by apply padsGrow_same].
  destruct (negb _); cbn; [apply padsGrow_refl|].
  destruct (negb _); cbn; [apply padsGrow_refl|].
  destruct (uploads w !! padId) as [dir|] eqn:Hdir; cbn.
  - rewrite Hdir. cbn. by eapply padsGrow_update.
  - rewrite lookup_insert_eq. cbn. by eapply padsGrow_update.
Qed.

Lemma downloadOld_grows `{Platform} (w : World ServerOld.PadData) padId fileId password :
  padsGrow w (after (ServerOld.download padId fileId password) w).
Proof.
  apply padsGrow_same.
  unfold ServerOld.download, ServerOld.padExists, ServerOld.verifyPasswordOf. run.
  destruct (pads w !! padId) as [d|] eqn:Hpad; cbn; [|done]. rewrite Hpad.
  destruct password as [pw|]; cbn; [|done].
  destruct (negb _); cbn; [done|].
  destruct (List.find _ (ServerOld.files d)); cbn; [|done].
  destruct (_ <? _)%Z; cbn; [done|].
  destruct (uploads w !! padId) as [dir|]; cbn; [|done].
  by destruct (List.find _ (map fst dir)).
Qed.

(* the deletion loop of the sweep never writes a pad file *)
Lemma deleteExpiredOld_pads (w : World ServerOld.PadData) padId cleaned file :
  pads (snd (ServerOld.deleteExpired padId cleaned file w)) = pads w.
Proof.
  unfold ServerOld.deleteExpired. run.
  destruct (uploads w !! padId) as [dir|] eqn:Hdir; cbn; [|done].
  destruct (List.find _ (map fst dir)) as [n|]; cbn; [|done].
  destruct (unlinkFails w padId n); cbn; [done|]. rewrite Hdir.
  by destruct (existsb _ _).
Qed.

Lemma cleanupPadOld_grows (w : World ServerOld.PadData) cleaned padId :
  padsGrow w (snd (ServerOld.cleanupPad cleaned padId w)).
Proof.
  unfold ServerOld.cleanupPad.
  unfold bind at 1. unfold readPad.
  destruct (pads w !! padId) as [d|] eqn:Hpad; [|apply padsGrow_refl].
  unfold bind at 1. unfold now. cbv zeta.
  set (expired := List.filter _ (ServerOld.files d)).
  pose proof (forEach_keeps (fun a b : World ServerOld.PadData => pads b = pads a)
                (ServerOld.deleteExpired padId)
                (fun _ => eq_refl) (fun _ _ _ H1 H2 => eq_trans H2 H1)
                (fun acc x v => deleteExpiredOld_pads v padId acc x)
                expired cleaned (with_tick w)) as Hloop.
  unfold bind at 1.
  destruct (forEach (ServerOld.deleteExpired padId) expired cleaned (with_tick w))
    as [[e|c] w1]; cbn [snd] in *; [by apply padsGrow_same|].
  destruct (Nat.ltb 0 (length expired)); [|by apply padsGrow_same].
  run. eapply (padsGrow_update _ _ padId d).
  - exact Hpad.
  - cbn. by rewrite Hloop.
  - by repeat split.
Qed.

Lemma cleanupExpiredOld_grows (w : World ServerOld.PadData) :
  padsGrow w (after ServerOld.cleanupExpired w).
Proof.
  unfold after, ServerOld.cleanupExpired, try_catch.
  unfold bind at 1. unfold console_log.
  unfold bind at 1. unfold readdirPads.
  set (w0 := with_log (LogInfo "Running cleanup...") w).
  set (padIds := map fst (map_to_list (pads w0))).
  pose proof (forEach_keeps padsGrow ServerOld.cleanupPad padsGrow_refl padsGrow_trans
                (fun acc x v => cleanupPadOld_grows v acc x) padIds 0 w0) as Hloop.
  unfold bind. destruct (forEach ServerOld.cleanupPad padIds 0 w0) as [[e|c] w1];
    cbn [snd] in *; exact Hloop.
Qed.

Lemma serveOld_grows `{Platform} (r : RequestOld) (w : World ServerOld.PadData) :
  padsGrow w (serveOld r w).
Proof.
  destruct r; cbn [serveOld].
  - apply padsGrow_same. unfold ServerOld.checkUrl, ServerOld.padExists. run.
    by destruct (negb _).
  - apply createPad_grows.
  - apply login_grows.
  - apply getOld_grows.
  - apply saveOld_grows.
  - apply uploadOld_grows.
  - apply downloadOld_grows.
  - apply cleanupExpiredOld_grows.
Qed.

Lemma serveAllOld_grows `{Platform} (rs : list RequestOld) (w : World ServerOld.PadData) :
  padsGrow w (serveAllOld rs w).
Proof.
  revert w. induction rs as [|r rs IH]; intros w; [apply padsGrow_refl|].
  cbn [serveAllOld fold_left]. apply (padsGrow_trans _ (serveOld r w)).
  - apply serveOld_grows.
  - apply IH.
Qed.

(** X14 - server-old.js, over any sequence of requests to the pad and file
    routes and timer firings: a pad file, once there, is never removed and
    never written over by another create; its recorded name, credential
    digest and creation time stay what they were. *)
Theorem pad_identity_is_permanent `{Platform}
    (rs : list RequestOld) (w : World ServerOld.PadData) (padId : string)
    (d : ServerOld.PadData) :
  pads w !! padId = Some d ->
  exists d',
    pads (serveAllOld rs w) !! padId = Some d'
    /\ ServerOld.padId d' = ServerOld.padId d
    /\ ServerOld.passwordHash d' = ServerOld.passwordHash d
    /\ ServerOld.createdAt d' = ServerOld.createdAt d.
Proof.
  intros Hd. destruct (serveAllOld_grows rs w) as [Hkeep _].
  destruct (Hkeep padId d Hd) as (d' & Hd' & Hid). by exists d'.
Qed.

Lemma pad_identity_is_permanent_witness :
  exists d',
    pads (serveAllOld (H := Demo.platform)
            [OldCreatePad (Some "demo") (Some "zzzz");
             OldSave "demo" (Some "abcd") "edited";
             OldTimerFires;
             OldUpload "demo" (Some "abcd") (Some (mkUpload "scan.pdf" Demo.pdfBytes))]
            Demo.worldOld) !! "demo" = Some d'
    /\ ServerOld.passwordHash d' = Demo.saltedDigest "" "abcd".
Proof.
  destruct (pad_identity_is_permanent (H := Demo.platform)
              [OldCreatePad (Some "demo") (Some "zzzz");
               OldSave "demo" (Some "abcd") "edited";
               OldTimerFires;
               OldUpload "demo" (Some "abcd") (Some (mkUpload "scan.pdf" Demo.pdfBytes))]
              Demo.worldOld "demo" Demo.padOld) as (d' & Hd' & _ & Hhash & _);
    [vm_compute; reflexivity|].
  exists d'. split; [exact Hd' | exact Hhash].
Defined.

(** X15 - server-old.js: if every pad file sits under a valid URL name and
    records that name as its padId, this is still so after any sequence of
    requests to the pad and file routes and timer firings; in particular
    every pad that create-pad adds has a name of 3 to 50 letters, digits,
    underscores and hyphens. *)
Theorem pads_stay_well_named `{Platform}
    (rs : list RequestOld) (w : World ServerOld.PadData) :
  wellNamed w -> wellNamed (serveAllOld rs w).
Proof.
  intros Hwf p d' Hd'. destruct (serveAllOld_grows rs w) as [Hkeep Hnew].
  destruct (pads w !! p) as [d|] eqn:Hd.
  - destruct (Hwf p d Hd) as [Hvalid Hname].
    destruct (Hkeep p d Hd) as (d'' & Hd'' & Hid & _).
    split; [done|]. congruence.
  - by apply Hnew.
Qed.

Lemma pads_stay_well_named_witness :
  exists d,
    pads (serveAllOld (H := Demo.platform)
            [OldCreatePad (Some "my-notes") (Some "s3cret");
             OldCreatePad (Some "../etc") (Some "s3cret");
             OldSave "my-notes" (Some "s3cret") "text"]
            Demo.worldOld) !! "my-notes" = Some d
    /\ ServerOld.isValidCustomUrl "my-notes" = true
    /\ ServerOld.padId d = "my-notes".
Proof.
  eexists. split; [vm_compute; reflexivity|].
  refine (pads_stay_well_named (H := Demo.platform)
            [OldCreatePad (Some "my-notes") (Some "s3cret");
             OldCreatePad (Some "../etc") (Some "s3cret");
             OldSave "my-notes" (Some "s3cret") "text"]
            Demo.worldOld _ "my-notes" _ _).
  - intros p d Hd. unfold Demo.worldOld in Hd. cbn [pads] in Hd.
    destruct (decide (p = "demo")) as [->|Hne].
    + rewrite lookup_singleton_eq in Hd. injection Hd as <-. split; vm_compute; reflexivity.
    + rewrite lookup_singleton_ne in Hd by done. discriminate.
  - vm_compute. reflexivity.
Defined.

(** ** server-old.js: the sweep of one pad *)

(* the deletion loop of the sweep catches its own errors *)
Lemma deleteExpiredOld_loop_returns padId (expired : list FileInfo) :
  forall cleaned (w : World ServerOld.PadData),
    exists cleaned' w',
      forEach (ServerOld.deleteExpired padId) expired cleaned w = (inr cleaned', w').
Proof.
  induction expired as [|x xs IH]; intros c0 v.
  - by exists c0, v.
  - cbn [forEach]. unfold bind.
    assert (Hturn : exists c1 v1, ServerOld.deleteExpired padId c0 x v = (inr c1, v1)).
    { unfold ServerOld.deleteExpired. run.
      destruct (uploads v !! padId) as [dir|] eqn:Hdir; cbn; [|by eauto].
      destruct (List.find _ (map fst dir)) as [n|]; cbn; [|by eauto].
      destruct (unlinkFails v padId n); cbn; [by eauto|]. rewrite Hdir.
      destruct (existsb _ _); cbn; by eauto. }
    destruct Hturn as (c1 & v1 & ->). apply IH.
Qed.

(* a deletion of the sweep touches neither the pad files nor the clock *)
Lemma deleteExpiredOld_clock (w : World ServerOld.PadData) padId cleaned file :
  pads (snd (ServerOld.deleteExpired padId cleaned file w)) = pads w
  /\ clock (snd (ServerOld.deleteExpired padId cleaned file w)) = clock w
  /\ ticks (snd (ServerOld.deleteExpired padId cleaned file w)) = ticks w.
Proof.
  unfold ServerOld.deleteExpired. run.
  destruct (uploads w !! padId) as [dir|] eqn:Hdir; cbn; [|done].
  destruct (List.find _ (map fst dir)) as [n|]; cbn; [|done].
  destruct (unlinkFails w padId n); cbn; [done|]. rewrite Hdir.
  by destruct (existsb _ _).
Qed.

(** X16 - server-old.js, one turn of the sweep: when no attachment of the
    pad has expired at the reading of the clock, the turn writes nothing:
    pad files and upload directories are as before (the record keeps its
    updatedAt); when some have, the pad's record, and no other, is written
    back with exactly the entries live at that reading and with the clock
    reading that follows it as updatedAt, its other fields unchanged. *)
Theorem sweepOld_writes_only_when_expired
    (w : World ServerOld.PadData) (cleaned : nat) (padId : string) (d : ServerOld.PadData) :
  pads w !! padId = Some d ->
  let today := clock w (ticks w) in
  let w' := snd (ServerOld.cleanupPad cleaned padId w) in
  ((forall f, In f (ServerOld.files d) -> (today <= expiresAt f)%Z) ->
     ServerOld.cleanupPad cleaned padId w = (inr cleaned, with_tick w))
  /\ ((exists f, In f (ServerOld.files d) /\ (expiresAt f < today)%Z) ->
      pads w'
      = <[padId := ServerOld.mkPadData (ServerOld.padId d) (ServerOld.content d)
                     (List.filter (fun f => (expiresAt f >=? today)%Z)
                                  (ServerOld.files d))
                     (ServerOld.passwordHash d) (ServerOld.createdAt d)
                     (clock w (S (ticks w)))]> (pads w)).
Proof.
  intros Hpad. cbv zeta. split.
  - intros Hlive. unfold ServerOld.cleanupPad.
    unfold bind at 1. unfold readPad. rewrite Hpad.
    unfold bind at 1. unfold now. cbv zeta.
    assert (Hnone : List.filter (fun f => (expiresAt f <? clock w (ticks w))%Z)
                      (ServerOld.files d) = []).
    { induction (ServerOld.files d) as [|f fs IH]; [done|]. cbn [List.filter].
      assert (Hf : (expiresAt f <? clock w (ticks w))%Z = false).
      { apply Z.ltb_ge. apply Hlive. by left. }
      rewrite Hf. apply IH. intros g Hg. apply Hlive. by right. }
    rewrite Hnone. reflexivity.
  - intros (f & Hf & Hexp). unfold ServerOld.cleanupPad.
    unfold bind at 1. unfold readPad. rewrite Hpad.
    unfold bind at 1. unfold now. cbv zeta.
    set (expired := List.filter _ (ServerOld.files d)).
    assert (Hsome : Nat.ltb 0 (length expired) = true).
    { apply Nat.ltb_lt. assert (Hin : In f expired).
      { apply filter_In. split; [done|]. by apply Z.ltb_lt. }
      destruct expired; [by destruct Hin|cbn; lia]. }
    pose proof (forEach_keeps
                  (fun a b : World ServerOld.PadData =>
                     pads b = pads a /\ clock b = clock a /\ ticks b = ticks a)
                  (ServerOld.deleteExpired padId)
                  (fun _ => conj eq_refl (conj eq_refl eq_refl))
                  (fun _ _ _ '(conj Hp1 (conj Hc1 Ht1)) '(conj Hp2 (conj Hc2 Ht2)) =>
                     conj (eq_trans Hp2 Hp1)
                          (conj (eq_trans Hc2 Hc1) (eq_trans Ht2 Ht1)))
                  (fun acc x v => deleteExpiredOld_clock v padId acc x)
                  expired cleaned (with_tick w)) as (Hpads & Hclock & Hticks).
    destruct (deleteExpiredOld_loop_returns padId expired cleaned (with_tick w))
      as (c & w1 & Hloop).
    rewrite Hloop in Hpads, Hclock, Hticks. cbn in Hpads, Hclock, Hticks.
    unfold bind at 1. rewrite Hloop.
    rewrite Hsome. run. by rewrite Hpads, Hclock, Hticks.
Qed.

Lemma sweepOld_writes_only_when_expired_witness :
  pads (snd (ServerOld.cleanupPad 0 "demo" Demo.worldOld)) !! "demo"
  = Some (ServerOld.mkPadData "demo" "hello world"
            (List.filter (fun f => (expiresAt f >=? 100000000)%Z) [Demo.report; Demo.photo])
            (Demo.saltedDigest "" "abcd") 500 100000001).
Proof.
  destruct (sweepOld_writes_only_when_expired Demo.worldOld 0 "demo" Demo.padOld)
    as [_ Hexpired]; [vm_compute; reflexivity|].
  rewrite Hexpired.
  - apply lookup_insert_eq.
  - exists Demo.report. split; [by left | vm_compute; reflexivity].
Defined.

(** ** The size limit of uploads *)

(** X17 - both servers, upload of a part whose extension is on the
    allow-list and whose payload is larger than 10 MiB: multer refuses it
    with "File too large" before the handler runs, whatever the pad and the
    secret, and neither a pad file nor a payload is written. *)
Theorem upload_too_large_is_refused `{Platform}
    (w : World Server.PadData) (wOld : World ServerOld.PadData)
    (padId : string) (password : option string) (file : Upload) :
  fileFilter file = true ->
  (MAX_FILE_SIZE < Z.of_nat (length (buffer file)))%Z ->
  Server.upload padId password (Some file) w = (inr (Unhandled "File too large"), w)
  /\ ServerOld.upload padId password (Some file) wOld
     = (inr (Unhandled "File too large"), wOld)
  /\ MAX_FILE_SIZE = 10485760%Z.
Proof.
  intros Hfilter Hsize. apply Z.ltb_lt in Hsize.
  unfold Server.upload, ServerOld.upload, multerSingle.
  by rewrite Hfilter, Hsize.
Qed.

Lemma upload_too_large_is_refused_witness :
  Server.upload (H := Demo.platform) "demo" (Some "abcd")
    (Some (mkUpload "big.pdf" (repeat x00 (Z.to_nat (MAX_FILE_SIZE + 1))))) Demo.world
  = (inr (Unhandled "File too large"), Demo.world).
Proof.
  refine (proj1 (upload_too_large_is_refused (H := Demo.platform) Demo.world Demo.worldOld
                   "demo" (Some "abcd")
                   (mkUpload "big.pdf" (repeat x00 (Z.to_nat (MAX_FILE_SIZE + 1)))) _ _)).
  - reflexivity.
  - cbn [buffer]. rewrite repeat_length, Z2Nat.id; [lia | discriminate].
Defined.

(** ** Requests for a pad that does not exist *)

(** X18 - a pad-scoped request for an identifier with no pad file.  server.js
    answers from its catch blocks: 404 "Pad not found" for verify and get,
    500 for save, upload and download.  server-old.js checks padExists first
    and answers 404 "Pad not found" on get, save, upload and download alike.
    No pad file or payload is written in either server. *)
Theorem missing_pad_answers `{Platform}
    (w : World Server.PadData) (wOld : World ServerOld.PadData)
    (padId fileId content : string) (password : option string) (file : Upload) :
  pads w !! padId = None ->
  pads wOld !! padId = None ->
  (answer (Server.verify padId password) w
     = inr (Json 404 (JObj [("success", JBool false); ("error", JStr "Pad not found")]))
   /\ answer (Server.get padId password) w = inr (Json 404 (errorBody "Pad not found"))
   /\ answer (Server.save padId password content) w = inr (Json 500 (errorBody "Failed to save"))
   /\ answer (Server.uploadHandler padId password (Some file)) w
      = inr (Json 500 (errorBody "Upload failed"))
   /\ answer (Server.download padId fileId password) w
      = inr (Json 500 (errorBody "Download failed"))
   /\ pads (after (Server.save padId password content) w) = pads w
   /\ pads (after (Server.uploadHandler padId password (Some file)) w) = pads w
   /\ uploads (after (Server.uploadHandler padId password (Some file)) w) = uploads w)
  /\ (answer (ServerOld.get padId password) wOld = inr (Json 404 (errorBody "Pad not found"))
      /\ ServerOld.save padId password content wOld
         = (inr (Json 404 (errorBody "Pad not found")), wOld)
      /\ ServerOld.uploadHandler padId password (Some file) wOld
         = (inr (Json 404 (errorBody "Pad not found")), wOld)
      /\ ServerOld.download padId fileId password wOld
         = (inr (Json 404 (errorBody "Pad not found")), wOld)).
Proof.
  intros Hnone HnoneOld. split.
  - unfold Server.verify, Server.get, Server.save, Server.uploadHandler, Server.download.
    run. rewrite Hnone. cbn. by split_ands.
  - unfold ServerOld.get, ServerOld.save, ServerOld.uploadHandler, ServerOld.download,
      ServerOld.padExists.
    run. rewrite HnoneOld. cbn. by split_ands.
Qed.

Lemma missing_pad_answers_witness :
  answer (Server.save (H := Demo.platform) "ghost" (Some "abcd") "text") Demo.world
    = inr (Json 500 (errorBody "Failed to save"))
  /\ ServerOld.save (H := Demo.platform) "ghost" (Some "abcd") "text" Demo.worldOld
     = (inr (Json 404 (errorBody "Pad not found")), Demo.worldOld).
Proof.
  destruct (missing_pad_answers (H := Demo.platform) Demo.world Demo.worldOld "ghost" "aa01"
              "text" (Some "abcd") (mkUpload "a.pdf" Demo.pdfBytes))
    as [(_ & _ & Hsave & _) (_ & HsaveOld & _)]; [vm_compute; reflexivity ..|].
  split; [exact Hsave | exact HsaveOld].
Defined.

(** * Properties of the client-only note store *)

Import LocalNotes.

#[local] Arguments Z.mul : simpl never.
#[local] Arguments Z.add : simpl never.
#[local] Arguments append : simpl never.
#[local] Arguments existsb : simpl never.
#[local] Arguments readMeta : simpl never.
#[local] Arguments verifyNote : simpl never.
#[local] Arguments getFileBlob : simpl never.
#[local] Arguments cleanupKey : simpl never.
#[local] Arguments nth : simpl never.

Ltac runL :=
  unfold outcome, leaves, andThen, resolve, reject, getItem, setItem, idbPut,
    idbGet, idbDelete, today, generateId;
  cbn.

Lemma passwordKey_not_contentKey (noteId : string) :
  notePasswordKey noteId <> noteContentKey noteId.
Proof.
  unfold notePasswordKey, noteContentKey. intros Heq.
  apply String.app_inj, String.app_inj in Heq. discriminate.
Qed.

Lemma passwordKey_not_metaKey (noteId : string) :
  notePasswordKey noteId <> noteFilesMetaKey noteId.
Proof.
  unfold notePasswordKey, noteFilesMetaKey. intros Heq.
  apply String.app_inj, String.app_inj in Heq. discriminate.
Qed.

Lemma contentKey_not_metaKey (noteId : string) :
  noteContentKey noteId <> noteFilesMetaKey noteId.
Proof.
  unfold noteContentKey, noteFilesMetaKey. intros Heq.
  apply String.app_inj, String.app_inj in Heq. discriminate.
Qed.

Lemma readMeta_listed {J : JsonText} (key : string) (b : Browser) :
  readMeta key b = (listedUnder b key, b).
Proof.
  unfold listedUnder, readMeta. runL.
  destruct (localStorage b !! key) as [[s|entries]|]; try reflexivity.
  destruct (String.eqb s ""); [reflexivity|].
  destruct (parseText s); reflexivity.
Qed.

Lemma listedUnder_storage {J : JsonText} (b b' : Browser) (key : string) :
  localStorage b' = localStorage b -> listedUnder b' key = listedUnder b key.
Proof.
  intros Heq. unfold listedUnder, readMeta. runL. rewrite Heq.
  destruct (localStorage b !! key) as [[s|entries]|]; try reflexivity.
  destruct (String.eqb s ""); [reflexivity|].
  destruct (parseText s); reflexivity.
Qed.

Lemma listedUnder_Meta {J : JsonText} (b : Browser) (key : string)
    (entries : list FileInfo) :
  localStorage b !! key = Some (Meta entries) -> listedUnder b key = inr entries.
Proof. intros Hkey. unfold listedUnder, readMeta. runL. now rewrite Hkey. Qed.

Lemma verifyNote_opens {P : Platform} {J : JsonText}
    (b : Browser) (noteId password : string) :
  opens b noteId password -> verifyNote noteId password b = (inr true, b).
Proof.
  intros (item & Hitem & Htext & Hne).
  unfold verifyNote, sha256Hex. runL. rewrite Hitem, Htext.
  destruct (String.eqb_spec (sha256_hex password) ""); [contradiction|].
  now rewrite String.eqb_refl.
Qed.

Lemma verifyNote_locked {P : Platform} {J : JsonText}
    (b : Browser) (noteId password : string) :
  locked b noteId password -> verifyNote noteId password b = (inr false, b).
Proof.
  intros Hlocked. unfold verifyNote, sha256Hex. runL.
  destruct (localStorage b !! notePasswordKey noteId) as [item|] eqn:Hitem;
    [|reflexivity].
  destruct (String.eqb (textOf item) ""); [reflexivity|].
  destruct (String.eqb_spec (textOf item) (sha256_hex password)) as [Heq|];
    [|reflexivity].
  now apply Hlocked in Heq.
Qed.

Lemma opens_storage {P : Platform} {J : JsonText}
    (b b' : Browser) (noteId password : string) :
  localStorage b' !! notePasswordKey noteId = localStorage b !! notePasswordKey noteId ->
  opens b noteId password -> opens b' noteId password.
Proof. intros Heq (item & Hitem & Htext). exists item. now rewrite Heq. Qed.

Lemma createNote_run {P : Platform} (b : Browser) (noteId password : string) :
  createNote noteId password b =
  (inr true,
   mkBrowser (<[noteFilesMetaKey noteId := Meta []]>
                (<[noteContentKey noteId := Text ""]>
                   (<[notePasswordKey noteId := Text (sha256_hex password)]>
                      (localStorage b))))
     (filesStore b) (wallClock b) (readings b) (randomIds b) (drawn b)).
Proof. reflexivity. Qed.

Lemma createNote_opens {P : Platform} {J : JsonText}
    (b : Browser) (noteId password : string) :
  sha256_hex password <> "" ->
  opens (leaves (createNote noteId password) b) noteId password.
Proof.
  intros Hne. exists (Text (sha256_hex password)).
  unfold leaves. rewrite createNote_run. cbn. split_ands; auto.
  rewrite lookup_insert_ne by (apply not_eq_sym, passwordKey_not_metaKey).
  rewrite lookup_insert_ne by (apply not_eq_sym, passwordKey_not_contentKey).
  apply lookup_insert_eq.
Qed.

Lemma saveNoteContent_run {P : Platform} {J : JsonText}
    (b : Browser) (noteId password content : string) :
  opens b noteId password ->
  saveNoteContent noteId password content b =
  (inr true,
   mkBrowser (<[noteContentKey noteId := Text content]> (localStorage b))
     (filesStore b) (wallClock b) (readings b) (randomIds b) (drawn b)).
Proof.
  intros Hopen. unfold saveNoteContent, andThen.
  now rewrite (verifyNote_opens _ _ _ Hopen).
Qed.

Lemma loadNote_run {P : Platform} {J : JsonText}
    (b : Browser) (noteId password : string) (entries : list FileInfo) :
  opens b noteId password ->
  listedUnder b (noteFilesMetaKey noteId) = inr entries ->
  loadNote noteId password b =
  (inr (match localStorage b !! noteContentKey noteId with
        | Some item => textOf item
        | None => ""
        end, entries), b).
Proof.
  intros Hopen Hmeta. unfold loadNote, andThen.
  rewrite (verifyNote_opens _ _ _ Hopen). cbn.
  unfold getItem. cbn. now rewrite readMeta_listed, Hmeta.
Qed.

(** X19: a note that was created and then saved under its password loads
    under that password with the saved content and no attachments, and is
    reported as existing. *)
Theorem note_create_save_load_roundtrip {P : Platform} {J : JsonText}
    (b : Browser) (noteId password content : string) :
  sha256_hex password <> "" ->
  let b1 := leaves (createNote noteId password) b in
  let b2 := leaves (saveNoteContent noteId password content) b1 in
  outcome (createNote noteId password) b = inr true /\
  outcome (saveNoteContent noteId password content) b1 = inr true /\
  outcome (loadNote noteId password) b2 = inr (content, []) /\
  outcome (noteExists noteId) b2 = inr true.
Proof.
  intros Hne b1 b2.
  pose proof (createNote_opens b noteId password Hne) as Hopen. fold b1 in Hopen.
  pose proof (saveNoteContent_run b1 noteId password content Hopen) as Hsave.
  assert (Hb2 : localStorage b2 =
                <[noteContentKey noteId := Text content]> (localStorage b1)).
  { unfold b2, leaves. now rewrite Hsave. }
  assert (Hopen2 : opens b2 noteId password).
  { apply (opens_storage b1); [|exact Hopen]. rewrite Hb2.
    apply lookup_insert_ne, not_eq_sym, passwordKey_not_contentKey. }
  split_ands.
  - reflexivity.
  - unfold outcome. now rewrite Hsave.
  - unfold outcome. rewrite (loadNote_run b2 noteId password []); [|exact Hopen2|].
    + cbn. now rewrite Hb2, lookup_insert_eq.
    + apply listedUnder_Meta. rewrite Hb2.
      rewrite lookup_insert_ne by apply contentKey_not_metaKey.
      unfold b1, leaves. rewrite createNote_run. cbn. apply lookup_insert_eq.
  - destruct Hopen2 as (item & Hitem & _). unfold noteExists. runL.
    now rewrite Hitem.
Qed.

Lemma note_create_save_load_roundtrip_witness :
  @sha256_hex Demo.platform "wxyz" <> "" /\
  outcome (loadNote (P := Demo.platform) (J := DemoLocal.jsonText) "diary" "wxyz")
    (leaves (saveNoteContent (P := Demo.platform) (J := DemoLocal.jsonText)
               "diary" "wxyz" "a new page")
       (leaves (createNote (P := Demo.platform) "diary" "wxyz") DemoLocal.browser))
  = inr ("a new page", []).
Proof.
  split; [discriminate|].
  apply (note_create_save_load_roundtrip (P := Demo.platform)
           (J := DemoLocal.jsonText) DemoLocal.browser "diary" "wxyz" "a new page").
  discriminate.
Defined.

(** X20: under a password whose digest is not the one the note keeps -- or
    for a note that does not exist -- saving, loading and attaching all fail
    with 'Incorrect password' and leave the browser's stores as they were. *)
Theorem note_refuses_wrong_password {P : Platform} {J : JsonText}
    (b : Browser) (noteId password content : string) (file : File) :
  locked b noteId password ->
  saveNoteContent noteId password content b = (inl (Error "Incorrect password"), b) /\
  loadNote noteId password b = (inl (Error "Incorrect password"), b) /\
  addFileForNote noteId password file b = (inl (Error "Incorrect password"), b).
Proof.
  intros Hlocked.
  unfold saveNoteContent, loadNote, addFileForNote, andThen.
  now rewrite (verifyNote_locked _ _ _ Hlocked).
Qed.

Lemma note_refuses_wrong_password_witness :
  saveNoteContent (P := Demo.platform) (J := DemoLocal.jsonText)
    "diary" "guess" "overwritten" DemoLocal.browser
  = (inl (Error "Incorrect password"), DemoLocal.browser).
Proof.
  assert (Hlocked : locked (P := Demo.platform) (J := DemoLocal.jsonText)
                      DemoLocal.browser "diary" "guess").
  { intros item Hitem. vm_compute in Hitem. injection Hitem as <-. discriminate. }
  apply (note_refuses_wrong_password (P := Demo.platform) (J := DemoLocal.jsonText)
           DemoLocal.browser "diary" "guess" "overwritten" DemoLocal.notesFile Hlocked).
Defined.

Lemma getFileBlob_live {J : JsonText}
    (b : Browser) (noteId fileId : string) (rec : FileRec) :
  filesStore b !! blobKey noteId fileId = Some rec ->
  (wallClock b (readings b) <= recExpiresAt rec)%Z ->
  getFileBlob noteId fileId b =
  (inr (blob rec),
   mkBrowser (localStorage b) (filesStore b) (wallClock b) (S (readings b))
     (randomIds b) (drawn b)).
Proof.
  intros Hrec Hlive. unfold getFileBlob. runL. rewrite Hrec. cbn.
  destruct (Z.ltb_spec (recExpiresAt rec) (wallClock b (readings b)));
    [lia|reflexivity].
Qed.

(** X21: fetching an attachment whose expiry lies before the clock reading
    purges it on the spot: the call fails with 'File expired', the blob is
    deleted from the object store, every entry with that file id leaves the
    note's list while the other entries stay, nothing else in either store
    changes, and a second fetch finds no file. *)
Theorem getFileBlob_purges_expired {J : JsonText}
    (b : Browser) (noteId fileId : string) (rec : FileRec) (entries : list FileInfo) :
  filesStore b !! blobKey noteId fileId = Some rec ->
  (recExpiresAt rec < wallClock b (readings b))%Z ->
  listedUnder b (noteFilesMetaKey noteId) = inr entries ->
  let b' := leaves (getFileBlob noteId fileId) b in
  outcome (getFileBlob noteId fileId) b = inl (Error "File expired") /\
  filesStore b' !! blobKey noteId fileId = None /\
  listedUnder b' (noteFilesMetaKey noteId) =
    inr (List.filter (fun f => negb (String.eqb (id f) fileId)) entries) /\
  (forall k, k <> blobKey noteId fileId -> filesStore b' !! k = filesStore b !! k) /\
  (forall k, k <> noteFilesMetaKey noteId -> localStorage b' !! k = localStorage b !! k) /\
  outcome (getFileBlob noteId fileId) b' = inl (Error "File not found").
Proof.
  intros Hrec Hexpired Hmeta b'.
  assert (Hrun : getFileBlob noteId fileId b =
    (inl (Error "File expired"),
     mkBrowser
       (<[noteFilesMetaKey noteId :=
            Meta (List.filter (fun f => negb (String.eqb (id f) fileId)) entries)]>
          (localStorage b))
       (delete (blobKey noteId fileId) (filesStore b))
       (wallClock b) (S (readings b)) (randomIds b) (drawn b))).
  { unfold getFileBlob. runL. rewrite Hrec. cbn.
    destruct (Z.ltb_spec (recExpiresAt rec) (wallClock b (readings b))); [|lia].
    cbn. rewrite readMeta_listed.
    rewrite (listedUnder_storage b) by reflexivity. now rewrite Hmeta. }
  unfold b', outcome, leaves. rewrite Hrun. cbn. split_ands.
  - reflexivity.
  - apply lookup_delete_eq.
  - apply listedUnder_Meta. cbn. apply lookup_insert_eq.
  - intros k Hk. now apply lookup_delete_ne.
  - intros k Hk. now apply lookup_insert_ne.
  - unfold getFileBlob. runL. now rewrite lookup_delete_eq.
Qed.

Lemma getFileBlob_purges_expired_witness :
  outcome (getFileBlob (J := DemoLocal.jsonText) "diary" "aa01") DemoLocal.browser
  = inl (Error "File expired") /\
  listedUnder (J := DemoLocal.jsonText)
    (leaves (getFileBlob (J := DemoLocal.jsonText) "diary" "aa01") DemoLocal.browser)
    "note:diary:filesMeta"
  = inr [Demo.photo].
Proof.
  pose proof (getFileBlob_purges_expired (J := DemoLocal.jsonText)
                DemoLocal.browser "diary" "aa01" DemoLocal.reportRec
                [Demo.report; Demo.photo] eq_refl eq_refl eq_refl) as Hpurge.
  split; [apply Hpurge|]. apply Hpurge.
Defined.

Lemma In_existsb_eqb (s : string) (l : list string) :
  existsb (String.eqb s) l = true <-> In s l.
Proof.
  rewrite existsb_exists. split.
  - intros (x & Hin & Heq). apply String.eqb_eq in Heq. now subst.
  - intros Hin. exists s. split; [exact Hin|apply String.eqb_refl].
Qed.

(** X22: with the note's password, a file of at most ten mebibytes whose
    name ends in an accepted extension is stored whatever its bytes are: the
    entry returned carries the next random id, the file's name and size, an
    expiry one day after the first clock reading and the second reading as
    upload time; it is appended to the note's list, and until the entry
    expires the file is fetched back under its id. *)
Theorem addFile_then_getFileBlob {P : Platform} {J : JsonText}
    (b : Browser) (noteId password : string) (file : File) (entries : list FileInfo) :
  opens b noteId password ->
  (Z.of_nat (fileSize file) <= 10 * 1024 * 1024)%Z ->
  In (extensionOf (fileName file)) validExts ->
  listedUnder b (noteFilesMetaKey noteId) = inr entries ->
  let b' := leaves (addFileForNote noteId password file) b in
  let entry :=
    mkFileInfo (randomIds b (drawn b)) (fileName file) (fileSize file)
      (wallClock b (S (readings b)))
      (wallClock b (readings b) + 24 * 60 * 60 * 1000)%Z in
  outcome (addFileForNote noteId password file) b = inr entry /\
  listedUnder b' (noteFilesMetaKey noteId) = inr (entries ++ [entry])%list /\
  ((wallClock b' (readings b') <= expiresAt entry)%Z ->
   outcome (getFileBlob noteId (id entry)) b' = inr file).
Proof.
  intros Hopen Hsize Hext Hmeta b' entry.
  assert (Hrun : addFileForNote noteId password file b =
    (inr entry,
     mkBrowser
       (<[noteFilesMetaKey noteId := Meta (entries ++ [entry])]> (localStorage b))
       (<[blobKey noteId (id entry) :=
            mkFileRec (blobKey noteId (id entry)) noteId (fileName file)
              (fileSize file) (uploadedAt entry) (expiresAt entry) file]>
          (filesStore b))
       (wallClock b) (S (S (readings b))) (randomIds b) (S (drawn b)))).
  { unfold addFileForNote, andThen. rewrite (verifyNote_opens _ _ _ Hopen). cbn.
    destruct (Z.ltb_spec (10 * 1024 * 1024) (Z.of_nat (fileSize file))); [lia|].
    apply In_existsb_eqb in Hext. unfold validExts in Hext. rewrite Hext. cbn.
    runL. rewrite readMeta_listed.
    rewrite (listedUnder_storage b) by reflexivity. now rewrite Hmeta. }
  unfold b', outcome, leaves. rewrite Hrun. cbn. split_ands.
  - reflexivity.
  - apply listedUnder_Meta. cbn. apply lookup_insert_eq.
  - intros Hlive.
    erewrite getFileBlob_live; [|cbn; apply lookup_insert_eq|exact Hlive].
    reflexivity.
Qed.

Lemma addFile_then_getFileBlob_witness :
  outcome (addFileForNote (P := Demo.platform) (J := DemoLocal.jsonText)
             "diary" "abcd" DemoLocal.reportFile) DemoLocal.browser
  = inr (mkFileInfo "0f1e2d3c4b5a69788796a5b4" "Report.PDF" 9
           100000001 (100000000 + 24 * 60 * 60 * 1000)) /\
  outcome (getFileBlob (J := DemoLocal.jsonText) "diary" "0f1e2d3c4b5a69788796a5b4")
    (leaves (addFileForNote (P := Demo.platform) (J := DemoLocal.jsonText)
               "diary" "abcd" DemoLocal.reportFile) DemoLocal.browser)
  = inr DemoLocal.reportFile.
Proof.
  assert (Hopen : opens (P := Demo.platform) (J := DemoLocal.jsonText)
                    DemoLocal.browser "diary" "abcd").
  { exists (Text "sha256:abcd"). split_ands; [reflexivity|reflexivity|discriminate]. }
  assert (Hsize : (Z.of_nat (fileSize DemoLocal.reportFile) <= 10 * 1024 * 1024)%Z).
  { vm_compute. discriminate. }
  assert (Hext : In (extensionOf (P := Demo.platform)
                       (fileName DemoLocal.reportFile)) validExts).
  { vm_compute. auto. }
  pose proof (addFile_then_getFileBlob (P := Demo.platform) (J := DemoLocal.jsonText)
                DemoLocal.browser "diary" "abcd" DemoLocal.reportFile
                [Demo.report; Demo.photo] Hopen Hsize Hext eq_refl) as Hadd.
  split; [apply Hadd|]. apply Hadd. vm_compute. discriminate.
Defined.

(** X23: with the note's password, a file of more than ten mebibytes is
    refused with 'File too large', and a smaller one whose name does not end
    in pdf, jpg, jpeg, png or docx (in any case of letters) with 'Invalid
    file type'; neither store changes. *)
Theorem addFile_rejects_large_or_mistyped {P : Platform} {J : JsonText}
    (b : Browser) (noteId password : string) (file : File) :
  opens b noteId password ->
  (10 * 1024 * 1024 < Z.of_nat (fileSize file))%Z \/
  ~ In (extensionOf (fileName file)) validExts ->
  addFileForNote noteId password file b =
  (inl (Error (if (10 * 1024 * 1024 <? Z.of_nat (fileSize file))%Z
               then "File too large" else "Invalid file type")), b).
Proof.
  intros Hopen Hbad.
  unfold addFileForNote, andThen. rewrite (verifyNote_opens _ _ _ Hopen). cbn.
  destruct (Z.ltb_spec (10 * 1024 * 1024) (Z.of_nat (fileSize file)));
    [reflexivity|].
  destruct Hbad as [Hlarge|Hext]; [lia|].
  rewrite <- In_existsb_eqb in Hext. apply not_true_is_false in Hext.
  unfold validExts in Hext. now rewrite Hext.
Qed.

Lemma addFile_rejects_large_or_mistyped_witness :
  addFileForNote (P := Demo.platform) (J := DemoLocal.jsonText)
    "diary" "abcd" DemoLocal.notesFile DemoLocal.browser
  = (inl (Error "Invalid file type"), DemoLocal.browser).
Proof.
  assert (Hopen : opens (P := Demo.platform) (J := DemoLocal.jsonText)
                    DemoLocal.browser "diary" "abcd").
  { exists (Text "sha256:abcd"). split_ands; [reflexivity|reflexivity|discriminate]. }
  apply (addFile_rejects_large_or_mistyped (P := Demo.platform)
           (J := DemoLocal.jsonText) DemoLocal.browser "diary" "abcd"
           DemoLocal.notesFile Hopen).
  right. vm_compute. intuition discriminate.
Defined.

(** X24: creating a note checks neither that its id is free nor the password
    of a note already there: whatever the browser holds, the digest is
    replaced, so that a password with another digest no longer opens the note
    and the new one does, the content and the list of attachments start
    empty, and the blobs stay in the object store, where an unexpired one is
    still fetched under its id. *)
Theorem createNote_replaces_existing_note {P : Platform} {J : JsonText}
    (b : Browser) (noteId old new : string) :
  sha256_hex new <> "" ->
  sha256_hex new <> sha256_hex old ->
  let b' := leaves (createNote noteId new) b in
  outcome (createNote noteId new) b = inr true /\
  locked b' noteId old /\
  outcome (loadNote noteId new) b' = inr ("", []) /\
  filesStore b' = filesStore b /\
  (forall fileId rec,
     filesStore b !! blobKey noteId fileId = Some rec ->
     (wallClock b (readings b) <= recExpiresAt rec)%Z ->
     outcome (getFileBlob noteId fileId) b' = inr (blob rec)).
Proof.
  intros Hne Hdiff b'.
  pose proof (createNote_opens b noteId new Hne) as Hopen. fold b' in Hopen.
  assert (Hb' : b' = mkBrowser
            (<[noteFilesMetaKey noteId := Meta []]>
               (<[noteContentKey noteId := Text ""]>
                  (<[notePasswordKey noteId := Text (sha256_hex new)]>
                     (localStorage b))))
            (filesStore b) (wallClock b) (readings b) (randomIds b) (drawn b)).
  { unfold b', leaves. now rewrite createNote_run. }
  split_ands.
  - reflexivity.
  - intros item Hitem. rewrite Hb' in Hitem. cbn in Hitem.
    rewrite lookup_insert_ne in Hitem by (apply not_eq_sym, passwordKey_not_metaKey).
    rewrite lookup_insert_ne in Hitem
      by (apply not_eq_sym, passwordKey_not_contentKey).
    rewrite lookup_insert_eq in Hitem. injection Hitem as <-. exact Hdiff.
  - unfold outcome. rewrite (loadNote_run b' noteId new []); [|exact Hopen|].
    + rewrite Hb'. cbn.
      rewrite lookup_insert_ne by apply not_eq_sym, contentKey_not_metaKey.
      now rewrite lookup_insert_eq.
    + apply listedUnder_Meta. rewrite Hb'. cbn. apply lookup_insert_eq.
  - now rewrite Hb'.
  - intros fileId rec Hrec Hlive. unfold outcome.
    erewrite getFileBlob_live;
      [|rewrite Hb'; cbn; exact Hrec|rewrite Hb'; cbn; exact Hlive].
    reflexivity.
Qed.

Lemma createNote_replaces_existing_note_witness :
  outcome (createNote (P := Demo.platform) "diary" "wxyz") DemoLocal.browser
  = inr true /\
  outcome (getFileBlob (J := DemoLocal.jsonText) "diary" "bb02")
    (leaves (createNote (P := Demo.platform) "diary" "wxyz") DemoLocal.browser)
  = inr DemoLocal.reportFile.
Proof.
  assert (Hne : @sha256_hex Demo.platform "wxyz" <> "") by discriminate.
  assert (Hdiff : @sha256_hex Demo.platform "wxyz" <> @sha256_hex Demo.platform "abcd")
    by discriminate.
  pose proof (createNote_replaces_existing_note (P := Demo.platform)
                (J := DemoLocal.jsonText) DemoLocal.browser "diary" "abcd" "wxyz"
                Hne Hdiff) as Hcreate.
  split; [apply Hcreate|].
  destruct Hcreate as (_ & _ & _ & _ & Hserved).
  apply (Hserved "bb02" DemoLocal.photoRec); [reflexivity|].
  vm_compute. discriminate.
Defined.

Lemma append_assoc (a b c : string) : (a +:+ b) +:+ c = a +:+ (b +:+ c).
Proof.
  induction a as [|x a IH]; [reflexivity|].
  change (String x ((a +:+ b) +:+ c) = String x (a +:+ (b +:+ c))).
  now rewrite IH.
Qed.

Lemma length_append (a b : string) :
  String.length (a +:+ b) = String.length a + String.length b.
Proof.
  induction a as [|x a IH]; [reflexivity|].
  change (S (String.length (a +:+ b)) = S (String.length a + String.length b)).
  now rewrite IH.
Qed.

Lemma substring_whole (b : string) : substring 0 (String.length b) b = b.
Proof. induction b as [|x b IH]; [reflexivity|]. cbn. now rewrite IH. Qed.

Lemma substring_suffix (a b : string) :
  substring (String.length a) (String.length b) (a +:+ b) = b.
Proof.
  induction a as [|x a IH]; [apply substring_whole|].
  change (substring (String.length a) (String.length b) (a +:+ b) = b).
  exact IH.
Qed.

Lemma isMetaKey_metaKey (noteId : string) :
  isMetaKey (noteFilesMetaKey noteId) = true.
Proof.
  unfold isMetaKey, noteFilesMetaKey. apply andb_true_intro. split;
    [apply startsWith_append|].
  unfold endsWith. rewrite <- append_assoc.
  rewrite length_append, Nat.add_sub, substring_suffix, String.eqb_refl.
  rewrite andb_true_r. apply Nat.leb_le. lia.
Qed.

Lemma splitOn_piece (sep : ascii) (s rest acc : string) :
  ~ In sep (list_ascii_of_string s) ->
  splitOn sep (s +:+ String sep rest) acc = (acc +:+ s) :: splitOn sep rest "".
Proof.
  revert acc. induction s as [|c s IH]; intros acc Hfree.
  - change (splitOn sep (String sep rest) acc = (acc +:+ "") :: splitOn sep rest "").
    cbn. rewrite Ascii.eqb_refl. f_equal.
    clear. induction acc as [|x acc IH]; [reflexivity|].
    change (String x acc = String x (acc +:+ "")). now rewrite <- IH.
  - change (splitOn sep (String c (s +:+ String sep rest)) acc =
            (acc +:+ String c s) :: splitOn sep rest "").
    cbn. destruct (Ascii.eqb_spec c sep) as [->|_].
    + exfalso. apply Hfree. now left.
    + rewrite IH by (intros Hin; apply Hfree; now right).
      now rewrite append_assoc.
Qed.

Lemma noteId_of_metaKey (noteId : string) :
  colonFree noteId ->
  nth 1 (splitOn ":" (noteFilesMetaKey noteId) "") "undefined" = noteId.
Proof.
  intros Hfree. unfold noteFilesMetaKey.
  change ("note:" +:+ noteId +:+ ":filesMeta")
    with ("note" +:+ String ":" (noteId +:+ String ":" "filesMeta")).
  rewrite splitOn_piece by (cbn; intuition discriminate).
  now rewrite splitOn_piece.
Qed.

Lemma listedUnder_lookup {J : JsonText} (b b' : Browser) (key : string) :
  localStorage b' !! key = localStorage b !! key ->
  listedUnder b' key = listedUnder b key.
Proof.
  intros Heq. unfold listedUnder, readMeta. runL. rewrite Heq.
  destruct (localStorage b !! key) as [[s|entries]|]; try reflexivity.
  destruct (String.eqb s ""); [reflexivity|].
  destruct (parseText s); reflexivity.
Qed.

Lemma forEach_idbDelete {A : Type} (g : A -> string) (xs : list A) (b : Browser) :
  exists fs,
    forEach xs (fun x => idbDelete (g x)) b =
    (inr tt, mkBrowser (localStorage b) fs (wallClock b) (readings b)
               (randomIds b) (drawn b)) /\
    (forall x, In x xs -> fs !! g x = None) /\
    (forall k r, fs !! k = Some r -> filesStore b !! k = Some r).
Proof.
  revert b. induction xs as [|x xs IH]; intros b.
  - exists (filesStore b). split_ands; [now destruct b|now intros|auto].
  - destruct (IH (snd (idbDelete (g x) b))) as (fs & Hrun & Hgone & Hsub).
    exists fs. split_ands.
    + cbn. runL. exact Hrun.
    + intros y [->|Hin]; [|now apply Hgone].
      destruct (fs !! g y) as [r|] eqn:Hfs; [|reflexivity].
      apply Hsub in Hfs. cbn in Hfs. now rewrite lookup_delete_eq in Hfs.
    + intros k r Hfs. apply Hsub in Hfs. cbn in Hfs.
      destruct (decide (k = g x)) as [->|Hne].
      * now rewrite lookup_delete_eq in Hfs.
      * now rewrite lookup_delete_ne in Hfs.
Qed.

Lemma cleanupKey_run {J : JsonText} (key : string) (b : Browser) (l : list FileInfo) :
  listedUnder b key = inr l ->
  exists fs,
    cleanupKey key b =
    (inr tt,
     mkBrowser
       (<[key := Meta (List.filter
                         (fun f => (expiresAt f >=? wallClock b (readings b))%Z) l)]>
          (localStorage b))
       fs (wallClock b) (S (readings b)) (randomIds b) (drawn b)) /\
    (forall f, In f l -> (expiresAt f < wallClock b (readings b))%Z ->
       fs !! blobKey (nth 1 (splitOn ":" key "") "undefined") (id f) = None) /\
    (forall k r, fs !! k = Some r -> filesStore b !! k = Some r).
Proof.
  intros Hmeta. unfold cleanupKey, andThen. rewrite readMeta_listed, Hmeta. cbn.
  match goal with
  | |- context [forEach ?xs ?body ?b0] =>
      destruct (forEach_idbDelete
                  (fun f => blobKey (nth 1 (splitOn ":" key "") "undefined") (id f))
                  xs b0) as (fs & Hrun & Hgone & Hsub);
      rewrite Hrun
  end.
  exists fs. cbn. split_ands.
  - reflexivity.
  - intros f Hin Hexp. apply (Hgone f). apply List.filter_In. split; [exact Hin|].
    now apply Z.ltb_lt.
  - exact Hsub.
Qed.

Lemma cleanupKeys_run {J : JsonText} (keys : list string) (b : Browser) :
  NoDup keys ->
  (forall k, In k keys -> exists l, listedUnder b k = inr l) ->
  exists b',
    forEach keys cleanupKey b = (inr tt, b') /\
    wallClock b' = wallClock b /\
    readings b' = readings b + length keys /\
    (forall k, ~ In k keys -> localStorage b' !! k = localStorage b !! k) /\
    (forall k r, filesStore b' !! k = Some r -> filesStore b !! k = Some r) /\
    (forall k l, In k keys -> listedUnder b k = inr l ->
       exists n, readings b <= n < readings b' /\
         localStorage b' !! k =
           Some (Meta (List.filter (fun f => (expiresAt f >=? wallClock b n)%Z) l)) /\
         forall f, In f l -> (expiresAt f < wallClock b n)%Z ->
           filesStore b' !! blobKey (nth 1 (splitOn ":" k "") "undefined") (id f)
           = None).
Proof.
  revert b. induction keys as [|key keys IH]; intros b Hnodup Hparse.
  - exists b. split_ands;
      [reflexivity|reflexivity|cbn; lia|reflexivity|auto|intros k l []].
  - apply NoDup_cons in Hnodup as [Hfresh Hnodup].
    destruct (Hparse key (or_introl eq_refl)) as (l0 & Hl0).
    destruct (cleanupKey_run key b l0 Hl0) as (fs & Hrun & Hgone & Hsub).
    set (b1 := snd (cleanupKey key b)).
    assert (Hb1 : b1 = mkBrowser
              (<[key := Meta (List.filter
                   (fun f => (expiresAt f >=? wallClock b (readings b))%Z) l0)]>
                 (localStorage b))
              fs (wallClock b) (S (readings b)) (randomIds b) (drawn b)).
    { unfold b1. now rewrite Hrun. }
    assert (Hother : forall k, k <> key -> localStorage b1 !! k = localStorage b !! k).
    { intros k Hk. rewrite Hb1. cbn. now apply lookup_insert_ne. }
    destruct (IH b1 Hnodup) as (b' & Hrest & Hclock & Hreads & Hkeep & Hblobs & Hswept).
    { intros k Hin. destruct (Hparse k (or_intror Hin)) as (l & Hl). exists l.
      rewrite <- Hl. apply listedUnder_lookup, Hother.
      intros ->. apply Hfresh. now apply list_elem_of_In. }
    assert (Hclock1 : wallClock b1 = wallClock b) by now rewrite Hb1.
    assert (Hreads1 : readings b1 = S (readings b)) by now rewrite Hb1.
    exists b'. split_ands.
    + cbn [forEach]. unfold andThen. rewrite Hrun. rewrite <- Hb1. exact Hrest.
    + congruence.
    + rewrite Hreads, Hreads1. cbn. lia.
    + intros k Hk. rewrite Hkeep by (intros Hin; apply Hk; now right).
      apply Hother. intros ->. apply Hk. now left.
    + intros k r Hk. apply Hblobs in Hk. rewrite Hb1 in Hk. now apply Hsub.
    + intros k l [<-|Hin] Hl.
      * assert (l = l0) as -> by congruence.
        exists (readings b). split; [rewrite Hreads, Hreads1; lia|]. split.
        -- rewrite Hkeep by (intros Hin; apply Hfresh; now apply list_elem_of_In).
           rewrite Hb1. cbn. apply lookup_insert_eq.
        -- intros f Hf Hexp.
           destruct (filesStore b' !! _) as [r|] eqn:Hr; [|reflexivity].
           apply Hblobs in Hr. rewrite Hb1 in Hr. cbn in Hr.
           now rewrite (Hgone f Hf Hexp) in Hr.
      * destruct (Hswept k l Hin) as (n & Hn & Hlist & Hdel).
        { rewrite <- Hl. apply listedUnder_lookup, Hother.
          intros ->. apply Hfresh. now apply list_elem_of_In. }
        rewrite Hclock1 in Hlist, Hdel.
        exists n. split; [lia|]. split; [exact Hlist|exact Hdel].
Qed.

(** X25: when every attachment list in localStorage can be read, the sweep
    of the page succeeds; it changes no item other than those lists
    (digests, contents and foreign items stay), it only ever deletes blobs,
    and for each note it takes one reading of the clock, keeps exactly the
    entries that expire at or after that reading and, when the note's id has
    no colon, deletes the blob of every entry it drops. *)
Theorem cleanupExpiredLocal_sweeps_every_note {J : JsonText} (b : Browser) :
  (forall k, isMetaKey k = true -> is_Some (localStorage b !! k) ->
     exists l, listedUnder b k = inr l) ->
  let b' := leaves cleanupExpiredLocal b in
  outcome cleanupExpiredLocal b = inr tt /\
  (forall k, isMetaKey k = false -> localStorage b' !! k = localStorage b !! k) /\
  (forall k r, filesStore b' !! k = Some r -> filesStore b !! k = Some r) /\
  (forall noteId l,
     is_Some (localStorage b !! noteFilesMetaKey noteId) ->
     listedUnder b (noteFilesMetaKey noteId) = inr l ->
     exists n, readings b <= n < readings b' /\
       listedUnder b' (noteFilesMetaKey noteId) =
         inr (List.filter (fun f => (expiresAt f >=? wallClock b n)%Z) l) /\
       (colonFree noteId ->
        forall f, In f l -> (expiresAt f < wallClock b n)%Z ->
          filesStore b' !! blobKey noteId (id f) = None)).
Proof.
  intros Hparse b'.
  set (keys := List.filter isMetaKey (map fst (map_to_list (localStorage b)))).
  assert (Hin : forall k, In k keys <->
                  isMetaKey k = true /\ is_Some (localStorage b !! k)).
  { intros k. unfold keys. rewrite List.filter_In, in_map_iff. split.
    - intros [((k0 & item) & <- & Hk) Hmeta]. split; [exact Hmeta|].
      apply list_elem_of_In, elem_of_map_to_list in Hk. now exists item.
    - intros [Hmeta (item & Hk)]. split; [|exact Hmeta].
      exists (k, item). split; [reflexivity|].
      now apply list_elem_of_In, elem_of_map_to_list. }
  destruct (cleanupKeys_run keys b) as (b1 & Hrun & Hclock & Hreads & Hkeep & Hblobs & Hswept).
  { unfold keys. apply NoDup_ListNoDup, List.NoDup_filter, NoDup_ListNoDup.
    apply NoDup_fst_map_to_list. }
  { intros k Hk. apply Hin in Hk as [Hmeta Hsome]. now apply Hparse. }
  assert (Hb' : cleanupExpiredLocal b = (inr tt, b1)).
  { unfold cleanupExpiredLocal, andThen, storageKeys. exact Hrun. }
  unfold b', outcome, leaves. rewrite Hb'. cbn. split_ands.
  - reflexivity.
  - intros k Hk. apply Hkeep. intros Hk'. apply Hin in Hk' as [Hmeta _]. congruence.
  - exact Hblobs.
  - intros noteId l Hsome Hl.
    destruct (Hswept (noteFilesMetaKey noteId) l) as (n & Hn & Hlist & Hdel);
      [apply Hin; split; [apply isMetaKey_metaKey|exact Hsome]|exact Hl|].
    exists n. split_ands; [lia|lia|now apply listedUnder_Meta|].
    intros Hfree f Hf Hexp. specialize (Hdel f Hf Hexp).
    now rewrite noteId_of_metaKey in Hdel.
Qed.

Lemma cleanupExpiredLocal_sweeps_every_note_witness :
  outcome (cleanupExpiredLocal (J := DemoLocal.jsonText)) DemoLocal.browser = inr tt /\
  LocalNotes.filesStore
    (leaves (cleanupExpiredLocal (J := DemoLocal.jsonText)) DemoLocal.browser)
    !! "diary_bb02" = Some DemoLocal.photoRec.
Proof.
  assert (Hparse : forall k, isMetaKey k = true ->
            is_Some (localStorage DemoLocal.browser !! k) ->
            exists l, listedUnder (J := DemoLocal.jsonText) DemoLocal.browser k = inr l).
  { intros k Hmeta [item Hk]. unfold DemoLocal.browser, localStorage in Hk.
    repeat (apply lookup_insert_Some in Hk as [[<- _]|[_ Hk]];
            [first [discriminate Hmeta
                   |exists [Demo.report; Demo.photo]; reflexivity]|]).
    apply lookup_singleton_Some in Hk as [<- _]. discriminate Hmeta. }
  destruct (cleanupExpiredLocal_sweeps_every_note (J := DemoLocal.jsonText)
             DemoLocal.browser Hparse) as (Hout & _).
  split.
  - exact Hout.
  - vm_compute. reflexivity.
Defined.

Lemma append_cancel_r (a b c : string) : a +:+ c = b +:+ c -> a = b.
Proof.
  revert b. induction a as [|x a IH]; intros [|y b] Heq.
  - reflexivity.
  - apply (f_equal String.length) in Heq.
    rewrite !length_append in Heq. cbn [String.length] in Heq. lia.
  - apply (f_equal String.length) in Heq.
    rewrite !length_append in Heq. cbn [String.length] in Heq. lia.
  - change (String x (a +:+ c) = String y (b +:+ c)) in Heq.
    injection Heq as -> Heq. f_equal. now apply IH.
Qed.

Lemma last_char_differs (a b : string) (x y : ascii) :
  x <> y -> a +:+ String x "" <> b +:+ String y "".
Proof.
  intros Hxy Heq.
  pose proof (substring_suffix a (String x "")) as Ha.
  pose proof (substring_suffix b (String y "")) as Hb.
  apply (f_equal (fun s => substring (String.length s - 1) 1 s)) in Heq.
  rewrite !length_append in Heq. cbn [String.length] in Heq.
  rewrite !Nat.add_sub in Heq. cbn [String.length] in Ha, Hb.
  congruence.
Qed.

Lemma keysOf_disjoint (noteId other : string) (k : string) :
  noteId <> other -> In k (keysOf noteId) -> ~ In k (keysOf other).
Proof.
  intros Hne Hk Hother. unfold keysOf in Hk, Hother. cbn in Hk, Hother.
  unfold notePasswordKey, noteContentKey, noteFilesMetaKey in Hk, Hother.
  assert (Hinj : forall sfx, "note:" +:+ noteId +:+ sfx = "note:" +:+ other +:+ sfx ->
                             False).
  { intros sfx Heq. apply String.app_inj, append_cancel_r in Heq. contradiction. }
  assert (Hlast : forall a b (x y : ascii) s t,
            x <> y -> "note:" +:+ a +:+ (s +:+ String x "") =
                      "note:" +:+ b +:+ (t +:+ String y "") -> False).
  { intros a b x y s t Hxy Heq. apply String.app_inj in Heq.
    rewrite <- !append_assoc in Heq. now apply last_char_differs in Heq. }
  destruct Hk as [<-|[<-|[<-|[]]]]; destruct Hother as [Heq|[Heq|[Heq|[]]]].
  - now apply eq_sym, Hinj in Heq.
  - now apply (Hlast other noteId "t"%char "h"%char ":conten" ":passwordHas") in Heq.
  - now apply (Hlast other noteId "a"%char "h"%char ":filesMet" ":passwordHas") in Heq.
  - now apply (Hlast other noteId "h"%char "t"%char ":passwordHas" ":conten") in Heq.
  - now apply eq_sym, Hinj in Heq.
  - now apply (Hlast other noteId "a"%char "t"%char ":filesMet" ":conten") in Heq.
  - now apply (Hlast other noteId "h"%char "a"%char ":passwordHas" ":filesMet") in Heq.
  - now apply (Hlast other noteId "t"%char "a"%char ":conten" ":filesMet") in Heq.
  - now apply eq_sym, Hinj in Heq.
Qed.

Lemma verifyNote_pure {P : Platform} {J : JsonText}
    (b : Browser) (noteId password : string) :
  exists ok, verifyNote noteId password b = (inr ok, b).
Proof.
  unfold verifyNote, sha256Hex. runL.
  destruct (localStorage b !! notePasswordKey noteId) as [item|]; [|now exists false].
  destruct (String.eqb (textOf item) ""); [now exists false|].
  now exists (String.eqb (textOf item) (sha256_hex password)).
Qed.

Lemma perform_frame {P : Platform} {J : JsonText}
    (noteId : string) (a : NoteAction) (b : Browser) (k : string) :
  ~ In k (keysOf noteId) ->
  localStorage (perform noteId a b) !! k = localStorage b !! k.
Proof.
  intros Hk. unfold keysOf in Hk. cbn in Hk.
  assert (Hp : notePasswordKey noteId <> k) by intuition.
  assert (Hc : noteContentKey noteId <> k) by intuition.
  assert (Hm : noteFilesMetaKey noteId <> k) by intuition.
  destruct a as [password|password content|password file|fileId];
    unfold perform, leaves.
  - rewrite createNote_run. cbn. now rewrite !lookup_insert_ne by auto.
  - unfold saveNoteContent, andThen.
    destruct (verifyNote_pure b noteId password) as ([|] & ->); cbn;
      [|reflexivity].
    now rewrite lookup_insert_ne by auto.
  - unfold addFileForNote, andThen.
    destruct (verifyNote_pure b noteId password) as ([|] & ->); cbn;
      [|reflexivity].
    destruct (_ <? _)%Z; [reflexivity|].
    destruct (existsb _ _); [|reflexivity]. cbn. runL.
    rewrite readMeta_listed. destruct (listedUnder _ _); cbn; [reflexivity|].
    now rewrite lookup_insert_ne by auto.
  - unfold getFileBlob. runL. destruct (filesStore b !! _); [|reflexivity]. cbn.
    destruct (_ <? _)%Z; [|reflexivity]. cbn.
    rewrite readMeta_listed. destruct (listedUnder _ _); cbn; [reflexivity|].
    now rewrite lookup_insert_ne by auto.
Qed.

Lemma loadNote_frame {P : Platform} {J : JsonText}
    (b b' : Browser) (noteId password : string) :
  (forall k, In k (keysOf noteId) -> localStorage b' !! k = localStorage b !! k) ->
  outcome (loadNote noteId password) b' = outcome (loadNote noteId password) b /\
  outcome (noteExists noteId) b' = outcome (noteExists noteId) b.
Proof.
  intros Hsame.
  pose proof (Hsame _ (or_introl eq_refl)) as Hp.
  pose proof (Hsame _ (or_intror (or_introl eq_refl))) as Hc.
  pose proof (Hsame _ (or_intror (or_intror (or_introl eq_refl)))) as Hm.
  split.
  - unfold loadNote, verifyNote, sha256Hex. runL. rewrite Hp.
    destruct (localStorage b !! notePasswordKey noteId) as [item|]; [|reflexivity].
    destruct (String.eqb (textOf item) ""); [reflexivity|]. cbn.
    destruct (String.eqb (textOf item) _); [|reflexivity]. cbn.
    rewrite !readMeta_listed, (listedUnder_lookup b b' _ Hm), Hc.
    now destruct (listedUnder b _).
  - unfold noteExists. runL. now rewrite Hp.
Qed.

(** X26: two notes never share a localStorage key, so whatever the page does
    to one note -- create it, save it, attach to it or fetch one of its
    files, with success or not -- another note loads as before and exists as
    before. *)
Theorem notes_do_not_interfere {P : Platform} {J : JsonText}
    (b : Browser) (noteId other password : string) (a : NoteAction) :
  noteId <> other ->
  outcome (loadNote other password) (perform noteId a b) =
    outcome (loadNote other password) b /\
  outcome (noteExists other) (perform noteId a b) = outcome (noteExists other) b.
Proof.
  intros Hne. apply loadNote_frame. intros k Hk. apply perform_frame.
  intros Hin. now apply (keysOf_disjoint noteId other k Hne).
Qed.

Lemma notes_do_not_interfere_witness :
  outcome (loadNote (P := Demo.platform) (J := DemoLocal.jsonText) "diary" "abcd")
    (perform (P := Demo.platform) (J := DemoLocal.jsonText)
       "diary:content" (Create "wxyz") DemoLocal.browser)
  = inr ("dear diary", [Demo.report; Demo.photo]).
Proof.
  assert (Hne : "diary:content" <> "diary") by discriminate.
  destruct (notes_do_not_interfere (P := Demo.platform) (J := DemoLocal.jsonText)
              DemoLocal.browser "diary:content" "diary" "abcd" (Create "wxyz") Hne)
    as [Hload _].
  rewrite Hload. reflexivity.
Defined.
